(** * mkfs: the FAT image builder of firstKernel (fat/mkfs.c)

    A shallow embedding of [getBlock], [toPtr], [oneFile] and [main], and the
    properties of the free list, of the file packer and of the root directory
    that the specification states about them.  The module [BigData] embeds
    [writeFully] and [main] of the generator of the test file [big.data]
    (unnamed/part_000).

    Conventions of the embedding.
    - [uint32_t] values are integers of [Z]; every C operation that can wrap
      is written with [u32].  The program is read with [int], [size_t] and
      pointers of 32 bits.
    - The mapped region ([mapStart], [mapLength]) is an [image]: a length and
      the byte stored at each offset.  [super], [fat] and [blocks] are views
      of that one region, so the super block is read and written at offsets
      0..15, [fat[i]] at offset [512 + 4 * i], and block [idx] at
      [512 * idx]; a store through one view is seen through the others.
    - Addresses are offsets from [mapStart].  An access outside
      [0, mapLength) has no defined behaviour in C; it is the error [Fault].
    - [exit] is an error result: the run stops there. *)

From Stdlib Require Import String Ascii ZArith List Sorted Lia Bool.
Import ListNotations.
Local Open Scope Z_scope.

(** ** Machine integers *)

Definition u32 (z : Z) : Z := z mod 4294967296.

Definition INT_MAX : Z := 2147483647.
Definition INT_MIN : Z := -2147483648.

(** ** The mapped region *)

Record image : Type := mkImage {
  mapLength : Z;          (* size_t mapLength *)
  cell : Z -> Z           (* the byte at each offset from mapStart *)
}.

(** A file that [open(O_CREAT)] has just created and [ftruncate] has
    extended reads as zeros. *)
Definition fresh (len : Z) : image := mkImage len (fun _ => 0).

(** 4-byte words, least significant byte first.  The program stores them
    in the byte order of its host; no statement below depends on it. *)
Definition get32 (m : image) (off : Z) : Z :=
  cell m off + 256 * cell m (off + 1) + 65536 * cell m (off + 2)
  + 16777216 * cell m (off + 3).

Definition put32 (m : image) (off v : Z) : image :=
  mkImage (mapLength m)
    (fun x =>
       if x =? off then v mod 256
       else if x =? off + 1 then (v / 256) mod 256
       else if x =? off + 2 then (v / 65536) mod 256
       else if x =? off + 3 then (v / 16777216) mod 256
       else cell m x).

Definition put8 (m : image) (off v : Z) : image :=
  mkImage (mapLength m) (fun x => if x =? off then v else cell m x).

Definition put_bytes (m : image) (off : Z) (bs : list Z) : image :=
  mkImage (mapLength m)
    (fun x =>
       if (off <=? x) && (x <? off + Z.of_nat (length bs))
       then nth (Z.to_nat (x - off)) bs 0
       else cell m x).

Definition get_bytes (m : image) (off : Z) (n : nat) : list Z :=
  map (fun k => cell m (off + Z.of_nat k)) (seq 0 n).

Definition in_map (m : image) (off len : Z) : bool :=
  (0 <=? off) && (off + len <=? mapLength m).

(** ** Results and the state monad of the program *)

Inductive error : Type :=
| Usage          (* main: the usage message, exit(1) *)
| Undefined      (* signed overflow, or a value atoi cannot represent *)
| SetupFailed    (* open / ftruncate / mmap of the image failed, exit(1) *)
| OpenFailed     (* oneFile: perror("open"), exit(-1) *)
| ReadFailed     (* oneFile: perror("read"), exit(-1) *)
| DiskFull       (* getBlock: "disk is full", exit(-1) *)
| Fault          (* an access outside the mapped region *)
| OutOfFuel.     (* the bound on the iterations of a loop was too small *)

Inductive result (A : Type) : Type :=
| Ok (a : A)
| Err (e : error).
Arguments Ok {A} a.
Arguments Err {A} e.

Definition M (A : Type) : Type := image -> result (A * image).

Definition ret {A} (a : A) : M A := fun m => Ok (a, m).
Definition fail {A} (e : error) : M A := fun _ => Err e.
Definition bind {A B} (c : M A) (k : A -> M B) : M B :=
  fun m => match c m with
           | Ok (a, m') => k a m'
           | Err e => Err e
           end.

Notation "x <- c ;; k" := (bind c (fun x => k))
  (at level 61, c at next level, right associativity).
Notation "c ;;; k" := (bind c (fun _ => k))
  (at level 61, right associativity).

Definition load32 (off : Z) : M Z :=
  fun m => if in_map m off 4 then Ok (get32 m off, m) else Err Fault.

Definition store32 (off v : Z) : M unit :=
  fun m => if in_map m off 4 then Ok (tt, put32 m off v) else Err Fault.

Definition store8 (off v : Z) : M unit :=
  fun m => if in_map m off 1 then Ok (tt, put8 m off v) else Err Fault.

Definition store_bytes (off : Z) (bs : list Z) : M unit :=
  fun m => if in_map m off (Z.of_nat (length bs))
           then Ok (tt, put_bytes m off bs) else Err Fault.

(** ** The views of the region: [Super], [fat], [blocks] *)

Definition super_magic : Z := 0.
Definition super_nBlocks : Z := 4.
Definition super_avail : Z := 8.
Definition super_root : Z := 12.

(** [&fat[i]], with [fat = (uint32_t * )(blocks + 512)]. *)
Definition fat_at (i : Z) : Z := 512 + 4 * i.

Definition avail (m : image) : Z := get32 m super_avail.
Definition root (m : image) : Z := get32 m super_root.
Definition fat (m : image) (i : Z) : Z := get32 m (fat_at i).

(** ** getBlock (mkfs.c, lines 96-111) *)

Definition getBlock : M Z :=
  idx <- load32 super_avail ;;
  if idx =? 0 then fail DiskFull
  else
    nxt <- load32 (fat_at idx) ;;
    store32 super_avail nxt ;;;
    store32 (fat_at idx) 0 ;;;
    ret idx.

(** ** toPtr (lines 121-124): [blocks + idx * 512 + offset], the product
    being taken in [uint32_t]. *)

Definition toPtr (idx offset : Z) : Z := u32 (idx * 512) + offset.

(** ** Input files

    An input file is a finite sequence of bytes.  [read] may return fewer
    bytes than asked for, or fail: [sched] lists what the successive calls
    do, and a call beyond the end of [sched] returns all it can. *)

Inductive rd_event : Type :=
| RdFail                     (* read returns -1 *)
| RdAtMost (k : positive).   (* read returns at most k bytes *)

Record stream : Type := mkStream {
  pending : list Z;          (* the bytes not yet read *)
  sched : list rd_event
}.

(** [read(fd, buf, count)]: the number returned, the bytes put at [buf],
    and the descriptor afterwards. *)
Definition read (fd : stream) (count : Z) : Z * list Z * stream :=
  match sched fd with
  | RdFail :: s => (-1, [], mkStream (pending fd) s)
  | RdAtMost k :: s =>
      let n := Z.min (Z.min count (Z.pos k)) (Z.of_nat (length (pending fd))) in
      (n, firstn (Z.to_nat n) (pending fd),
       mkStream (skipn (Z.to_nat n) (pending fd)) s)
  | [] =>
      let n := Z.min count (Z.of_nat (length (pending fd))) in
      (n, firstn (Z.to_nat n) (pending fd),
       mkStream (skipn (Z.to_nat n) (pending fd)) [])
  end.

(** What [open(fileName, O_RDONLY)] finds: nothing, or a readable file. *)
Definition world : Type := string -> option stream.

(** ** oneFile (lines 142-200) *)

(** The [while (1)] loop of lines 168-196.  Every turn that does not leave
    the loop takes at least one byte from the file, so [fuel] bounds the
    number of turns by the number of bytes left, plus one. *)
Fixpoint pack_loop (fuel : nat) (fd : stream)
    (fileMetaData currentBlockIndex leftInBlock blockOffset totalSize : Z)
    : M unit :=
  match fuel with
  | O => fail OutOfFuel
  | S fuel' =>
      st <- (if leftInBlock =? 0 then
               b <- getBlock ;;
               store32 (fat_at currentBlockIndex) b ;;;
               ret (b, 0, 512)
             else ret (currentBlockIndex, blockOffset, leftInBlock)) ;;
      let '(currentBlockIndex, blockOffset, leftInBlock) := st in
      let '(n, buf, fd') := read fd leftInBlock in
      if n <? 0 then fail ReadFailed
      else if n =? 0 then store32 (fileMetaData + 4) totalSize
      else
        store_bytes (toPtr currentBlockIndex blockOffset) buf ;;;
        pack_loop fuel' fd' fileMetaData currentBlockIndex
          (u32 (leftInBlock - n)) (u32 (blockOffset + n)) (u32 (totalSize + n))
  end.

(** Line 154 reads [(uint32_t)toPtr(startBlockIndex, 0)], where line 285
    has [(uint32_t * )]: the address is narrowed to 32 bits before it is
    used as [fileMetaData].  With pointers of 32 bits the cast keeps the
    address; on the offsets of the embedding it is [u32].  (Where [mmap]
    returns an address that does not fit 32 bits, the store of line 157
    goes through a cut pointer; the embedding does not cover that host.) *)
Definition oneFile (w : world) (fileName : string) : M Z :=
  match w fileName with
  | None => fail OpenFailed
  | Some fd =>
      startBlockIndex <- getBlock ;;
      let fileMetaData := u32 (toPtr startBlockIndex 0) in
      store32 fileMetaData 1 ;;;
      pack_loop (S (length (pending fd))) fd fileMetaData
        startBlockIndex (512 - 8) 8 0 ;;;
      ret startBlockIndex
  end.

(** ** The C library functions that [main] calls *)

Definition is_space (c : ascii) : bool :=
  let n := N_of_ascii c in
  (N.eqb n 32 || (N.leb 9 n && N.leb n 13))%bool.

Definition digit_of (c : ascii) : option Z :=
  let n := Z.of_N (N_of_ascii c) in
  if (48 <=? n) && (n <=? 57) then Some (n - 48) else None.

Fixpoint skip_spaces (s : string) : string :=
  match s with
  | String c r => if is_space c then skip_spaces r else s
  | EmptyString => s
  end.

Fixpoint digits_value (acc : Z) (s : string) : Z :=
  match s with
  | String c r =>
      match digit_of c with
      | Some d => digits_value (10 * acc + d) r
      | None => acc
      end
  | EmptyString => acc
  end.

(** [atoi]: white space, an optional sign, then the longest run of decimal
    digits; 0 when there is none.  The C standard leaves the result
    undefined when it does not fit an [int]: [None]. *)
Definition atoi (s : string) : option Z :=
  let v :=
    match skip_spaces s with
    | String "-" r => - digits_value 0 r
    | String "+" r => digits_value 0 r
    | r => digits_value 0 r
    end in
  if (INT_MIN <=? v) && (v <=? INT_MAX) then Some v else None.

Fixpoint has_slash (s : string) : bool :=
  match s with
  | String c r => (Ascii.eqb c "/" || has_slash r)%bool
  | EmptyString => false
  end.

(** [basename], which no header of the program declares: the function of
    the C library that returns what follows the last ['/'] of the path,
    and the whole path when it has none.  (The other [basename] of the C
    library differs from it only on paths that end with ['/'].) *)
Fixpoint basename (s : string) : string :=
  match s with
  | String c r =>
      if has_slash r then basename r
      else if Ascii.eqb c "/" then r else s
  | EmptyString => EmptyString
  end.

(** The [n] bytes that [strncpy(dest, src, n)] leaves at [dest]: the
    characters of [src] up to its end (a zero byte ends a C string), then
    zeros up to [n]; the first [n] characters when [src] is longer. *)
Fixpoint strncpy_bytes (n : nat) (src : string) : list Z :=
  match n with
  | O => []
  | S n' =>
      match src with
      | String c r =>
          if Ascii.eqb c zero then repeat 0 n
          else Z.of_N (N_of_ascii c) :: strncpy_bytes n' r
      | EmptyString => repeat 0 n
      end
  end.

Definition strncpy (dest : Z) (src : string) (n : nat) : M Z :=
  store_bytes dest (strncpy_bytes n src) ;;; ret dest.

(** ** main (lines 204-308) *)

(** Lines 252-281: the super block and the free list.  The [for] loop of
    line 279 runs for [i = avail, avail - 1, ..., lastAvail + 1]. *)
Fixpoint init_fat (turns : nat) (i : Z) : M unit :=
  match turns with
  | O => ret tt
  | S turns' => store32 (fat_at i) (u32 (i - 1)) ;;; init_fat turns' (u32 (i - 1))
  end.

(** [(nBlocks * sizeof(uint32_t) + 511) / 512], computed in [size_t] and
    stored in a [uint32_t]. *)
Definition fatBlocks_of (nBlocks : Z) : Z :=
  u32 (u32 (u32 (u32 nBlocks * 4) + 511) / 512).

Definition lastAvail_of (nBlocks : Z) : Z := u32 (1 + fatBlocks_of nBlocks).

Definition main_format (nBlocks : Z) : M unit :=
  let fatBlocks := fatBlocks_of nBlocks in
  store8 (super_magic + 0) 70 ;;;        (* 'F' *)
  store8 (super_magic + 1) 52 ;;;        (* '4' *)
  store8 (super_magic + 2) 51 ;;;        (* '3' *)
  store8 (super_magic + 3) 57 ;;;        (* '9' *)
  store32 super_nBlocks (u32 nBlocks) ;;;
  store32 super_avail (u32 (nBlocks - 1)) ;;;
  let lastAvail := u32 (1 + fatBlocks) in
  a <- load32 super_avail ;;
  init_fat (Z.to_nat (a - lastAvail)) a.

(** Lines 294-304: one turn per file name, [i] counting from 0.  The
    values of [x] are returned, first file first, for the statements
    below; the program itself keeps them only in the directory. *)
Fixpoint main_files (w : world) (rootData : Z) (i : Z)
    (fileNames : list string) : M (list Z) :=
  match fileNames with
  | [] => ret []
  | fileName :: rest =>
      x <- oneFile w fileName ;;
      let base := basename fileName in
      dest <- strncpy (rootData + i * 16) base 12 ;;
      store32 (dest + 12) x ;;;
      xs <- main_files w rootData (i + 1) rest ;;
      ret (x :: xs)
  end.

(** Lines 284-304. *)
Definition main_root (w : world) (nFiles : Z) (fileNames : list string)
    : M (list Z) :=
  r <- getBlock ;;
  store32 super_root r ;;;
  r0 <- load32 super_root ;;
  let rootMetaData := toPtr r0 0 in
  store32 rootMetaData 2 ;;;
  store32 (rootMetaData + 4) (u32 (nFiles * 16)) ;;;
  r1 <- load32 super_root ;;
  let rootData := toPtr r1 8 in
  main_files w rootData 0 fileNames.

(** The image file is taken to be new, and creating, sizing and mapping it
    to succeed whenever the size asked for is positive: [ftruncate] refuses
    a negative length and [mmap] a length of 0. *)
Definition main (w : world) (argv : list string) : result (list Z * image) :=
  let argc := Z.of_nat (length argv) in
  if argc <? 4 then Err Usage
  else
    match atoi (nth 2 argv EmptyString) with
    | None => Err Undefined
    | Some nBlocks =>
        let fileNames := skipn 3 argv in
        let nFiles := argc - 3 in
        if (nBlocks * 512 <? INT_MIN) || (INT_MAX <? nBlocks * 512)
        then Err Undefined
        else if nBlocks * 512 <=? 0 then Err SetupFailed
        else
          (main_format nBlocks ;;; main_root w nFiles fileNames)
            (fresh (nBlocks * 512))
    end.

(** ** Reading an image back

    The program has no read path; these functions are the reader the
    specification has in mind when it speaks of following a chain or of
    parsing the image. *)

(** The blocks met from [b] by [fat] look-ups, up to the first 0. *)
Fixpoint chain_from (fuel : nat) (m : image) (b : Z) : list Z :=
  match fuel with
  | O => []
  | S fuel' => if b =? 0 then [] else b :: chain_from fuel' m (fat m b)
  end.

Definition nBlocks_of (m : image) : Z := get32 m super_nBlocks.

Definition chain_of (m : image) (b : Z) : list Z :=
  chain_from (Z.to_nat (mapLength m / 512)) m b.

(** The bytes a chain holds: from offset 8 in its first block, from offset
    0 in the others. *)
Definition chain_payload (m : image) (bs : list Z) : list Z :=
  match bs with
  | [] => []
  | h :: t =>
      get_bytes m (512 * h + 8) 504
      ++ flat_map (fun b => get_bytes m (512 * b) 512) t
  end.

Definition file_length (m : image) (head : Z) : Z := get32 m (512 * head + 4).
Definition file_tag (m : image) (head : Z) : Z := get32 m (512 * head).

Definition file_content (m : image) (head : Z) : list Z :=
  firstn (Z.to_nat (file_length m head)) (chain_payload m (chain_of m head)).

(** Directory entry [i] of the root block [r]. *)
Definition entry_name (m : image) (r : Z) (i : Z) : list Z :=
  get_bytes m (512 * r + 8 + 16 * i) 12.
Definition entry_start (m : image) (r : Z) (i : Z) : Z :=
  get32 m (512 * r + 8 + 16 * i + 12).

(** Repeated [getBlock] until it fails, at most [fuel] times: the indices
    it returned, and the error that ended the sequence. *)
Fixpoint drain (fuel : nat) (m : image) : list Z * option error :=
  match fuel with
  | O => ([], None)
  | S fuel' =>
      match getBlock m with
      | Ok (b, m') => let '(bs, e) := drain fuel' m' in (b :: bs, e)
      | Err e => ([], Some e)
      end
  end.

(** The image [main] has after lines 252-281, for [nBlocks] blocks. *)
Definition formatted (nBlocks : Z) : image :=
  match main_format nBlocks (fresh (nBlocks * 512)) with
  | Ok (_, m) => m
  | Err _ => fresh 0
  end.

(** ** Notions used in the statements *)

(** [only_changes P m m']: [m'] has the size of [m] and differs from it at
    offsets of [P] only. *)
Definition only_changes (P : Z -> Prop) (m m' : image) : Prop :=
  mapLength m' = mapLength m /\ forall x, ~ P x -> cell m' x = cell m x.

(** [chain m lo hi a l]: the [fat] look-ups from [a] visit the blocks [l],
    in that order, and then reach 0; the blocks lie in [lo, hi) and each
    is smaller than the one before. *)
Inductive chain (m : image) (lo : Z) : Z -> Z -> list Z -> Prop :=
| chain_nil (hi : Z) : chain m lo hi 0 []
| chain_cons (hi b : Z) (l : list Z) :
    lo <= b < hi -> chain m lo b (fat m b) l -> chain m lo hi b (b :: l).

(** What one successful [getBlock] writes. *)
Definition alloc_touch (b : Z) (x : Z) : Prop :=
  8 <= x < 12 \/ fat_at b <= x < fat_at b + 4.

(** What the loop of [oneFile] may write from the state where the current
    block is [cur], filled up to [off], and the head block is [h]: [avail],
    FAT entries up to that of [cur], the blocks below [cur], the rest of
    [cur], and the length field of [h]. *)
Definition pack_touch (lo cur off h : Z) (x : Z) : Prop :=
  8 <= x < 12
  \/ fat_at lo <= x < fat_at cur + 4
  \/ 512 * lo <= x < 512 * cur
  \/ 512 * cur + off <= x < 512 * cur + 512
  \/ 512 * h + 4 <= x < 512 * h + 8.

(** What [oneFile] may write when the free list starts at [h]. *)
Definition file_touch (lo h : Z) (x : Z) : Prop :=
  8 <= x < 12
  \/ fat_at lo <= x < fat_at h + 4
  \/ 512 * lo <= x < 512 * h + 512.

(** The bytes of whole blocks, in order. *)
Definition blocks_bytes (m : image) (bs : list Z) : list Z :=
  flat_map (fun b => get_bytes m (512 * b) 512) bs.

(** The state of the loop of [oneFile] at the top of a turn. *)
Definition pack_pre (N lo h cur left off total : Z) (m : image) (l : list Z)
    : Prop :=
  mapLength m = 512 * N
  /\ chain m lo cur (avail m) l
  /\ lo <= cur <= h /\ h < N
  /\ (cur = h -> 8 <= off)
  /\ fat m cur = 0
  /\ 0 <= left <= 512 /\ off + left = 512
  /\ 0 <= total /\ total + left + 8 <= 512 * (h - cur + 1).

(** What the loop of [oneFile] has done when it is left. *)
Definition pack_post (N lo : Z) (fd : stream) (h cur left off total : Z)
    (m : image) (l : list Z) (r : result (unit * image)) : Prop :=
  match r with
  | Ok (_, m') =>
      exists (bs l' : list Z) (c : Z),
        l = bs ++ l'
        /\ lo <= c <= cur
        /\ mapLength m' = 512 * N
        /\ chain m' c (cur + 1) cur (cur :: bs)
        /\ chain m' lo c (avail m') l'
        /\ Z.of_nat (length bs)
           = (Z.of_nat (length (pending fd)) - left + 512) / 512
        /\ get32 m' (512 * h + 4) = total + Z.of_nat (length (pending fd))
        /\ firstn (length (pending fd))
             (get_bytes m' (512 * cur + off) (Z.to_nat left)
              ++ blocks_bytes m' bs) = pending fd
        /\ only_changes (pack_touch lo cur off h) m m'
  | Err e =>
      (e = DiskFull
       /\ Z.of_nat (length l)
          < (Z.of_nat (length (pending fd)) - left + 512) / 512)
      \/ (e = ReadFailed /\ In RdFail (sched fd))
  end.

(** What [oneFile] has done when it returns, on a file opened as [fd] and a
    free list [l] below [hi]. *)
Definition file_post (N lo : Z) (fd : stream) (hi : Z) (m : image)
    (l : list Z) (r : result (Z * image)) : Prop :=
  match r with
  | Ok (h, m') =>
      exists (bs l' : list Z) (c : Z),
        l = h :: bs ++ l'
        /\ lo <= c <= h /\ h < hi
        /\ mapLength m' = 512 * N
        /\ chain m' c (h + 1) h (h :: bs)
        /\ chain m' lo c (avail m') l'
        /\ Z.of_nat (length (h :: bs))
           = 1 + (Z.of_nat (length (pending fd)) + 8) / 512
        /\ file_tag m' h = 1
        /\ file_length m' h = Z.of_nat (length (pending fd))
        /\ firstn (length (pending fd)) (chain_payload m' (h :: bs)) = pending fd
        /\ only_changes (file_touch lo h) m m'
  | Err e =>
      (e = DiskFull
       /\ Z.of_nat (length l) < 1 + (Z.of_nat (length (pending fd)) + 8) / 512)
      \/ (e = ReadFailed /\ In RdFail (sched fd))
  end.

(** [hi; hi - 1; ...], [n] blocks. *)
Fixpoint down_from (hi : Z) (n : nat) : list Z :=
  match n with
  | O => []
  | S n' => hi :: down_from (hi - 1) n'
  end.

(** A packed file, seen in an image: its chain from the head block [x]
    lies in [c, hi), and the chain, the header and the bytes are those of
    the file read from [fd]. *)
Definition file_ok (m : image) (c hi : Z) (fd : stream) (x : Z) : Prop :=
  exists bs : list Z,
    chain m c hi x (x :: bs)
    /\ Z.of_nat (length (x :: bs)) = 1 + (Z.of_nat (length (pending fd)) + 8) / 512
    /\ file_tag m x = 1
    /\ file_length m x = Z.of_nat (length (pending fd))
    /\ firstn (length (pending fd)) (chain_payload m (x :: bs)) = pending fd.

(** Directory entry [k] of the root block [r] names [fileName] and starts
    at [x]. *)
Definition entry_ok (m : image) (r k : Z) (fileName : string) (x : Z) : Prop :=
  entry_name m r k = strncpy_bytes 12 (basename fileName)
  /\ entry_start m r k = x.

(** The blocks the files [names] need, one after the other. *)
Fixpoint blocks_needed (w : world) (names : list string) : Z :=
  match names with
  | [] => 0
  | name :: rest =>
      match w name with
      | Some fd => 1 + (Z.of_nat (length (pending fd)) + 8) / 512
      | None => 0
      end + blocks_needed w rest
  end.

(** [name] opens, and no [read] of it fails. *)
Definition readable (w : world) (name : string) : Prop :=
  exists fd, w name = Some fd /\ ~ In RdFail (sched fd).

(** Why a loop over the files [names] ends with the error [e], when the
    free list has [free] blocks and the entries go up to offset [top] of
    a region of [size] bytes. *)
Definition files_error (w : world) (names : list string) (free size top : Z)
    (e : error) : Prop :=
  (e = OpenFailed /\ exists name, In name names /\ w name = None)
  \/ (e = DiskFull /\ free < blocks_needed w names)
  \/ (e = ReadFailed
      /\ exists name fd, In name names /\ w name = Some fd /\ In RdFail (sched fd))
  \/ (e = Fault /\ size < top).

(** What the loop over the files may write: what [oneFile] may write with
    a free list below [hi], and the root block from entry [i] on. *)
Definition files_touch (lo hi r i : Z) (x : Z) : Prop :=
  file_touch lo (hi - 1) x \/ 512 * r + 8 + 16 * i <= x.

(** What the loop over the files has done when it ends. *)
Definition files_post (N lo r : Z) (w : world) (i hi : Z)
    (names : list string) (m : image) (l : list Z)
    (res : result (list Z * image)) : Prop :=
  match res with
  | Ok (xs, m') =>
      mapLength m' = 512 * N
      /\ length xs = length names
      /\ (names <> [] -> 512 * r + 8 + 16 * (i + Z.of_nat (length names)) <= 512 * N)
      /\ only_changes (files_touch lo hi r i) m m'
      /\ avail m' <= avail m
      /\ exists (c : Z) (l' : list Z),
           lo <= c <= hi
           /\ chain m' lo c (avail m') l'
           /\ forall (k : nat) (name : string),
                nth_error names k = Some name ->
                exists (fd : stream) (x : Z),
                  w name = Some fd
                  /\ nth_error xs k = Some x
                  /\ entry_ok m' r (i + Z.of_nat k) name x
                  /\ file_ok m' c hi fd x
  | Err e =>
      files_error w names (Z.of_nat (length l)) (512 * N)
        (512 * r + 8 + 16 * (i + Z.of_nat (length names))) e
  end.

(** What lines 284-304 have done when they end: the root block [r] is the
    head of the free list they found, and the files lie below it. *)
Definition root_post (N lo : Z) (w : world) (nFiles : Z)
    (names : list string) (m : image) (l : list Z)
    (res : result (list Z * image)) : Prop :=
  match res with
  | Ok (xs, m') =>
      exists (r : Z) (l1 : list Z),
        l = r :: l1
        /\ mapLength m' = 512 * N
        /\ root m' = r
        /\ file_tag m' r = 2
        /\ file_length m' r = u32 (nFiles * 16)
        /\ nBlocks_of m' = nBlocks_of m
        /\ length xs = length names
        /\ (names <> [] -> 512 * r + 8 + 16 * Z.of_nat (length names) <= 512 * N)
        /\ avail m' < avail m
        /\ exists (c : Z) (l' : list Z),
             lo <= c <= r
             /\ chain m' lo c (avail m') l'
             /\ forall (k : nat) (name : string),
                  nth_error names k = Some name ->
                  exists (fd : stream) (x : Z),
                    w name = Some fd
                    /\ nth_error xs k = Some x
                    /\ entry_ok m' r (Z.of_nat k) name x
                    /\ file_ok m' c r fd x
  | Err e =>
      files_error w names (Z.of_nat (length l) - 1) (512 * N)
        (512 * hd 0 l + 8 + 16 * Z.of_nat (length names)) e
  end.

(** What a run of [main] that returns 0 has done: the block count is at
    least 3 and fits, and lines 284-304 ran on the new image. *)
Definition main_post (w : world) (argv : list string) (xs : list Z)
    (img : image) : Prop :=
  exists N : Z,
    atoi (nth 2 argv EmptyString) = Some N
    /\ 3 <= N /\ 512 * N <= INT_MAX
    /\ (4 <= length argv)%nat
    /\ root_post N (lastAvail_of N) w (Z.of_nat (length argv) - 3)
         (skipn 3 argv) (formatted N)
         (down_from (N - 1) (Z.to_nat (N - lastAvail_of N)))
         (Ok (xs, img)).

(** The bytes of a C string: the characters before the first zero. *)
Fixpoint c_bytes (s : string) : list Z :=
  match s with
  | String c r =>
      if Ascii.eqb c zero then [] else Z.of_N (N_of_ascii c) :: c_bytes r
  | EmptyString => []
  end.

(** ** Concrete runs *)

(** What a run returns, when it returns 0. *)
Definition run_xs (w : world) (argv : list string) : list Z :=
  match main w argv with
  | Ok (xs, _) => xs
  | Err _ => []
  end.

Definition run_img (w : world) (argv : list string) : image :=
  match main w argv with
  | Ok (_, img) => img
  | Err _ => fresh 0
  end.

Definition succeeds {A : Type} (r : result A) : bool :=
  match r with
  | Ok _ => true
  | Err _ => false
  end.

(** A file of [n] bytes of fixed content: 0, 1, ..., 250, 0, 1, ... *)
Definition sample (n : nat) : list Z :=
  map (fun k => Z.of_nat k mod 251) (seq 0 n).

(** The files of the examples.  The first two reads of [big.data] return
    at most 100 and at most 7 bytes; every other [read] returns all it is
    asked for. *)
Definition big_data : stream :=
  mkStream (sample 600) [RdAtMost 100; RdAtMost 7].

Definition demo_world : world :=
  fun name =>
    if String.eqb name "dir/small.txt" then Some (mkStream (sample 10) [])
    else if String.eqb name "big.data" then Some big_data
    else if String.eqb name "f504" then Some (mkStream (sample 504) [])
    else None.

(** [mkfs disk.img 16 dir/small.txt big.data] *)
Definition demo_argv : list string :=
  ["mkfs"; "disk.img"; "16"; "dir/small.txt"; "big.data"]%string.

(** [mkfs disk.img 16 f504] *)
Definition argv_504 : list string :=
  ["mkfs"; "disk.img"; "16"; "f504"]%string.

(** [mkfs disk.img 0 f504] *)
Definition argv_zero_blocks : list string :=
  ["mkfs"; "disk.img"; "0"; "f504"]%string.

(** The number of blocks the specification gives a file of [S] bytes:
    [1] if [S <= 504], else [1 + ceil ((S - 504) / 512)]. *)
Definition spec_blocks (S : Z) : Z :=
  if S <=? 504 then 1 else 1 + (S - 504 + 511) / 512.

(** [c] never ends with the error [e0]. *)
Definition avoids (e0 : error) {A : Type} (c : M A) : Prop :=
  forall m, c m <> Err e0.

(** The free list of [m] is a chain in [lo, N) from [avail]. *)
Definition free_inv (N lo : Z) (m : image) : Prop :=
  mapLength m = 512 * N
  /\ exists (hi : Z) (l : list Z), lo <= hi <= N /\ chain m lo hi (avail m) l.

(** ** The blocks of an image *)

(** The free list of [m]: the blocks met from [avail]. *)
Definition free_list (m : image) : list Z := chain_of m (avail m).

(** The start blocks that the first [n] entries of the root directory
    name. *)
Definition dir_starts (m : image) (n : nat) : list Z :=
  map (fun k => entry_start m (root m) (Z.of_nat k)) (seq 0 n).


(** What a call returns and the image it leaves, when it succeeds. *)
Definition value_of {A : Type} (d : A) (r : result (A * image)) : A :=
  match r with
  | Ok (a, _) => a
  | Err _ => d
  end.

Definition image_of {A : Type} (r : result (A * image)) : image :=
  match r with
  | Ok (_, m) => m
  | Err _ => fresh 0
  end.

(** ** What a run writes *)

(** The place of byte [i] of a file packed from block [h] down, 512 bytes
    to a block: bytes 0..7 are the header, the content follows. *)
Definition file_addr (h i : Z) : Z := 512 * (h - i / 512) + i mod 512.

(** The free list of [m] is [c - 1, c - 2, ..., lo]. *)
Definition free_below (lo : Z) (m : image) (c : Z) : Prop :=
  chain m lo c (avail m) (down_from (c - 1) (Z.to_nat (c - lo))).

(** What the loop of [oneFile] writes when it packs the bytes [from, to)
    of the file of head [h], the current block being [cur]: [avail], the
    FAT entries of the blocks it links, the bytes themselves, and the
    length field. *)
Definition pack_writes (h cur from to : Z) (x : Z) : Prop :=
  8 <= x < 12
  \/ fat_at (h - to / 512) <= x < fat_at cur + 4
  \/ (exists i, from <= i < to /\ x = file_addr h i)
  \/ 512 * h + 4 <= x < 512 * h + 8.

(** What [oneFile] writes for a file of [size] bytes packed from block
    [h]. *)
Definition file_writes (h size : Z) (x : Z) : Prop :=
  8 <= x < 12
  \/ fat_at (h - (8 + size) / 512) <= x < fat_at h + 4
  \/ exists i, 0 <= i < 8 + size /\ x = file_addr h i.

(** What the loop over the files [names] writes when the free list starts
    below [hi] and the entries at entry [i] of the root block [r]. *)
Definition files_writes (w : world) (names : list string) (hi r i : Z)
    (x : Z) : Prop :=
  8 <= x < 12
  \/ fat_at (hi - blocks_needed w names) <= x < fat_at hi
  \/ (exists (k : nat) (name : string) (fd : stream) (j : Z),
        nth_error names k = Some name /\ w name = Some fd
        /\ 0 <= j < 8 + Z.of_nat (length (pending fd))
        /\ x = file_addr (hi - 1 - blocks_needed w (firstn k names)) j)
  \/ 512 * r + 8 + 16 * i <= x
     < 512 * r + 8 + 16 * (i + Z.of_nat (length names)).

(** What a run on [N] blocks writes in the new image. *)
Definition run_writes (w : world) (names : list string) (N : Z) (x : Z)
    : Prop :=
  0 <= x < 16
  \/ 512 <= x < 512 + 4 * N
  \/ 512 * (N - 1) <= x < 512 * (N - 1) + 8 + 16 * Z.of_nat (length names)
  \/ exists (k : nat) (name : string) (fd : stream) (j : Z),
       nth_error names k = Some name /\ w name = Some fd
       /\ 0 <= j < 8 + Z.of_nat (length (pending fd))
       /\ x = file_addr (N - 2 - blocks_needed w (firstn k names)) j.

(** The state of the loop of [oneFile] at the top of a turn, on a free list
    without gaps: [8 + total] bytes of the file are in place. *)
Definition pack_at (N lo h cur left off total : Z) (m : image) : Prop :=
  mapLength m = 512 * N
  /\ free_below lo m cur
  /\ lo <= cur <= h /\ h < N
  /\ 0 <= left <= 512 /\ off + left = 512
  /\ 0 <= total /\ 8 + total = 512 * (h - cur) + off.

(** What the loop of [oneFile] has done when it is left, on a free list
    without gaps. *)
Definition pack_done (N lo : Z) (fd : stream) (h cur total : Z)
    (m m' : image) : Prop :=
  let stop := 8 + total + Z.of_nat (length (pending fd)) in
  mapLength m' = 512 * N
  /\ free_below lo m' (h - stop / 512)
  /\ lo <= h - stop / 512 <= cur
  /\ only_changes (pack_writes h cur (8 + total) stop) m m'.

(** ** Pointers of more than 32 bits

    Everything above reads the program with pointers of 32 bits.  On a
    host with wider pointers one line differs, line 154: the cast to
    [uint32_t] keeps the low 32 bits of the address of the head block, and
    [fileMetaData] is that number taken as an address.  [mapStart] is the
    address [mmap] returned; an address is an offset plus [mapStart], and
    [fileMetaData] is kept as an offset from [mapStart].  The functions
    below are [oneFile] and its callers with that one change. *)

Definition oneFile_at (mapStart : Z) (w : world) (fileName : string) : M Z :=
  match w fileName with
  | None => fail OpenFailed
  | Some fd =>
      startBlockIndex <- getBlock ;;
      let fileMetaData :=
        u32 (mapStart + toPtr startBlockIndex 0) - mapStart in
      store32 fileMetaData 1 ;;;
      pack_loop (S (length (pending fd))) fd fileMetaData
        startBlockIndex (512 - 8) 8 0 ;;;
      ret startBlockIndex
  end.

Fixpoint main_files_at (mapStart : Z) (w : world) (rootData : Z) (i : Z)
    (fileNames : list string) : M (list Z) :=
  match fileNames with
  | [] => ret []
  | fileName :: rest =>
      x <- oneFile_at mapStart w fileName ;;
      let base := basename fileName in
      dest <- strncpy (rootData + i * 16) base 12 ;;
      store32 (dest + 12) x ;;;
      xs <- main_files_at mapStart w rootData (i + 1) rest ;;
      ret (x :: xs)
  end.

Definition main_root_at (mapStart : Z) (w : world) (nFiles : Z)
    (fileNames : list string) : M (list Z) :=
  r <- getBlock ;;
  store32 super_root r ;;;
  r0 <- load32 super_root ;;
  let rootMetaData := toPtr r0 0 in
  store32 rootMetaData 2 ;;;
  store32 (rootMetaData + 4) (u32 (nFiles * 16)) ;;;
  r1 <- load32 super_root ;;
  let rootData := toPtr r1 8 in
  main_files_at mapStart w rootData 0 fileNames.

Definition main_at (mapStart : Z) (w : world) (argv : list string)
    : result (list Z * image) :=
  let argc := Z.of_nat (length argv) in
  if argc <? 4 then Err Usage
  else
    match atoi (nth 2 argv EmptyString) with
    | None => Err Undefined
    | Some nBlocks =>
        let fileNames := skipn 3 argv in
        let nFiles := argc - 3 in
        if (nBlocks * 512 <? INT_MIN) || (INT_MAX <? nBlocks * 512)
        then Err Undefined
        else if nBlocks * 512 <=? 0 then Err SetupFailed
        else
          (main_format nBlocks ;;; main_root_at mapStart w nFiles fileNames)
            (fresh (nBlocks * 512))
    end.


(** ** The generator of [big.data] (unnamed/part_000)

    The program that writes the test file: [writeFully] and its [main]. *)
Module BigData.

(** How a call ends. *)
Inductive outcome (A : Type) : Type :=
| Done (a : A)          (* it returns *)
| Exit (status : Z)     (* exit(status) *)
| Stray                 (* a pointer has left its buffer: no defined behaviour *)
| NoFuel.               (* the bound on the turns of a loop was too small *)
Arguments Done {A} a.
Arguments Exit {A} status.
Arguments Stray {A}.
Arguments NoFuel {A}.

(** What the successive calls of [write] do: fail, or write at most [k]
    bytes; a call beyond the end of the list writes all it is given. *)
Inductive wr_event : Type :=
| WrFail                 (* write returns -1 *)
| WrAtMost (k : N).      (* write returns at most k; 0 when k is 0 *)

Record out_file : Type := mkOut {
  written : list Z;      (* the bytes of the file *)
  wsched : list wr_event
}.

(** [write(fd, p, count)], [src] being the bytes from [p] on: the number
    returned and the file afterwards. *)
Definition write (fd : out_file) (src : list Z) (count : Z) : Z * out_file :=
  match wsched fd with
  | WrFail :: s => (-1, mkOut (written fd) s)
  | WrAtMost k :: s =>
      let n := Z.min count (Z.of_N k) in
      (n, mkOut (written fd ++ firstn (Z.to_nat n) src) s)
  | [] => (count, mkOut (written fd ++ firstn (Z.to_nat count) src) [])
  end.

(** The loop of [writeFully] (lines 15-25), [p] being an offset into
    [buf].  [cnt] is a [size_t]: the value [write] returns is taken modulo
    2^32.  Every turn uses one element of [wsched], or writes all that is
    left. *)
Fixpoint writeFully_loop (fuel : nat) (fd : out_file) (buf : list Z)
    (p togo : Z) : outcome out_file :=
  if togo =? 0 then Done fd
  else
    match fuel with
    | O => NoFuel
    | S fuel' =>
        let '(r, fd') := write fd (skipn (Z.to_nat p) buf) togo in
        let cnt := u32 r in
        if cnt <=? 0 then Exit (-1)
        else if Z.of_nat (length buf) <? p + cnt then Stray
        else writeFully_loop fuel' fd' buf (p + cnt) (u32 (togo - cnt))
    end.

Definition writeFully (fd : out_file) (buf : list Z) (length : Z)
    : outcome out_file :=
  writeFully_loop (S (List.length (wsched fd))) fd buf 0 length.

(** The 4 bytes of an [int], least significant first. *)
Definition int_bytes (i : Z) : list Z :=
  [i mod 256; (i / 256) mod 256; (i / 65536) mod 256; (i / 16777216) mod 256].

(** The [for] loop of lines 40-42, [turns] turns from [i] on. *)
Fixpoint main_loop (turns : nat) (i : Z) (fd : out_file) : outcome out_file :=
  match turns with
  | O => Done fd
  | S turns' =>
      match writeFully fd (int_bytes i) 4 with
      | Done fd' => main_loop turns' (i + 1) fd'
      | Exit status => Exit status
      | Stray => Stray
      | NoFuel => NoFuel
      end
  end.

(** [main]: [creat] fails ([None]) or gives an empty file whose writes
    follow the list given; the result is the content of [big.data]. *)
Definition main (creat : option (list wr_event)) : outcome (list Z) :=
  match creat with
  | None => Exit 1
  | Some s =>
      match main_loop (Z.to_nat (3000 - 0)) 0 (mkOut [] s) with
      | Done fd => Done (written fd)
      | Exit status => Exit status
      | Stray => Stray
      | NoFuel => NoFuel
      end
  end.

(** Every [write] of the list makes progress. *)
Definition progress (e : wr_event) : Prop :=
  match e with
  | WrFail => False
  | WrAtMost k => k <> 0%N
  end.

End BigData.

(** The integers 0, 1, ..., 2999, 4 bytes each. *)
Definition big_data_bytes : list Z :=
  flat_map BigData.int_bytes (map Z.of_nat (seq 0 3000)).

(** ** Bytes

    A byte of a file or of the image is a number below 256. *)
Definition is_byte (b : Z) : Prop := 0 <= b < 256.

Definition byte_valued (m : image) : Prop := forall x, is_byte (cell m x).

(** [c] leaves an image of bytes an image of bytes. *)
Definition keeps_bytes {A : Type} (c : M A) : Prop :=
  forall m a m', byte_valued m -> c m = Ok (a, m') -> byte_valued m'.

(** The files [names] hold bytes. *)
Definition byte_files (w : world) (names : list string) : Prop :=
  forall name fd,
    In name names -> w name = Some fd -> Forall is_byte (pending fd).

(** The files [names] open in [w1] and in [w2] with the same bytes; how
    [read] splits them may differ. *)
Definition same_files (w1 w2 : world) (names : list string) : Prop :=
  forall name, In name names ->
    exists fd1 fd2,
      w1 name = Some fd1 /\ w2 name = Some fd2
      /\ pending fd1 = pending fd2
      /\ Forall is_byte (pending fd1).

(** The files of [w], read without short reads. *)
Definition whole_reads (w : world) : world :=
  fun name =>
    match w name with
    | Some fd => Some (mkStream (pending fd) [])
    | None => None
    end.

(** * Properties *)

(** ** Words and bytes of the region *)

Lemma u32_small (z : Z) : 0 <= z < 4294967296 -> u32 z = z.
Proof. intros H. unfold u32. apply Z.mod_small. exact H. Qed.

Lemma get32_put32 (m : image) (off v : Z) : get32 (put32 m off v) off = u32 v.
Proof.
  unfold get32, put32, u32; cbn [cell].
  rewrite Z.eqb_refl.
  replace (off + 1 =? off) with false by (symmetry; apply Z.eqb_neq; lia).
  replace (off + 2 =? off) with false by (symmetry; apply Z.eqb_neq; lia).
  replace (off + 3 =? off) with false by (symmetry; apply Z.eqb_neq; lia).
  replace (off + 2 =? off + 1) with false by (symmetry; apply Z.eqb_neq; lia).
  replace (off + 3 =? off + 1) with false by (symmetry; apply Z.eqb_neq; lia).
  replace (off + 3 =? off + 2) with false by (symmetry; apply Z.eqb_neq; lia).
  rewrite !Z.eqb_refl.
  Z.to_euclidean_division_equations; lia.
Qed.

Lemma only_changes_refl (P : Z -> Prop) (m : image) : only_changes P m m.
Proof. split; reflexivity. Qed.

Lemma only_changes_trans (P Q R : Z -> Prop) (m0 m1 m2 : image) :
  only_changes P m0 m1 -> only_changes Q m1 m2 ->
  (forall x, P x \/ Q x -> R x) ->
  only_changes R m0 m2.
Proof.
  intros [L1 C1] [L2 C2] HR. split; [congruence|].
  intros x Hx. rewrite C2, C1; auto.
Qed.

Lemma only_changes_weaken (P Q : Z -> Prop) (m m' : image) :
  only_changes P m m' -> (forall x, P x -> Q x) -> only_changes Q m m'.
Proof.
  intros [L C] HQ. split; [exact L|]. intros x Hx. apply C. auto.
Qed.

Lemma put32_changes (m : image) (off v : Z) :
  only_changes (fun x => off <= x < off + 4) m (put32 m off v).
Proof.
  split; [reflexivity|]. intros x Hx. unfold put32; cbn [cell].
  repeat match goal with
         | |- context [Z.eqb ?a ?b] => destruct (Z.eqb_spec a b); [lia|]
         end.
  reflexivity.
Qed.

Lemma put8_changes (m : image) (off v : Z) :
  only_changes (fun x => x = off) m (put8 m off v).
Proof.
  split; [reflexivity|]. intros x Hx. unfold put8; cbn [cell].
  destruct (Z.eqb_spec x off); [contradiction|reflexivity].
Qed.

Lemma put_bytes_changes (m : image) (off : Z) (bs : list Z) :
  only_changes (fun x => off <= x < off + Z.of_nat (length bs)) m
               (put_bytes m off bs).
Proof.
  split; [reflexivity|]. intros x Hx. unfold put_bytes; cbn [cell].
  destruct (Z.leb_spec off x); destruct (Z.ltb_spec x (off + Z.of_nat (length bs)));
    cbn [andb]; try reflexivity; lia.
Qed.

Lemma get32_unchanged (P : Z -> Prop) (m m' : image) (o : Z) :
  only_changes P m m' -> (forall x, o <= x < o + 4 -> ~ P x) ->
  get32 m' o = get32 m o.
Proof.
  intros [_ C] H. unfold get32.
  rewrite !C by (apply H; lia). reflexivity.
Qed.

Lemma get_bytes_unchanged (P : Z -> Prop) (m m' : image) (o : Z) (n : nat) :
  only_changes P m m' -> (forall x, o <= x < o + Z.of_nat n -> ~ P x) ->
  get_bytes m' o n = get_bytes m o n.
Proof.
  intros [_ C] H. unfold get_bytes. apply map_ext_in.
  intros k Hk. apply in_seq in Hk. apply C, H. lia.
Qed.

Lemma get_bytes_put_bytes (m : image) (off : Z) (bs : list Z) :
  get_bytes (put_bytes m off bs) off (length bs) = bs.
Proof.
  unfold get_bytes, put_bytes; cbn [cell].
  apply nth_ext with (d := 0) (d' := 0).
  - rewrite length_map, length_seq. reflexivity.
  - intros k Hk. rewrite length_map, length_seq in Hk.
    rewrite nth_indep with (d' := (fun k => if (off <=? off + Z.of_nat k)
           && (off + Z.of_nat k <? off + Z.of_nat (length bs))
         then nth (Z.to_nat (off + Z.of_nat k - off)) bs 0
         else cell m (off + Z.of_nat k)) 0%nat)
      by (rewrite length_map, length_seq; exact Hk).
    rewrite map_nth with (f := fun k => if (off <=? off + Z.of_nat k)
           && (off + Z.of_nat k <? off + Z.of_nat (length bs))
         then nth (Z.to_nat (off + Z.of_nat k - off)) bs 0
         else cell m (off + Z.of_nat k)).
    rewrite seq_nth by exact Hk. cbn [plus].
    destruct (Z.leb_spec off (off + Z.of_nat k)); [|lia].
    destruct (Z.ltb_spec (off + Z.of_nat k) (off + Z.of_nat (length bs))); [|lia].
    cbn [andb]. f_equal. lia.
Qed.

(** ** The primitive accesses *)

Lemma in_map_true (m : image) (off len : Z) :
  in_map m off len = true <-> 0 <= off /\ off + len <= mapLength m.
Proof.
  unfold in_map. rewrite andb_true_iff, Z.leb_le, Z.leb_le. tauto.
Qed.

Lemma load32_ok (m : image) (off : Z) :
  0 <= off -> off + 4 <= mapLength m -> load32 off m = Ok (get32 m off, m).
Proof.
  intros H1 H2. unfold load32.
  replace (in_map m off 4) with true; [reflexivity|].
  symmetry. apply in_map_true. auto.
Qed.

Lemma store32_ok (m : image) (off v : Z) :
  0 <= off -> off + 4 <= mapLength m -> store32 off v m = Ok (tt, put32 m off v).
Proof.
  intros H1 H2. unfold store32.
  replace (in_map m off 4) with true; [reflexivity|].
  symmetry. apply in_map_true. auto.
Qed.

Lemma store8_ok (m : image) (off v : Z) :
  0 <= off -> off + 1 <= mapLength m -> store8 off v m = Ok (tt, put8 m off v).
Proof.
  intros H1 H2. unfold store8.
  replace (in_map m off 1) with true; [reflexivity|].
  symmetry. apply in_map_true. auto.
Qed.

Lemma store_bytes_ok (m : image) (off : Z) (bs : list Z) :
  0 <= off -> off + Z.of_nat (length bs) <= mapLength m ->
  store_bytes off bs m = Ok (tt, put_bytes m off bs).
Proof.
  intros H1 H2. unfold store_bytes.
  replace (in_map m off (Z.of_nat (length bs))) with true; [reflexivity|].
  symmetry. apply in_map_true. auto.
Qed.

Lemma store_bytes_inv (m m' : image) (off : Z) (bs : list Z) (u : unit) :
  store_bytes off bs m = Ok (u, m') ->
  m' = put_bytes m off bs /\ 0 <= off /\ off + Z.of_nat (length bs) <= mapLength m.
Proof.
  unfold store_bytes. destruct (in_map m off (Z.of_nat (length bs))) eqn:E.
  - intros H. inversion H. apply in_map_true in E. tauto.
  - discriminate.
Qed.

Lemma store32_inv (m m' : image) (off v : Z) (u : unit) :
  store32 off v m = Ok (u, m') ->
  m' = put32 m off v /\ 0 <= off /\ off + 4 <= mapLength m.
Proof.
  unfold store32. destruct (in_map m off 4) eqn:E.
  - intros H. inversion H. apply in_map_true in E. tauto.
  - discriminate.
Qed.

Lemma bind_ok {A B : Type} (c : M A) (k : A -> M B) (m m1 : image) (a : A) :
  c m = Ok (a, m1) -> bind c k m = k a m1.
Proof. intros H. unfold bind. rewrite H. reflexivity. Qed.

Lemma bind_err {A B : Type} (c : M A) (k : A -> M B) (m : image) (e : error) :
  c m = Err e -> bind c k m = Err e.
Proof. intros H. unfold bind. rewrite H. reflexivity. Qed.

Lemma chain_weaken (m : image) (lo lo' hi hi' a : Z) (l : list Z) :
  chain m lo hi a l -> lo' <= lo -> hi <= hi' -> chain m lo' hi' a l.
Proof.
  intros H. revert lo' hi'. induction H as [hi|hi b l Hb H IH]; intros lo' hi' Hlo Hhi.
  - constructor.
  - constructor; [lia|]. apply IH; lia.
Qed.

Lemma chain_frame (m m' : image) (lo hi a : Z) (l : list Z) :
  chain m lo hi a l ->
  (forall j, lo <= j < hi -> fat m' j = fat m j) ->
  chain m' lo hi a l.
Proof.
  intros H. induction H as [hi|hi b l Hb H IH]; intros Hf.
  - constructor.
  - constructor; [exact Hb|]. rewrite Hf by exact Hb.
    apply IH. intros j Hj. apply Hf. lia.
Qed.

Lemma chain_In (m : image) (lo hi a : Z) (l : list Z) (j : Z) :
  chain m lo hi a l -> In j l -> lo <= j < hi.
Proof.
  intros H. induction H as [hi|hi b l Hb H IH]; intros Hin.
  - contradiction.
  - destruct Hin as [<-|Hin]; [exact Hb|]. specialize (IH Hin). lia.
Qed.

Lemma chain_head (m : image) (lo hi a : Z) (l : list Z) :
  chain m lo hi a l -> 0 < lo -> a = hd 0 l /\ (a = 0 <-> l = []).
Proof.
  intros H Hlo. destruct H as [hi|hi b l Hb H]; cbn.
  - tauto.
  - split; [reflexivity|]. split; [lia|discriminate].
Qed.

Lemma chain_length (m : image) (lo hi a : Z) (l : list Z) :
  chain m lo hi a l -> lo <= hi -> Z.of_nat (length l) <= hi - lo.
Proof.
  intros H. induction H as [hi|hi b l Hb H IH]; intros Hle; cbn [length].
  - lia.
  - assert (lo <= b) by lia. specialize (IH H0). lia.
Qed.

Lemma chain_NoDup (m : image) (lo hi a : Z) (l : list Z) :
  chain m lo hi a l -> NoDup l.
Proof.
  intros H. induction H as [hi|hi b l Hb H IH].
  - constructor.
  - constructor; [|exact IH]. intros Hin.
    pose proof (chain_In _ _ _ _ _ _ H Hin). lia.
Qed.

Lemma chain_sorted (m : image) (lo hi a : Z) (l : list Z) :
  chain m lo hi a l -> StronglySorted Z.gt l.
Proof.
  intros H. induction H as [hi|hi b l Hb H IH].
  - constructor.
  - constructor; [exact IH|]. apply Forall_forall. intros j Hin.
    pose proof (chain_In _ _ _ _ _ _ H Hin). lia.
Qed.

Lemma chain_from_eq (m : image) (lo hi a : Z) (l : list Z) (fuel : nat) :
  chain m lo hi a l -> 0 < lo -> (length l <= fuel)%nat ->
  chain_from fuel m a = l.
Proof.
  intros H Hlo. revert fuel. induction H as [hi|hi b l Hb H IH]; intros fuel Hf.
  - destruct fuel; reflexivity.
  - destruct fuel as [|fuel]; [cbn in Hf; lia|]. cbn [chain_from].
    destruct (Z.eqb_spec b 0); [lia|]. f_equal. apply IH. cbn in Hf. lia.
Qed.

Lemma chain_start (m : image) (lo hi a : Z) (l : list Z) :
  chain m lo hi a l -> (a = 0 /\ l = []) \/ (lo <= a < hi /\ exists l', l = a :: l').
Proof.
  intros H. destruct H as [hi|hi b l Hb H]; [left|right]; eauto.
Qed.

(** ** Bytes, reads and frames of files *)

Lemma length_get_bytes (m : image) (o : Z) (n : nat) : length (get_bytes m o n) = n.
Proof. unfold get_bytes. rewrite length_map, length_seq. reflexivity. Qed.

Lemma nth_get_bytes (m : image) (o : Z) (n k : nat) (d : Z) :
  (k < n)%nat -> nth k (get_bytes m o n) d = cell m (o + Z.of_nat k).
Proof.
  intros Hk. unfold get_bytes.
  rewrite nth_indep with (d' := (fun k => cell m (o + Z.of_nat k)) 0%nat)
    by (rewrite length_map, length_seq; exact Hk).
  rewrite map_nth with (f := fun k => cell m (o + Z.of_nat k)).
  rewrite seq_nth by exact Hk. reflexivity.
Qed.

Lemma get_bytes_app (m : image) (o : Z) (a b : nat) :
  get_bytes m o (a + b) = get_bytes m o a ++ get_bytes m (o + Z.of_nat a) b.
Proof.
  apply nth_ext with (d := 0) (d' := 0).
  - rewrite length_app, !length_get_bytes. reflexivity.
  - intros k Hk. rewrite length_get_bytes in Hk.
    rewrite nth_get_bytes by exact Hk.
    destruct (Nat.lt_ge_cases k a) as [Hlt|Hge].
    + rewrite app_nth1 by (rewrite length_get_bytes; exact Hlt).
      rewrite nth_get_bytes by exact Hlt. reflexivity.
    + rewrite app_nth2 by (rewrite length_get_bytes; exact Hge).
      rewrite length_get_bytes. rewrite nth_get_bytes by lia. f_equal. lia.
Qed.

Lemma read_spec (fd fd' : stream) (count n : Z) (buf : list Z) :
  0 < count -> read fd count = (n, buf, fd') ->
  (n = -1 /\ In RdFail (sched fd)) \/
  (0 <= n <= count
   /\ Z.of_nat (length buf) = n
   /\ pending fd = buf ++ pending fd'
   /\ (n = 0 -> pending fd = [])
   /\ incl (sched fd') (sched fd)).
Proof.
  intros Hc. unfold read.
  assert (G : forall k, 0 < k ->
     let n := Z.min k (Z.of_nat (length (pending fd))) in
     0 <= n <= k /\ Z.of_nat (length (firstn (Z.to_nat n) (pending fd))) = n
     /\ pending fd = firstn (Z.to_nat n) (pending fd) ++ skipn (Z.to_nat n) (pending fd)
     /\ (n = 0 -> pending fd = [])).
  { intros k Hk n0. subst n0. split; [lia|]. split; [|split].
    - rewrite length_firstn. lia.
    - symmetry. apply firstn_skipn.
    - intros H0. destruct (pending fd); [reflexivity|cbn [length] in H0; lia]. }
  destruct (sched fd) as [|[|k] s]; intros H; inversion H; subst; clear H.
  - right. destruct (G count Hc) as (A & B & C & D). cbn [pending sched].
    repeat split; try tauto; try lia. apply incl_refl.
  - left. split; [reflexivity|left; reflexivity].
  - right. destruct (G (Z.min count (Z.pos k)) ltac:(lia)) as (A & B & C & D).
    cbn [pending sched]. repeat split; try tauto; try lia.
    apply incl_tl, incl_refl.
Qed.

Lemma oneFile_closed (w : world) (fileName : string) (m : image) :
  w fileName = None -> oneFile w fileName m = Err OpenFailed.
Proof. intros H. unfold oneFile. rewrite H. reflexivity. Qed.

Lemma chain_payload_unchanged (P : Z -> Prop) (m m' : image) (c hi : Z)
    (bs : list Z) :
  only_changes P m m' ->
  (forall b, In b bs -> c <= b < hi) ->
  (forall y, 512 * c <= y < 512 * hi -> ~ P y) ->
  chain_payload m' bs = chain_payload m bs.
Proof.
  intros Hc Hin HP. destruct bs as [|h t]; [reflexivity|]. cbn [chain_payload].
  f_equal.
  - apply (get_bytes_unchanged _ _ _ _ _ Hc). intros y Hy. apply HP.
    specialize (Hin h (or_introl eq_refl)). lia.
  - assert (Ht : forall b, In b t -> c <= b < hi) by (intros b Hb; apply Hin; right; exact Hb).
    clear Hin. induction t as [|b t IH]; [reflexivity|]. cbn [flat_map]. f_equal.
    + apply (get_bytes_unchanged _ _ _ _ _ Hc). intros y Hy. apply HP.
      specialize (Ht b (or_introl eq_refl)). lia.
    + apply IH. intros b' Hb'. apply Ht. right. exact Hb'.
Qed.

Lemma file_ok_frame (P : Z -> Prop) (m m' : image) (c hi : Z) (fd : stream)
    (x : Z) :
  file_ok m c hi fd x ->
  only_changes P m m' ->
  (forall y, fat_at c <= y < fat_at hi -> ~ P y) ->
  (forall y, 512 * c <= y < 512 * hi -> ~ P y) ->
  file_ok m' c hi fd x.
Proof.
  intros (bs & Hch & Hn & Htag & Hlen & Hdata) Hc Hfat Hblk.
  assert (Hx : c <= x < hi) by (inversion Hch; assumption).
  exists bs. split; [|split; [exact Hn|split; [|split]]].
  - apply chain_frame with (m := m); [exact Hch|].
    intros j Hj. apply (get32_unchanged _ _ _ _ Hc). intros y Hy.
    apply Hfat. unfold fat_at in *. lia.
  - rewrite <- Htag. apply (get32_unchanged _ _ _ _ Hc). intros y Hy.
    apply Hblk. lia.
  - rewrite <- Hlen. apply (get32_unchanged _ _ _ _ Hc). intros y Hy.
    apply Hblk. lia.
  - rewrite (chain_payload_unchanged P m m' c hi); [exact Hdata|exact Hc| |exact Hblk].
    intros b Hb. apply (chain_In _ _ _ _ _ _ Hch Hb).
Qed.

Lemma file_ok_weaken (m : image) (c c' hi hi' : Z) (fd : stream) (x : Z) :
  file_ok m c hi fd x -> c' <= c -> hi <= hi' -> file_ok m c' hi' fd x.
Proof.
  intros (bs & Hch & H) Hc Hhi. exists bs. split; [|exact H].
  apply chain_weaken with (lo := c) (hi := hi); assumption.
Qed.

Lemma entry_ok_frame (P : Z -> Prop) (m m' : image) (r k : Z)
    (fileName : string) (x : Z) :
  entry_ok m r k fileName x ->
  only_changes P m m' ->
  (forall y, 512 * r + 8 + 16 * k <= y < 512 * r + 8 + 16 * k + 16 -> ~ P y) ->
  entry_ok m' r k fileName x.
Proof.
  intros [Hn Hs] Hc HP. split.
  - rewrite <- Hn. apply (get_bytes_unchanged _ _ _ _ _ Hc).
    intros y Hy. apply HP. lia.
  - rewrite <- Hs. apply (get32_unchanged _ _ _ _ Hc).
    intros y Hy. apply HP. lia.
Qed.

Lemma length_strncpy_bytes (n : nat) (src : string) :
  length (strncpy_bytes n src) = n.
Proof.
  revert src. induction n as [|n IH]; intros src; [reflexivity|].
  cbn [strncpy_bytes]. destruct src as [|c r].
  - apply repeat_length.
  - destruct (Ascii.eqb c zero); [apply repeat_length|].
    cbn [length]. rewrite IH. reflexivity.
Qed.

Lemma store_bytes_err (m : image) (off : Z) (bs : list Z) (e : error) :
  store_bytes off bs m = Err e ->
  e = Fault /\ (0 <= off -> mapLength m < off + Z.of_nat (length bs)).
Proof.
  unfold store_bytes. destruct (in_map m off (Z.of_nat (length bs))) eqn:E;
    [discriminate|].
  intros H. split; [congruence|]. intros Hoff.
  destruct (Z_lt_ge_dec (mapLength m) (off + Z.of_nat (length bs))) as [|Hge];
    [assumption|].
  assert (in_map m off (Z.of_nat (length bs)) = true) by (apply in_map_true; lia).
  congruence.
Qed.

Lemma store32_err (m : image) (off v : Z) (e : error) :
  store32 off v m = Err e -> e = Fault /\ (0 <= off -> mapLength m < off + 4).
Proof.
  unfold store32. destruct (in_map m off 4) eqn:E; [discriminate|].
  intros H. split; [congruence|]. intros Hoff.
  destruct (Z_lt_ge_dec (mapLength m) (off + 4)) as [|Hge]; [assumption|].
  assert (in_map m off 4 = true) by (apply in_map_true; lia).
  congruence.
Qed.

Lemma blocks_needed_nonneg (w : world) (names : list string) :
  0 <= blocks_needed w names.
Proof.
  induction names as [|name rest IH]; cbn [blocks_needed]; [lia|].
  destruct (w name) as [fd|]; Z.to_euclidean_division_equations; lia.
Qed.

(** After a successful [oneFile] the head of the free list is lower. *)
Lemma chain_avail_lt (lo : Z) (m : image) (c a : Z) (l : list Z) :
  chain m lo c a l -> 0 < lo -> lo <= c -> a < c.
Proof.
  intros H Hlo Hc. destruct (chain_start _ _ _ _ _ H) as [[-> _]|[Ha _]]; lia.
Qed.

(** ** The layout of an image

    [N] is the number of blocks and [lo] the first block after the FAT
    ([lastAvail]); the FAT, [N] entries from offset 512, ends before block
    [lo], and [N * 512] fits an [int]. *)
Section Layout.

Variables N lo : Z.
Hypothesis N_pos : 0 < N.
Hypothesis lo_min : 2 <= lo.
Hypothesis fat_fits : 512 + 4 * N <= 512 * lo.
Hypothesis N_max : 512 * N <= INT_MAX.

Ltac bounds :=
  cbv beta in *;
  unfold pack_touch, file_touch, alloc_touch, fat_at, super_avail, super_root,
    INT_MAX in *;
  lia.

Lemma getBlock_spec (m : image) (hi : Z) (l : list Z) :
  hi <= N -> mapLength m = 512 * N -> chain m lo hi (avail m) l ->
  match l with
  | [] => getBlock m = Err DiskFull
  | b :: l' =>
      exists m', getBlock m = Ok (b, m')
        /\ mapLength m' = 512 * N
        /\ chain m' lo b (avail m') l'
        /\ fat m' b = 0
        /\ only_changes (alloc_touch b) m m'
  end.
Proof using N_pos lo_min fat_fits N_max.
  intros Hhi Hlen Hc. unfold getBlock.
  rewrite (bind_ok _ _ m m (avail m)) by (apply load32_ok; bounds).
  remember (avail m) as a eqn:Ea.
  destruct Hc as [hi|hi b l' Hb Hc'].
  - reflexivity.
  - destruct (Z.eqb_spec b 0) as [E|_]; [lia|].
    rewrite (bind_ok _ _ m m (fat m b)) by (apply load32_ok; bounds).
    set (m1 := put32 m super_avail (fat m b)).
    rewrite (bind_ok _ _ m m1 tt) by (apply store32_ok; bounds).
    set (m2 := put32 m1 (fat_at b) 0).
    rewrite (bind_ok _ _ m1 m2 tt) by (apply store32_ok; unfold m1; cbn [put32 mapLength]; bounds).
    exists m2. split; [reflexivity|].
    assert (Hch : only_changes (alloc_touch b) m m2).
    { eapply only_changes_trans; [apply put32_changes|apply put32_changes|].
      unfold alloc_touch. intros x. bounds. }
    assert (Hav : avail m2 = fat m b).
    { unfold avail, m2.
      rewrite (get32_unchanged _ m1 _ _ (put32_changes m1 (fat_at b) 0))
        by (intros x; bounds).
      unfold m1. rewrite get32_put32. apply u32_small.
      destruct (chain_start _ _ _ _ _ Hc') as [[E _]|[E _]]; bounds. }
    split; [cbn; exact Hlen|]. split; [|split].
    + rewrite Hav. apply chain_frame with (m := m); [exact Hc'|].
      intros j Hj. unfold fat. apply (get32_unchanged _ _ _ _ Hch).
      intros x Hx. unfold alloc_touch. bounds.
    + unfold fat, m2. rewrite get32_put32. reflexivity.
    + exact Hch.
Qed.

Lemma toPtr_small (idx offset : Z) :
  0 <= idx < N -> toPtr idx offset = 512 * idx + offset.
Proof using N_pos lo_min fat_fits N_max.
  intros H. unfold toPtr. rewrite u32_small by bounds. lia.
Qed.

(** One turn of the loop of [oneFile], from the [read] on. *)
Lemma pack_turn_spec (fuel' : nat) (fd : stream) (h cur left off total : Z)
    (m : image) (l : list Z) :
  (forall fd cur left off total m l,
      (length (pending fd) < fuel')%nat ->
      pack_pre N lo h cur left off total m l ->
      pack_post N lo fd h cur left off total m l
        (pack_loop fuel' fd (512 * h) cur left off total m)) ->
  (length (pending fd) < S fuel')%nat ->
  pack_pre N lo h cur left off total m l ->
  0 < left ->
  pack_post N lo fd h cur left off total m l
    ((let '(n, buf, fd') := read fd left in
      if n <? 0 then fail ReadFailed
      else if n =? 0 then store32 (512 * h + 4) total
      else
        store_bytes (toPtr cur off) buf ;;;
        pack_loop fuel' fd' (512 * h) cur
          (u32 (left - n)) (u32 (off + n)) (u32 (total + n))) m).
Proof using N_pos lo_min fat_fits N_max.
  intros IH Hfuel Hpre Hleft.
  pose proof Hpre as (Hlen & Hch & Hcur & HhN & Hoff & Hfat & Hl & Hsum & Ht & Hbound).
  destruct (read fd left) as [[n buf] fd'] eqn:R.
  destruct (read_spec _ _ _ _ _ Hleft R) as [[E Hfail] | (Hn & Hbuf & Hpend & Hnil & Hsched)].
  - subst n. right. split; [reflexivity|exact Hfail].
  - destruct (Z.ltb_spec n 0) as [|_]; [lia|].
    assert (Hplen : Z.of_nat (length (pending fd))
                    = n + Z.of_nat (length (pending fd'))).
    { rewrite Hpend, length_app. lia. }
    destruct (Z.eqb_spec n 0) as [En|Hn0].
    + (* end of input *)
      rewrite store32_ok by bounds. cbn [pack_post].
      rewrite (Hnil En) in *. cbn [length] in *.
      set (m' := put32 m (512 * h + 4) total).
      assert (Hch' : only_changes (fun x => 512 * h + 4 <= x < 512 * h + 4 + 4) m m')
        by apply put32_changes.
      exists [], l, cur. split; [reflexivity|]. split; [lia|].
      split; [exact Hlen|]. split; [|split; [|split; [|split; [|split]]]].
      * constructor; [lia|].
        replace (fat m' cur) with 0; [constructor|].
        rewrite <- Hfat. symmetry. apply (get32_unchanged _ _ _ _ Hch').
        intros x Hx. bounds.
      * replace (avail m') with (avail m).
        -- apply chain_frame with (m := m); [exact Hch|].
           intros j Hj. apply (get32_unchanged _ _ _ _ Hch'). intros x Hx. bounds.
        -- symmetry. apply (get32_unchanged _ _ _ _ Hch'). intros x Hx. bounds.
      * cbn [length]. symmetry. apply Z.div_small. lia.
      * unfold m'. rewrite get32_put32, u32_small by bounds. lia.
      * reflexivity.
      * eapply only_changes_weaken; [exact Hch'|].
        intros x Hx. bounds.
    + (* n bytes read *)
      rewrite toPtr_small by lia.
      set (m1 := put_bytes m (512 * cur + off) buf).
      rewrite (bind_ok _ _ m m1 tt) by (apply store_bytes_ok; bounds).
      assert (Hch1 : only_changes
                (fun x => 512 * cur + off <= x < 512 * cur + off + n) m m1).
      { rewrite <- Hbuf. apply put_bytes_changes. }
      rewrite (u32_small (left - n)), (u32_small (off + n)),
        (u32_small (total + n)) by bounds.
      assert (Hpre1 : pack_pre N lo h cur (left - n) (off + n) (total + n) m1 l).
      { unfold pack_pre. split; [exact Hlen|]. split.
        { replace (avail m1) with (avail m).
          - apply chain_frame with (m := m); [exact Hch|].
            intros j Hj. apply (get32_unchanged _ _ _ _ Hch1). intros x Hx. bounds.
          - symmetry. apply (get32_unchanged _ _ _ _ Hch1). intros x Hx. bounds. }
        split; [lia|]. split; [lia|]. split; [lia|]. split.
        { rewrite <- Hfat. apply (get32_unchanged _ _ _ _ Hch1). intros x Hx. bounds. }
        lia. }
      assert (Hf1 : (length (pending fd') < fuel')%nat) by lia.
      specialize (IH fd' cur (left - n) (off + n) (total + n) m1 l Hf1 Hpre1).
      destruct (pack_loop fuel' fd' (512 * h) cur (left - n) (off + n) (total + n) m1)
        as [[u m']|e]; cbn [pack_post] in *.
      2:{ destruct IH as [[-> IH]|[-> IH]]; [left|right]; (split; [reflexivity|]).
          - replace (Z.of_nat (length (pending fd)) - left)
              with (Z.of_nat (length (pending fd')) - (left - n)) by lia.
            exact IH.
          - apply Hsched. exact IH. }
      destruct IH as (bs & l' & c & El & Hc & Hlen' & Hfile & Hfree & Hcount
                      & Hsize & Hdata & Hch2).
      exists bs, l', c. split; [exact El|]. split; [exact Hc|].
      split; [exact Hlen'|]. split; [exact Hfile|]. split; [exact Hfree|].
      split; [|split; [|split]].
      * rewrite Hcount. f_equal. lia.
      * rewrite Hsize. lia.
      * replace (Z.to_nat left) with (length buf + Z.to_nat (left - n))%nat by lia.
        rewrite get_bytes_app, <- app_assoc.
        replace (get_bytes m' (512 * cur + off) (length buf)) with buf.
        -- rewrite Hpend, length_app, firstn_app_2. f_equal.
           replace (512 * cur + off + Z.of_nat (length buf))
             with (512 * cur + (off + n)) by lia.
           exact Hdata.
        -- rewrite (get_bytes_unchanged _ m1 m' _ _ Hch2).
           ++ unfold m1. symmetry. apply get_bytes_put_bytes.
           ++ intros x Hx. bounds.
      * eapply only_changes_trans; [exact Hch1|exact Hch2|].
        intros x Hx. bounds.
Qed.

(** The loop of [oneFile]: it never runs out of turns nor leaves the
    region, it takes blocks from the front of the free list, links them
    below the current block, and leaves the length of the file in the head
    block. *)
Lemma pack_loop_spec (h : Z) (fuel : nat) :
  forall (fd : stream) (cur left off total : Z) (m : image) (l : list Z),
    (length (pending fd) < fuel)%nat ->
    pack_pre N lo h cur left off total m l ->
    pack_post N lo fd h cur left off total m l
      (pack_loop fuel fd (512 * h) cur left off total m).
Proof using N_pos lo_min fat_fits N_max.
  induction fuel as [|fuel' IH]; intros fd cur left off total m l Hfuel Hpre.
  - lia.
  - cbn [pack_loop].
    pose proof Hpre as (Hlen & Hch & Hcur & HhN & Hoff & Hfat & Hl & Hsum & Ht & Hbound).
    destruct (Z.eqb_spec left 0) as [E0|Hne].
    + (* the block is full: take another one *)
      subst left.
      pose proof (getBlock_spec m cur l ltac:(lia) Hlen Hch) as G.
      destruct l as [|b l1].
      * rewrite (bind_err _ _ m DiskFull) by (apply bind_err; exact G).
        left. split; [reflexivity|]. cbn [length].
        Z.to_euclidean_division_equations; lia.
      * destruct G as (m1 & G & Hlen1 & Hch1 & Hfat1 & Hc1).
        assert (Hb : lo <= b < cur) by (inversion Hch; assumption).
        set (m2 := put32 m1 (fat_at cur) b).
        assert (Hc2 : only_changes (fun x => fat_at cur <= x < fat_at cur + 4) m1 m2)
          by apply put32_changes.
        rewrite (bind_ok _ _ m m2 (b, 0, 512)).
        2:{ rewrite (bind_ok _ _ m m1 b) by exact G.
            rewrite (bind_ok _ _ m1 m2 tt) by (apply store32_ok; bounds).
            reflexivity. }
        assert (Hpre2 : pack_pre N lo h b 512 0 total m2 l1).
        { unfold pack_pre. split; [exact Hlen1|]. split.
          { replace (avail m2) with (avail m1).
            - apply chain_frame with (m := m1); [exact Hch1|].
              intros j Hj. apply (get32_unchanged _ _ _ _ Hc2). intros x Hx. bounds.
            - symmetry. apply (get32_unchanged _ _ _ _ Hc2). intros x Hx. bounds. }
          split; [lia|]. split; [lia|]. split; [lia|]. split.
          { rewrite <- Hfat1. apply (get32_unchanged _ _ _ _ Hc2). intros x Hx. bounds. }
          lia. }
        pose proof (pack_turn_spec fuel' fd h b 512 0 total m2 l1 IH Hfuel Hpre2
                      ltac:(lia)) as T.
        cbv beta iota.
        match goal with
        | |- pack_post _ _ _ _ _ _ _ _ _ _ ?r =>
            match type of T with
            | pack_post _ _ _ _ _ _ _ _ _ _ ?r' => change r with r'
            end
        end.
        match type of T with
        | pack_post _ _ _ _ _ _ _ _ _ _ ?r' => destruct r' as [[u m']|e]
        end; cbn [pack_post] in *.
        2:{ destruct T as [[-> T]|[-> T]]; [left|right]; (split; [reflexivity|]);
              [|exact T].
            cbn [length]. rewrite Nat2Z.inj_succ.
            Z.to_euclidean_division_equations; lia. }
        destruct T as (bs & l' & c & El & Hc & Hlen' & Hfile & Hfree & Hcount
                       & Hsize & Hdata & Hch').
        exists (b :: bs), l', c. split; [cbn [app]; congruence|].
        split; [lia|]. split; [exact Hlen'|]. split; [|split; [exact Hfree|]].
        { constructor; [lia|].
          replace (fat m' cur) with b.
          - apply chain_weaken with (lo := c) (hi := b + 1); [exact Hfile|lia|lia].
          - unfold fat.
            rewrite (get32_unchanged _ m2 m' _ Hch') by (intros x Hx; bounds).
            unfold m2. rewrite get32_put32, u32_small by bounds. reflexivity. }
        split; [|split; [|split]].
        { cbn [length]. rewrite Nat2Z.inj_succ, Hcount.
          Z.to_euclidean_division_equations; lia. }
        { exact Hsize. }
        { change (Z.to_nat 0) with 0%nat. cbn [get_bytes seq map app].
          cbn [blocks_bytes flat_map].
          replace (512 * b + 0) with (512 * b) in Hdata by lia.
          exact Hdata. }
        { eapply only_changes_trans; [exact Hc1| |].
          - eapply only_changes_trans; [exact Hc2|exact Hch'|]. intros x Hx. exact Hx.
          - intros x Hx. bounds. }
    + (* room is left in the block *)
      rewrite (bind_ok _ _ m m (cur, off, left)) by reflexivity.
      apply (pack_turn_spec fuel' fd h cur left off total m l IH Hfuel Hpre).
      lia.
Qed.

Lemma oneFile_spec (w : world) (fileName : string) (fd : stream)
    (m : image) (hi : Z) (l : list Z) :
  w fileName = Some fd ->
  hi <= N -> mapLength m = 512 * N -> chain m lo hi (avail m) l ->
  file_post N lo fd hi m l (oneFile w fileName m).
Proof using N_pos lo_min fat_fits N_max.
  intros Hw Hhi Hlen Hch. unfold oneFile. rewrite Hw.
  pose proof (getBlock_spec m hi l Hhi Hlen Hch) as G.
  destruct l as [|h l1].
  - rewrite (bind_err _ _ m DiskFull) by exact G. left.
    split; [reflexivity|]. cbn [length]. Z.to_euclidean_division_equations; lia.
  - destruct G as (m1 & G & Hlen1 & Hch1 & Hfat1 & Hc1).
    assert (Hh : lo <= h < hi) by (inversion Hch; assumption).
    rewrite (bind_ok _ _ m m1 h) by exact G.
    rewrite toPtr_small by lia.
    replace (u32 (512 * h + 0)) with (512 * h) by (rewrite u32_small; bounds).
    set (m2 := put32 m1 (512 * h) 1).
    assert (Hc2 : only_changes (fun x => 512 * h <= x < 512 * h + 4) m1 m2)
      by apply put32_changes.
    rewrite (bind_ok _ _ m1 m2 tt) by (apply store32_ok; bounds).
    change (512 - 8) with 504.
    assert (Hpre : pack_pre N lo h h 504 8 0 m2 l1).
    { unfold pack_pre. split; [exact Hlen1|]. split.
      { replace (avail m2) with (avail m1).
        - apply chain_frame with (m := m1); [exact Hch1|].
          intros j Hj. apply (get32_unchanged _ _ _ _ Hc2). intros x Hx. bounds.
        - symmetry. apply (get32_unchanged _ _ _ _ Hc2). intros x Hx. bounds. }
      split; [lia|]. split; [lia|]. split; [lia|]. split.
      { rewrite <- Hfat1. apply (get32_unchanged _ _ _ _ Hc2). intros x Hx. bounds. }
      lia. }
    pose proof (pack_loop_spec h (S (length (pending fd))) fd h 504 8 0 m2 l1
                  ltac:(lia) Hpre) as P.
    unfold bind at 1.
    destruct (pack_loop (S (length (pending fd))) fd (512 * h) h 504 8 0 m2)
      as [[u m']|e]; cbn [pack_post file_post] in *.
    2:{ destruct P as [[-> P]|[-> P]]; [left|right]; (split; [reflexivity|]);
          [|exact P].
        cbn [length]. rewrite Nat2Z.inj_succ.
        replace (Z.of_nat (length (pending fd)) - 504 + 512)
          with (Z.of_nat (length (pending fd)) + 8) in P by lia.
        lia. }
    destruct P as (bs & l' & c & El & Hc & Hlen' & Hfile & Hfree & Hcount
                   & Hsize & Hdata & Hch').
    exists bs, l', c. split; [cbn [app]; congruence|].
    split; [lia|]. split; [lia|]. split; [exact Hlen'|].
    split; [exact Hfile|]. split; [exact Hfree|].
    split; [|split; [|split; [|split]]].
    + cbn [length]. rewrite Nat2Z.inj_succ, Hcount.
      replace (Z.of_nat (length (pending fd)) - 504 + 512)
        with (Z.of_nat (length (pending fd)) + 8) by lia.
      lia.
    + unfold file_tag.
      rewrite (get32_unchanged _ m2 m' _ Hch') by (intros x Hx; bounds).
      unfold m2. rewrite get32_put32. reflexivity.
    + unfold file_length. rewrite Hsize. lia.
    + exact Hdata.
    + eapply only_changes_trans; [exact Hc1| |].
      * eapply only_changes_trans; [exact Hc2|exact Hch'|]. intros x Hx. exact Hx.
      * intros x Hx. bounds.
Qed.

(** Allocating until the disk is full hands out the free list, in order. *)
Lemma drain_chain (l : list Z) :
  forall (m : image) (hi : Z) (fuel : nat),
    hi <= N -> mapLength m = 512 * N -> chain m lo hi (avail m) l ->
    (length l < fuel)%nat ->
    drain fuel m = (l, Some DiskFull).
Proof using N_pos lo_min fat_fits N_max.
  induction l as [|b l IH]; intros m hi fuel Hhi Hlen Hch Hfuel;
    (destruct fuel as [|fuel]; [cbn in Hfuel; lia|]);
    pose proof (getBlock_spec m hi _ Hhi Hlen Hch) as G; cbn [drain].
  - rewrite G. reflexivity.
  - destruct G as (m' & G & Hlen' & Hch' & _ & _). rewrite G.
    assert (Hb : lo <= b < hi) by (inversion Hch; assumption).
    rewrite (IH m' b fuel); [reflexivity|lia|exact Hlen'|exact Hch'|].
    cbn [length] in Hfuel. lia.
Qed.

(** The loop of [main] over the files. *)
Lemma main_files_spec (r : Z) (w : world) (names : list string) :
  r < N ->
  forall (i : Z) (m : image) (hi : Z) (l : list Z),
    0 <= i -> lo <= hi <= r ->
    mapLength m = 512 * N -> chain m lo hi (avail m) l ->
    files_post N lo r w i hi names m l (main_files w (512 * r + 8) i names m).
Proof using N_pos lo_min fat_fits N_max.
  intros Hr. induction names as [|name rest IH]; intros i m hi l Hi Hhi Hlen Hch.
  - cbn [main_files files_post ret]. split; [exact Hlen|]. split; [reflexivity|].
    split; [congruence|]. split; [apply only_changes_refl|]. split; [lia|].
    exists hi, l. split; [lia|]. split; [exact Hch|].
    intros [|k] name Hk; discriminate.
  - cbn [main_files].
    destruct (w name) as [fd|] eqn:Hw.
    2:{ rewrite (bind_err _ _ m OpenFailed) by (apply oneFile_closed; exact Hw).
        left. split; [reflexivity|]. exists name. split; [left; reflexivity|exact Hw]. }
    pose proof (blocks_needed_nonneg w rest) as Hrest.
    pose proof (oneFile_spec w name fd m hi l Hw ltac:(lia) Hlen Hch) as F.
    unfold bind at 1.
    destruct (oneFile w name m) as [[x m1]|e]; cbn [file_post] in F.
    2:{ cbn [files_post]. unfold files_error.
        destruct F as [[-> F]|[-> F]].
        - right. left. split; [reflexivity|]. cbn [blocks_needed]. rewrite Hw. lia.
        - right. right. left. split; [reflexivity|].
          exists name, fd. split; [left; reflexivity|]. split; [exact Hw|exact F]. }
    destruct F as (bs & l' & c & El & Hc & Hxhi & Hlen1 & Hfile & Hfree & Hcount
                   & Htag & Hflen & Hdata & Hch1).
    assert (Hx : avail m = x).
    { subst l. inversion Hch. reflexivity. }
    assert (Hfok : file_ok m1 c hi fd x).
    { apply file_ok_weaken with (c := c) (hi := x + 1); [|lia|lia].
      exists bs. repeat split; assumption. }
    unfold strncpy.
    set (dest := 512 * r + 8 + i * 16).
    set (nm := strncpy_bytes 12 (basename name)).
    assert (Lnm : length nm = 12%nat) by apply length_strncpy_bytes.
    unfold bind at 1. unfold bind at 1.
    destruct (store_bytes dest nm m1) as [[u2 m2]|e] eqn:S1.
    2:{ apply store_bytes_err in S1. destruct S1 as [-> S1].
        cbn [files_post]. right. right. right. split; [reflexivity|].
        rewrite Lnm, Hlen1 in S1. cbn [length]. unfold dest in S1. lia. }
    apply store_bytes_inv in S1. destruct S1 as (E2 & Hd0 & Hd1).
    rewrite Lnm in Hd1. cbn [ret]. unfold bind at 1.
    destruct (store32 (dest + 12) x m2) as [[u3 m3]|e] eqn:S2.
    2:{ apply store32_err in S2. destruct S2 as [-> S2].
        assert (mapLength m2 = 512 * N) by (subst m2; exact Hlen1).
        cbn [files_post]. right. right. right. split; [reflexivity|].
        cbn [length]. unfold dest in *. lia. }
    apply store32_inv in S2. destruct S2 as (E3 & Hd2 & Hd3).
    assert (L2 : mapLength m2 = 512 * N) by (subst m2; exact Hlen1).
    assert (L3 : mapLength m3 = 512 * N) by (subst m3; exact L2).
    rewrite L2 in Hd3.
    assert (C2 : only_changes (fun y => dest <= y < dest + 12) m1 m2).
    { subst m2. replace 12 with (Z.of_nat (length nm)) by lia.
      apply put_bytes_changes. }
    assert (C3 : only_changes (fun y => dest + 12 <= y < dest + 12 + 4) m2 m3)
      by (subst m3; apply put32_changes).
    assert (C13 : only_changes (fun y => dest <= y < dest + 16) m1 m3).
    { eapply only_changes_trans; [exact C2|exact C3|]. cbv beta. intros y. lia. }
    assert (Hent : entry_ok m3 r i name x).
    { split.
      - unfold entry_name. replace (512 * r + 8 + 16 * i) with dest by (unfold dest; lia).
        rewrite (get_bytes_unchanged _ m2 m3 _ _ C3) by (cbv beta; intros y Hy; lia).
        subst m2. rewrite <- Lnm at 1. apply get_bytes_put_bytes.
      - unfold entry_start.
        replace (512 * r + 8 + 16 * i + 12) with (dest + 12) by (unfold dest; lia).
        subst m3. rewrite get32_put32. apply u32_small. bounds. }
    assert (Hfree3 : chain m3 lo c (avail m3) l').
    { replace (avail m3) with (avail m1).
      - apply chain_frame with (m := m1); [exact Hfree|].
        intros j Hj. apply (get32_unchanged _ _ _ _ C13). intros y Hy. bounds.
      - symmetry. apply (get32_unchanged _ _ _ _ C13). intros y Hy. bounds. }
    assert (Hav3 : avail m3 < avail m).
    { pose proof (chain_avail_lt _ _ _ _ _ Hfree3 ltac:(lia) ltac:(lia)). lia. }
    assert (Hfok3 : file_ok m3 c hi fd x).
    { apply (file_ok_frame _ m1 m3 c hi fd x Hfok C13); intros y Hy; bounds. }
    specialize (IH (i + 1) m3 c l' ltac:(lia) ltac:(lia) L3 Hfree3).
    unfold bind at 1.
    destruct (main_files w (512 * r + 8) (i + 1) rest m3) as [[xs m']|e];
      cbn [files_post ret] in *.
    2:{ unfold files_error in *. cbn [length blocks_needed]. rewrite Hw.
        assert (Hll : Z.of_nat (length l)
                      = 1 + (Z.of_nat (length (pending fd)) + 8) / 512
                        + Z.of_nat (length l')).
        { rewrite El. cbn [length]. rewrite length_app.
          cbn [length] in Hcount. lia. }
        destruct IH as [[-> (nm' & Hin & Hnone)]|[[-> IH]|[[-> (nm' & fd' & Hin & Hsome & Hrd)]
                        |[-> IH]]]].
        - left. split; [reflexivity|]. exists nm'. split; [right; exact Hin|exact Hnone].
        - right. left. split; [reflexivity|]. lia.
        - right. right. left. split; [reflexivity|].
          exists nm', fd'. split; [right; exact Hin|]. split; assumption.
        - right. right. right. split; [reflexivity|]. lia. }
    destruct IH as (Hlen' & Hxs & Hfit & Hch' & Hav' & c' & l'' & Hc' & Hfree' & Hall).
    split; [exact Hlen'|]. split; [cbn [length]; congruence|].
    split.
    { intros _. destruct rest as [|name2 rest2].
      - cbn [length]. unfold dest in *. lia.
      - assert (Hne : name2 :: rest2 <> []) by discriminate.
        specialize (Hfit Hne). cbn [length] in *. lia. }
    split.
    { eapply only_changes_trans; [exact Hch1| |].
      - eapply only_changes_trans; [exact C13|exact Hch'|]. intros y Hy. exact Hy.
      - intros y Hy. unfold files_touch, dest in *. bounds. }
    split; [lia|].
    exists c', l''. split; [lia|]. split; [exact Hfree'|].
    intros [|k] name' Hk; cbn [nth_error] in Hk.
    + inversion Hk; subst name'. exists fd, x.
      split; [exact Hw|]. split; [reflexivity|]. split.
      * replace (i + Z.of_nat 0) with i by lia.
        apply (entry_ok_frame _ m3 m' r i name x Hent Hch').
        intros y Hy. unfold files_touch. bounds.
      * apply file_ok_weaken with (c := c) (hi := hi); [|lia|lia].
        apply (file_ok_frame _ m3 m' c hi fd x Hfok3 Hch');
          intros y Hy; unfold files_touch; bounds.
    + destruct (Hall k name' Hk) as (fd' & x' & Hw' & Hx' & Hent' & Hfok').
      exists fd', x'. split; [exact Hw'|]. split; [exact Hx'|]. split.
      * replace (i + Z.of_nat (S k)) with (i + 1 + Z.of_nat k) by lia. exact Hent'.
      * apply file_ok_weaken with (c := c') (hi := c); [exact Hfok'|lia|lia].
Qed.

(** Lines 284-304 of [main]. *)
Lemma main_root_spec (w : world) (nFiles : Z) (names : list string)
    (m : image) (hi : Z) (l : list Z) :
  hi <= N -> mapLength m = 512 * N -> chain m lo hi (avail m) l ->
  root_post N lo w nFiles names m l (main_root w nFiles names m).
Proof using N_pos lo_min fat_fits N_max.
  intros Hhi Hlen Hch. unfold main_root.
  pose proof (getBlock_spec m hi l Hhi Hlen Hch) as G.
  destruct l as [|r l1].
  - rewrite (bind_err _ _ m DiskFull) by exact G. right. left.
    split; [reflexivity|]. pose proof (blocks_needed_nonneg w names). cbn [length]. lia.
  - destruct G as (m1 & G & Hlen1 & Hch1 & Hfat1 & Hc1).
    assert (Hr : lo <= r < hi) by (inversion Hch; assumption).
    assert (Hav : avail m = r) by (inversion Hch; reflexivity).
    rewrite (bind_ok _ _ m m1 r) by exact G.
    set (m2 := put32 m1 super_root r).
    assert (C2 : only_changes (fun y => super_root <= y < super_root + 4) m1 m2)
      by apply put32_changes.
    rewrite (bind_ok _ _ m1 m2 tt) by (apply store32_ok; bounds).
    assert (R2 : get32 m2 super_root = r).
    { unfold m2. rewrite get32_put32. apply u32_small. bounds. }
    rewrite (bind_ok _ _ m2 m2 r)
      by (pose proof (load32_ok m2 super_root) as L; rewrite R2 in L; apply L;
          unfold m2; cbn [put32 mapLength]; bounds).
    rewrite !toPtr_small by lia.
    set (m3 := put32 m2 (512 * r + 0) 2).
    assert (C3 : only_changes (fun y => 512 * r + 0 <= y < 512 * r + 0 + 4) m2 m3)
      by apply put32_changes.
    rewrite (bind_ok _ _ m2 m3 tt)
      by (apply store32_ok; unfold m2; cbn [put32 mapLength]; bounds).
    set (m4 := put32 m3 (512 * r + 0 + 4) (u32 (nFiles * 16))).
    assert (C4 : only_changes
                   (fun y => 512 * r + 0 + 4 <= y < 512 * r + 0 + 4 + 4) m3 m4)
      by apply put32_changes.
    rewrite (bind_ok _ _ m3 m4 tt)
      by (apply store32_ok; unfold m3, m2; cbn [put32 mapLength]; bounds).
    assert (L4 : mapLength m4 = 512 * N) by exact Hlen1.
    assert (C14 : only_changes (fun y => 12 <= y < 16 \/ 512 * r <= y < 512 * r + 8) m1 m4).
    { eapply only_changes_trans; [exact C2| |].
      - eapply only_changes_trans; [exact C3|exact C4|]. intros y Hy. exact Hy.
      - intros y Hy. bounds. }
    assert (R4 : get32 m4 super_root = r).
    { rewrite <- R2. eapply get32_unchanged.
      - eapply only_changes_trans; [exact C3|exact C4|]. intros y Hy. exact Hy.
      - intros y Hy. bounds. }
    rewrite (bind_ok _ _ m4 m4 r)
      by (pose proof (load32_ok m4 super_root) as L; rewrite R4 in L; apply L;
          rewrite ?L4; bounds).
    rewrite toPtr_small by lia.
    assert (Hfree4 : chain m4 lo r (avail m4) l1).
    { replace (avail m4) with (avail m1).
      - apply chain_frame with (m := m1); [exact Hch1|].
        intros j Hj. apply (get32_unchanged _ _ _ _ C14). intros y Hy. bounds.
      - symmetry. apply (get32_unchanged _ _ _ _ C14). intros y Hy. bounds. }
    pose proof (main_files_spec r w names ltac:(lia) 0 m4 r l1 ltac:(lia) ltac:(lia)
                  L4 Hfree4) as F.
    destruct (main_files w (512 * r + 8) 0 names m4) as [[xs m']|e];
      cbn [files_post root_post] in *.
    2:{ cbn [length hd]. rewrite Nat2Z.inj_succ.
        replace (Z.succ (Z.of_nat (length l1)) - 1) with (Z.of_nat (length l1)) by lia.
        exact F. }
    destruct F as (Hlen' & Hxs & Hfit & Hch' & Hav' & c & l' & Hc & Hfree' & Hall).
    exists r, l1. split; [reflexivity|]. split; [exact Hlen'|].
    split; [|split; [|split; [|split]]].
    + unfold root. rewrite (get32_unchanged _ m4 m' _ Hch'); [exact R4|].
      intros y Hy. unfold files_touch. bounds.
    + unfold file_tag. rewrite (get32_unchanged _ m4 m' _ Hch').
      * rewrite (get32_unchanged _ m3 m4 _ C4) by (intros y Hy; bounds).
        unfold m3. replace (512 * r) with (512 * r + 0) at 2 by lia.
        rewrite get32_put32. reflexivity.
      * intros y Hy. unfold files_touch. bounds.
    + unfold file_length. rewrite (get32_unchanged _ m4 m' _ Hch').
      * unfold m4. replace (512 * r + 4) with (512 * r + 0 + 4) by lia.
        rewrite get32_put32. unfold u32. apply Z.mod_mod. lia.
      * intros y Hy. unfold files_touch. bounds.
    + unfold nBlocks_of. rewrite (get32_unchanged _ m4 m' _ Hch').
      * rewrite (get32_unchanged _ m1 m4 _ C14).
        -- apply (get32_unchanged _ m m1 _ Hc1). intros y Hy. unfold super_nBlocks in *. bounds.
        -- intros y Hy. unfold super_nBlocks in *. bounds.
      * intros y Hy. unfold files_touch, super_nBlocks in *. bounds.
    + split; [exact Hxs|]. split.
      { intros Hne. specialize (Hfit Hne). lia. }
      split.
      { assert (avail m4 < r) by (apply (chain_avail_lt _ _ _ _ _ Hfree4); lia). lia. }
      exists c, l'. split; [lia|]. split; [exact Hfree'|].
      intros k name Hk. destruct (Hall k name Hk) as (fd & x & H1 & H2 & H3 & H4).
      exists fd, x. repeat split; try assumption.
      * destruct H3 as [H3 _]. rewrite Z.add_0_l in H3. exact H3.
      * destruct H3 as [_ H3]. rewrite Z.add_0_l in H3. exact H3.
Qed.

End Layout.

(** ** The free list that [main] builds *)

Lemma init_fat_spec (turns : nat) :
  forall (i : Z) (m : image),
    Z.of_nat turns <= i -> i < 4294967296 -> fat_at i + 4 <= mapLength m ->
    exists m',
      init_fat turns i m = Ok (tt, m')
      /\ only_changes
           (fun x => fat_at (i - Z.of_nat turns + 1) <= x < fat_at i + 4) m m'
      /\ forall j, i - Z.of_nat turns < j <= i -> fat m' j = j - 1.
Proof.
  induction turns as [|t IH]; intros i m Hi H32 Hlen.
  - exists m. split; [reflexivity|]. split; [apply only_changes_refl|].
    intros j Hj. lia.
  - cbn [init_fat]. rewrite Nat2Z.inj_succ in *.
    rewrite (u32_small (i - 1)) by lia.
    set (m1 := put32 m (fat_at i) (i - 1)).
    assert (Hc1 : only_changes (fun x => fat_at i <= x < fat_at i + 4) m m1)
      by apply put32_changes.
    rewrite (bind_ok _ _ m m1 tt) by (apply store32_ok; unfold fat_at in *; lia).
    destruct (IH (i - 1) m1) as (m' & R & Hc & Hf);
      [lia|lia|unfold m1, fat_at in *; cbn [put32 mapLength]; lia|].
    exists m'. split; [exact R|]. split.
    + eapply only_changes_trans; [exact Hc1|exact Hc|].
      cbv beta. unfold fat_at. intros x Hx. lia.
    + intros j Hj. destruct (Z.eq_dec j i) as [->|Hne].
      * unfold fat. rewrite (get32_unchanged _ m1 m' _ Hc)
          by (cbv beta; unfold fat_at; intros x Hx; lia).
        unfold m1. rewrite get32_put32. apply u32_small. lia.
      * apply Hf. lia.
Qed.

Lemma chain_down_from (m : image) (lo : Z) (n : nat) :
  forall hi top,
    0 < lo -> fat m lo = 0 ->
    (forall j, lo < j <= hi -> fat m j = j - 1) ->
    hi = lo + Z.of_nat n -> hi < top ->
    chain m lo top hi (down_from hi (S n)).
Proof.
  induction n as [|n IH]; intros hi top Hlo H0 Hf Hhi Htop; cbn [down_from].
  - replace hi with lo in * by lia. constructor; [lia|].
    rewrite H0. constructor.
  - constructor; [lia|]. rewrite Hf by lia.
    apply IH; try assumption; try lia. intros j Hj. apply Hf. lia.
Qed.

Lemma length_down_from (hi : Z) (n : nat) : length (down_from hi n) = n.
Proof.
  revert hi. induction n as [|n IH]; intros hi; cbn; [reflexivity|].
  rewrite IH. reflexivity.
Qed.

Lemma In_down_from (hi : Z) (n : nat) (j : Z) :
  In j (down_from hi n) <-> hi - Z.of_nat n < j <= hi.
Proof.
  revert hi. induction n as [|n IH]; intros hi; cbn [down_from In].
  - cbn. lia.
  - rewrite IH. lia.
Qed.

(** [fatBlocks] is the number of blocks the FAT needs, and the blocks
    from [lastAvail] on lie after the FAT. *)
Lemma lastAvail_layout (N : Z) :
  0 < N -> 512 * N <= INT_MAX ->
  fatBlocks_of N = (N * 4 + 511) / 512
  /\ lastAvail_of N = 1 + fatBlocks_of N
  /\ 512 * (fatBlocks_of N - 1) < N * 4 <= 512 * fatBlocks_of N
  /\ 2 <= lastAvail_of N
  /\ 512 + 4 * N <= 512 * lastAvail_of N
  /\ (3 <= N -> lastAvail_of N <= N - 1).
Proof.
  intros HN Hmax. unfold INT_MAX in Hmax.
  assert (E : fatBlocks_of N = (N * 4 + 511) / 512).
  { unfold fatBlocks_of.
    rewrite (u32_small N) by lia.
    rewrite (u32_small (N * 4)) by lia.
    rewrite (u32_small (N * 4 + 511)) by lia.
    apply u32_small. Z.to_euclidean_division_equations; lia. }
  assert (E' : lastAvail_of N = 1 + fatBlocks_of N).
  { unfold lastAvail_of. apply u32_small. rewrite E.
    Z.to_euclidean_division_equations; lia. }
  rewrite E', E. repeat split; try (Z.to_euclidean_division_equations; lia).
Qed.

Lemma main_format_spec (N : Z) :
  0 < N -> 512 * N <= INT_MAX ->
  exists m,
    main_format N (fresh (N * 512)) = Ok (tt, m)
    /\ mapLength m = 512 * N
    /\ avail m = N - 1
    /\ nBlocks_of m = N
    /\ (forall j, lastAvail_of N < j <= N - 1 -> fat m j = j - 1)
    /\ (forall j, 0 <= j <= lastAvail_of N -> fat m j = 0).
Proof.
  intros HN Hmax.
  destruct (lastAvail_layout N HN Hmax) as (_ & _ & _ & Hlo & Hfit & _).
  unfold INT_MAX in Hmax. unfold main_format.
  replace (N * 512) with (512 * N) by lia.
  fold (lastAvail_of N). set (lo := lastAvail_of N) in *.
  set (m0 := fresh (512 * N)).
  set (m1 := put8 m0 (super_magic + 0) 70).
  set (m2 := put8 m1 (super_magic + 1) 52).
  set (m3 := put8 m2 (super_magic + 2) 51).
  set (m4 := put8 m3 (super_magic + 3) 57).
  set (m5 := put32 m4 super_nBlocks (u32 N)).
  set (m6 := put32 m5 super_avail (u32 (N - 1))).
  assert (L6 : mapLength m6 = 512 * N) by reflexivity.
  rewrite (bind_ok _ _ m0 m1 tt)
    by (apply store8_ok; unfold super_magic, super_nBlocks, super_avail;
        [lia|change (mapLength m0) with (512 * N); lia]).
  rewrite (bind_ok _ _ m1 m2 tt)
    by (apply store8_ok; unfold super_magic, super_nBlocks, super_avail;
        [lia|change (mapLength m1) with (512 * N); lia]).
  rewrite (bind_ok _ _ m2 m3 tt)
    by (apply store8_ok; unfold super_magic, super_nBlocks, super_avail;
        [lia|change (mapLength m2) with (512 * N); lia]).
  rewrite (bind_ok _ _ m3 m4 tt)
    by (apply store8_ok; unfold super_magic, super_nBlocks, super_avail;
        [lia|change (mapLength m3) with (512 * N); lia]).
  rewrite (bind_ok _ _ m4 m5 tt)
    by (apply store32_ok; unfold super_magic, super_nBlocks, super_avail;
        [lia|change (mapLength m4) with (512 * N); lia]).
  rewrite (bind_ok _ _ m5 m6 tt)
    by (apply store32_ok; unfold super_magic, super_nBlocks, super_avail;
        [lia|change (mapLength m5) with (512 * N); lia]).
  rewrite (bind_ok _ _ m6 m6 (get32 m6 super_avail))
    by (apply load32_ok; unfold super_avail; [lia|rewrite L6; lia]).
  assert (A6 : get32 m6 super_avail = N - 1).
  { unfold m6. rewrite get32_put32. rewrite !u32_small; try lia.
    rewrite u32_small; lia. }
  assert (B6 : get32 m6 super_nBlocks = N).
  { unfold m6.
    rewrite (get32_unchanged _ m5 _ _ (put32_changes m5 super_avail (u32 (N - 1))))
      by (unfold super_nBlocks, super_avail; cbv beta; intros x Hx; lia).
    unfold m5. rewrite get32_put32. rewrite !u32_small; try lia.
    rewrite u32_small; lia. }
  assert (C6 : only_changes (fun x => 0 <= x < 12) m0 m6).
  { eapply only_changes_trans; [|apply put32_changes|].
    - eapply only_changes_trans; [|apply put32_changes|].
      + eapply only_changes_trans; [|apply put8_changes|].
        * eapply only_changes_trans; [|apply put8_changes|].
          -- eapply only_changes_trans; [apply put8_changes|apply put8_changes|].
             intros x Hx. exact Hx.
          -- intros x Hx. exact Hx.
        * intros x Hx. exact Hx.
      + intros x Hx. exact Hx.
    - unfold super_magic, super_nBlocks, super_avail. cbv beta. intros x. lia. }
  assert (F6 : forall j, 0 <= j -> fat m6 j = 0).
  { intros j Hj. unfold fat.
    rewrite (get32_unchanged _ m0 m6 _ C6)
      by (unfold fat_at; cbv beta; intros x Hx; lia).
    reflexivity. }
  rewrite A6.
  destruct (Z_le_gt_dec (N - 1) lo) as [Hle|Hgt].
  - replace (Z.to_nat (N - 1 - lo)) with 0%nat by lia. cbn [init_fat].
    exists m6. split; [reflexivity|]. split; [exact L6|].
    split; [exact A6|]. split; [exact B6|]. split.
    + intros j Hj. lia.
    + intros j Hj. apply F6. lia.
  - destruct (init_fat_spec (Z.to_nat (N - 1 - lo)) (N - 1) m6) as (m' & R & Hc & Hf);
      [lia|lia|rewrite L6; unfold fat_at; lia|].
    rewrite Z2Nat.id in * by lia.
    exists m'. split; [exact R|]. split; [destruct Hc as [Hc _]; congruence|].
    split; [|split; [|split]].
    + unfold avail. rewrite (get32_unchanged _ m6 m' _ Hc); [exact A6|].
      unfold fat_at, super_avail. cbv beta. intros x Hx. lia.
    + unfold nBlocks_of. rewrite (get32_unchanged _ m6 m' _ Hc); [exact B6|].
      unfold fat_at, super_nBlocks. cbv beta. intros x Hx. lia.
    + intros j Hj. apply Hf. lia.
    + intros j Hj. unfold fat. rewrite (get32_unchanged _ m6 m' _ Hc).
      * apply F6. lia.
      * unfold fat_at. cbv beta. intros x Hx. lia.
Qed.

Lemma formatted_spec (N : Z) :
  0 < N -> 512 * N <= INT_MAX ->
  main_format N (fresh (N * 512)) = Ok (tt, formatted N)
  /\ mapLength (formatted N) = 512 * N
  /\ avail (formatted N) = N - 1
  /\ nBlocks_of (formatted N) = N
  /\ (forall j, lastAvail_of N < j <= N - 1 -> fat (formatted N) j = j - 1)
  /\ (forall j, 0 <= j <= lastAvail_of N -> fat (formatted N) j = 0).
Proof.
  intros HN Hmax.
  destruct (main_format_spec N HN Hmax) as (m & R & H).
  unfold formatted. rewrite R. split; [reflexivity|exact H].
Qed.

(** From 3 blocks on, the free list of a new image is
    [N - 1, N - 2, ..., lastAvail]. *)
Lemma formatted_chain (N : Z) :
  3 <= N -> 512 * N <= INT_MAX ->
  chain (formatted N) (lastAvail_of N) N (avail (formatted N))
    (down_from (N - 1) (Z.to_nat (N - lastAvail_of N))).
Proof.
  intros HN Hmax.
  destruct (lastAvail_layout N ltac:(lia) Hmax) as (_ & _ & _ & Hlo & Hfit & Hle).
  destruct (formatted_spec N ltac:(lia) Hmax) as (_ & Hlen & Hav & _ & Hf & H0).
  specialize (Hle HN). rewrite Hav.
  replace (Z.to_nat (N - lastAvail_of N))
    with (S (Z.to_nat (N - 1 - lastAvail_of N))) by lia.
  apply chain_down_from; try lia.
  - apply H0. lia.
  - intros j Hj. apply Hf. lia.
Qed.

Lemma getBlock_full_iff (m : image) :
  12 <= mapLength m -> (getBlock m = Err DiskFull <-> avail m = 0).
Proof.
  intros Hlen. unfold getBlock.
  rewrite (bind_ok _ _ m m (avail m)) by (apply load32_ok; unfold super_avail; lia).
  destruct (Z.eqb_spec (avail m) 0) as [E|E].
  - split; intros _; [exact E|reflexivity].
  - split; [|contradiction]. intros H. exfalso.
    unfold bind, load32, store32, ret in H.
    destruct (in_map m (fat_at (avail m)) 4); [|discriminate].
    destruct (in_map m super_avail 4); [|discriminate].
    cbn [put32 mapLength] in H.
    destruct (in_map _ (fat_at (avail m)) 4); discriminate.
Qed.

(** An image of one or two blocks has no room for a file. *)
Lemma main_root_tiny (w : world) (nFiles : Z) (name : string)
    (rest : list string) (N : Z) :
  N = 1 \/ N = 2 ->
  exists e, main_root w nFiles (name :: rest) (formatted N) = Err e.
Proof.
  intros [->| ->]; unfold main_root; cbn [main_files]; unfold oneFile;
    destruct (w name) as [fd|]; vm_compute; eexists; reflexivity.
Qed.

(** ** The free list (claims C2, C3) *)

Lemma NoDup_down_from (hi : Z) (n : nat) : NoDup (down_from hi n).
Proof.
  revert hi. induction n as [|n IH]; intros hi; cbn [down_from]; constructor.
  - rewrite In_down_from. lia.
  - apply IH.
Qed.

(** C2.  After [main] has set up the super block and the FAT of an image
    of [N] blocks, [fatBlocks] is [ceil (N * 4 / 512)], [lastAvail] is
    [1 + fatBlocks], [avail] is [N - 1], and the [fat] look-ups from
    [avail] visit every block of [(lastAvail, N - 1]] exactly once, each
    block smaller than the one before, and end at 0.  (From 3 blocks on
    the blocks visited are [N - 1, ..., lastAvail + 1] and then [lastAvail]
    itself, whose entry is the 0 that ends the list.) *)
Theorem free_chain_after_format (N : Z) :
  0 < N -> 512 * N <= INT_MAX ->
  let m := formatted N in
  let l := chain_of m (avail m) in
  main_format N (fresh (N * 512)) = Ok (tt, m)
  /\ fatBlocks_of N = (N * 4 + 511) / 512
  /\ 512 * (fatBlocks_of N - 1) < N * 4 <= 512 * fatBlocks_of N
  /\ lastAvail_of N = 1 + fatBlocks_of N
  /\ avail m = N - 1
  /\ chain m 1 N (avail m) l
  /\ StronglySorted Z.gt l
  /\ (forall j, lastAvail_of N < j <= N - 1 -> count_occ Z.eq_dec l j = 1%nat)
  /\ (3 <= N -> l = down_from (N - 1) (Z.to_nat (N - lastAvail_of N))).
Proof.
  intros HN Hmax m l.
  destruct (lastAvail_layout N HN Hmax) as (Hfb & Hla & Hceil & Hlo & Hfit & Hle).
  destruct (formatted_spec N HN Hmax) as (R & Hlen & Hav & _ & Hf & H0).
  fold m in R, Hlen, Hav, Hf, H0.
  assert (Hfuel : Z.to_nat (mapLength m / 512) = Z.to_nat N).
  { rewrite Hlen, Z.mul_comm, Z.div_mul by lia. reflexivity. }
  assert (Hcases : N = 1 \/ N = 2 \/ 3 <= N) by lia.
  assert (Hl : chain m 1 N (avail m) l
               /\ (3 <= N -> l = down_from (N - 1) (Z.to_nat (N - lastAvail_of N)))).
  { destruct Hcases as [->|[->|H3]].
    - split; [|lia]. subst l m. vm_compute. constructor.
    - split; [|lia]. subst l m. vm_compute. constructor; [lia|]. apply chain_nil.
    - pose proof (formatted_chain N H3 Hmax) as Hc. fold m in Hc.
      assert (El : l = down_from (N - 1) (Z.to_nat (N - lastAvail_of N))).
      { subst l. unfold chain_of. rewrite Hfuel.
        apply (chain_from_eq _ _ _ _ _ _ Hc); [lia|].
        rewrite length_down_from. lia. }
      split; [|intros _; exact El]. rewrite El.
      apply chain_weaken with (lo := lastAvail_of N) (hi := N); [exact Hc|lia|lia]. }
  destruct Hl as [Hchain Hexact].
  split; [exact R|]. split; [exact Hfb|]. split; [exact Hceil|].
  split; [exact Hla|]. split; [exact Hav|]. split; [exact Hchain|].
  split; [apply (chain_sorted _ _ _ _ _ Hchain)|]. split; [|exact Hexact].
  intros j Hj. assert (H3 : 3 <= N) by lia.
  apply NoDup_count_occ'; [apply (chain_NoDup _ _ _ _ _ Hchain)|].
  rewrite (Hexact H3). apply In_down_from. specialize (Hle H3). lia.
Qed.

Lemma free_chain_after_format_8 :
  let m := formatted 8 in
  let l := chain_of m (avail m) in
  main_format 8 (fresh (8 * 512)) = Ok (tt, m)
  /\ fatBlocks_of 8 = (8 * 4 + 511) / 512
  /\ 512 * (fatBlocks_of 8 - 1) < 8 * 4 <= 512 * fatBlocks_of 8
  /\ lastAvail_of 8 = 1 + fatBlocks_of 8
  /\ avail m = 8 - 1
  /\ chain m 1 8 (avail m) l
  /\ StronglySorted Z.gt l
  /\ (forall j, lastAvail_of 8 < j <= 8 - 1 -> count_occ Z.eq_dec l j = 1%nat)
  /\ (3 <= 8 -> l = down_from (8 - 1) (Z.to_nat (8 - lastAvail_of 8))).
Proof.
  apply (free_chain_after_format 8); unfold INT_MAX; lia.
Defined.

(** The claim C3 as the specification states it: [N - 1 - lastAvail]
    allocations succeed on a new image of [N] blocks. *)
Lemma drain_8_is_not_5 :
  drain 8 (formatted 8) = ([7; 6; 5; 4; 3; 2], Some DiskFull)
  /\ Z.of_nat (length (fst (drain 8 (formatted 8)))) <> 8 - 1 - lastAvail_of 8.
Proof.
  split; [vm_compute; reflexivity|]. vm_compute. discriminate.
Qed.

(** With 2 blocks the one block handed out is block 1, which holds the
    FAT and lies below [lastAvail]. *)
Example two_blocks_hand_out_the_fat :
  lastAvail_of 2 = 2 /\ drain 3 (formatted 2) = ([1], Some DiskFull).
Proof.
  split; vm_compute; reflexivity.
Qed.

(** C3, amended.  On a new image of [N >= 3] blocks, [getBlock] called until
    it fails returns [N - 1, N - 2, ..., lastAvail], each block once and
    none below [lastAvail], and then fails with the disk full: [N -
    lastAvail] allocations succeed.  On any image whose super block is
    mapped, [getBlock] reports a full disk exactly when [avail] is 0. *)
Theorem allocate_until_full (N : Z) :
  3 <= N -> 512 * N <= INT_MAX ->
  let blocks := down_from (N - 1) (Z.to_nat (N - lastAvail_of N)) in
  (forall fuel, (Z.to_nat (N - lastAvail_of N) < fuel)%nat ->
                drain fuel (formatted N) = (blocks, Some DiskFull))
  /\ NoDup blocks
  /\ (forall b, In b blocks -> lastAvail_of N <= b <= N - 1)
  /\ Z.of_nat (length blocks) = N - lastAvail_of N
  /\ (forall m, 12 <= mapLength m -> (getBlock m = Err DiskFull <-> avail m = 0)).
Proof.
  intros HN Hmax blocks.
  destruct (lastAvail_layout N ltac:(lia) Hmax) as (_ & _ & _ & Hlo & Hfit & Hle).
  destruct (formatted_spec N ltac:(lia) Hmax) as (_ & Hlen & _).
  specialize (Hle HN).
  split; [|split; [|split; [|split]]].
  - intros fuel Hfuel.
    apply (drain_chain N (lastAvail_of N)) with (hi := N);
      try assumption; try lia.
    + apply formatted_chain; assumption.
    + unfold blocks. rewrite length_down_from. exact Hfuel.
  - apply NoDup_down_from.
  - intros b Hb. apply In_down_from in Hb. lia.
  - unfold blocks. rewrite length_down_from. lia.
  - apply getBlock_full_iff.
Qed.

Lemma allocate_until_full_8 :
  let blocks := down_from (8 - 1) (Z.to_nat (8 - lastAvail_of 8)) in
  (forall fuel, (Z.to_nat (8 - lastAvail_of 8) < fuel)%nat ->
                drain fuel (formatted 8) = (blocks, Some DiskFull))
  /\ NoDup blocks
  /\ (forall b, In b blocks -> lastAvail_of 8 <= b <= 8 - 1)
  /\ Z.of_nat (length blocks) = 8 - lastAvail_of 8
  /\ (forall m, 12 <= mapLength m -> (getBlock m = Err DiskFull <-> avail m = 0)).
Proof.
  apply (allocate_until_full 8); unfold INT_MAX; lia.
Defined.

(** ** Whole runs *)

Lemma main_spec (w : world) (argv : list string) (xs : list Z) (img : image) :
  main w argv = Ok (xs, img) -> main_post w argv xs img.
Proof.
  unfold main. intros H.
  destruct (Z.ltb_spec (Z.of_nat (length argv)) 4) as [|Hargc]; [discriminate|].
  destruct (atoi (nth 2 argv EmptyString)) as [N|] eqn:Hatoi; [|discriminate].
  destruct (Z.ltb_spec (N * 512) INT_MIN) as [|H1]; [discriminate|].
  destruct (Z.ltb_spec INT_MAX (N * 512)) as [|H2]; [discriminate|].
  cbn [orb] in H.
  destruct (Z.leb_spec (N * 512) 0) as [|H3]; [discriminate|].
  assert (HN : 0 < N) by lia.
  assert (Hmax : 512 * N <= INT_MAX) by lia.
  destruct (formatted_spec N HN Hmax) as (R & Hlen & Hav & _).
  rewrite (bind_ok _ _ _ _ _ R) in H.
  destruct (skipn 3 argv) as [|name rest] eqn:Hnames.
  { apply (f_equal (@length string)) in Hnames. rewrite length_skipn in Hnames.
    cbn [length] in Hnames. lia. }
  destruct (Z_lt_ge_dec N 3) as [Hsmall|Hbig].
  { destruct (main_root_tiny w (Z.of_nat (length argv) - 3) name rest N ltac:(lia))
      as [e He].
    rewrite He in H. discriminate. }
  destruct (lastAvail_layout N HN Hmax) as (_ & _ & _ & Hlo & Hfit & _).
  exists N. split; [exact Hatoi|]. split; [lia|]. split; [exact Hmax|].
  split; [lia|]. rewrite Hnames, <- H.
  apply (main_root_spec N (lastAvail_of N) HN Hlo Hfit Hmax w _ _ _ N);
    [lia|exact Hlen|].
  apply formatted_chain; lia.
Qed.

(** A run on a new image of at least 3 blocks returns 0 when every file
    opens and is read without failure, the root block and the files fit the
    free list, and the entries fit the root block. *)
Lemma main_succeeds (w : world) (argv : list string) (N : Z) :
  (4 <= length argv)%nat ->
  atoi (nth 2 argv EmptyString) = Some N ->
  3 <= N -> 512 * N <= INT_MAX ->
  Forall (readable w) (skipn 3 argv) ->
  1 + blocks_needed w (skipn 3 argv) <= N - lastAvail_of N ->
  (length (skipn 3 argv) <= 31)%nat ->
  exists xs img, main w argv = Ok (xs, img).
Proof.
  intros Hargc Hatoi HN Hmax Hread Hfree Hn31. unfold main.
  destruct (Z.ltb_spec (Z.of_nat (length argv)) 4) as [|_]; [lia|].
  rewrite Hatoi.
  destruct (Z.ltb_spec (N * 512) INT_MIN) as [|_]; [unfold INT_MIN in *; lia|].
  destruct (Z.ltb_spec INT_MAX (N * 512)) as [|_]; [lia|]. cbn [orb].
  destruct (Z.leb_spec (N * 512) 0) as [|_]; [lia|].
  destruct (formatted_spec N ltac:(lia) Hmax) as (R & Hlen & _).
  rewrite (bind_ok _ _ _ _ _ R).
  destruct (lastAvail_layout N ltac:(lia) Hmax) as (_ & _ & _ & Hlo & Hfit & Hle).
  specialize (Hle HN).
  pose proof (main_root_spec N (lastAvail_of N) ltac:(lia) Hlo Hfit Hmax w
                (Z.of_nat (length argv) - 3) (skipn 3 argv) (formatted N) N _
                ltac:(lia) Hlen (formatted_chain N HN Hmax)) as P.
  destruct (main_root w (Z.of_nat (length argv) - 3) (skipn 3 argv) (formatted N))
    as [[xs img]|e]; [exists xs, img; reflexivity|].
  exfalso. cbn [root_post] in P. unfold files_error in P.
  rewrite length_down_from in P.
  replace (Z.to_nat (N - lastAvail_of N))
    with (S (Z.to_nat (N - 1 - lastAvail_of N))) in P by lia.
  cbn [down_from hd] in P. rewrite Forall_forall in Hread.
  destruct P as [[_ (name & Hin & Hnone)]|[[_ P]|[[_ (name & fd & Hin & Hsome & Hrd)]
                 |[_ P]]]].
  - destruct (Hread name Hin) as (fd & Hfd & _). congruence.
  - lia.
  - destruct (Hread name Hin) as (fd' & Hfd & Hok). congruence.
  - lia.
Qed.

Lemma strncpy_bytes_eq (n : nat) (src : string) :
  strncpy_bytes n src
  = firstn n (c_bytes src) ++ repeat 0 (n - length (c_bytes src)).
Proof.
  revert src. induction n as [|n IH]; intros src; [reflexivity|].
  cbn [strncpy_bytes]. destruct src as [|c r]; cbn [c_bytes].
  - reflexivity.
  - destruct (Ascii.eqb c zero); [reflexivity|].
    cbn [firstn length app Nat.sub]. rewrite IH. reflexivity.
Qed.

(** What a successful run leaves, file by file. *)
Lemma run_facts (w : world) (argv : list string) (xs : list Z) (img : image) :
  main w argv = Ok (xs, img) ->
  exists (N c : Z),
    atoi (nth 2 argv EmptyString) = Some N
    /\ 3 <= N /\ 512 * N <= INT_MAX
    /\ mapLength img = 512 * N
    /\ nBlocks_of img = N
    /\ root img = N - 1
    /\ file_tag img (N - 1) = 2
    /\ file_length img (N - 1) = 16 * Z.of_nat (length (skipn 3 argv))
    /\ 16 * Z.of_nat (length (skipn 3 argv)) <= 504
    /\ length xs = length (skipn 3 argv)
    /\ skipn 3 argv <> []
    /\ avail img < N - 1
    /\ lastAvail_of N <= c <= N - 1
    /\ (exists l', chain img (lastAvail_of N) c (avail img) l')
    /\ forall (k : nat) (name : string),
         nth_error (skipn 3 argv) k = Some name ->
         exists (fd : stream) (x : Z),
           w name = Some fd
           /\ nth_error xs k = Some x
           /\ entry_ok img (N - 1) (Z.of_nat k) name x
           /\ file_ok img c (N - 1) fd x.
Proof.
  intros H.
  destruct (main_spec w argv xs img H) as (N & Hatoi & HN & Hmax & Hargc & P).
  cbn [root_post] in P.
  destruct P as (r & l1 & El & Hlen & Hroot & Htag & Hflen & Hnb & Hxs & Hfit
                 & Hav & c & l' & Hc & Hfree & Hall).
  destruct (lastAvail_layout N ltac:(lia) Hmax) as (_ & _ & _ & Hlo & _ & Hle).
  specialize (Hle HN).
  destruct (formatted_spec N ltac:(lia) Hmax) as (_ & _ & Hav0 & Hnb0 & _).
  assert (Er : r = N - 1).
  { replace (Z.to_nat (N - lastAvail_of N))
      with (S (Z.to_nat (N - 1 - lastAvail_of N))) in El by lia.
    cbn [down_from] in El. congruence. }
  rewrite Er in *. clear El.
  assert (Hne : skipn 3 argv <> []).
  { intros E. apply (f_equal (@length string)) in E.
    rewrite length_skipn in E. cbn [length] in E. lia. }
  specialize (Hfit Hne).
  assert (Hn16 : (Z.of_nat (length argv) - 3) * 16
                 = 16 * Z.of_nat (length (skipn 3 argv))).
  { rewrite length_skipn. lia. }
  exists N, c. split; [exact Hatoi|]. split; [exact HN|]. split; [exact Hmax|].
  split; [exact Hlen|]. split; [congruence|]. split; [exact Hroot|].
  split; [exact Htag|]. split.
  { rewrite Hflen, Hn16. apply u32_small. lia. }
  split; [lia|]. split; [exact Hxs|]. split; [exact Hne|].
  split; [lia|]. split; [lia|]. split; [exists l'; exact Hfree|]. exact Hall.
Qed.

Lemma file_ok_chain_of (img : image) (N c : Z) (fd : stream) (x : Z) :
  file_ok img c (N - 1) fd x -> 0 < c -> mapLength img = 512 * N ->
  chain img c (N - 1) x (chain_of img x)
  /\ Z.of_nat (length (chain_of img x))
     = 1 + (Z.of_nat (length (pending fd)) + 8) / 512
  /\ file_content img x = pending fd.
Proof.
  intros (bs & Hch & Hn & Htag & Hlen & Hdata) Hc Hmap.
  assert (E : chain_of img x = x :: bs).
  { unfold chain_of. apply (chain_from_eq _ _ _ _ _ _ Hch Hc).
    rewrite Hmap, Z.mul_comm, Z.div_mul by lia.
    pose proof (chain_length _ _ _ _ _ Hch) as L.
    assert (c <= x < N - 1) by (inversion Hch; assumption).
    specialize (L ltac:(lia)). lia. }
  rewrite E. split; [exact Hch|]. split; [exact Hn|].
  unfold file_content. rewrite E, Hlen, Nat2Z.id. exact Hdata.
Qed.

Lemma run_ok (w : world) (argv : list string) :
  succeeds (main w argv) = true ->
  main w argv = Ok (run_xs w argv, run_img w argv).
Proof.
  unfold run_xs, run_img. destruct (main w argv) as [[xs img]|e]; cbn.
  - reflexivity.
  - discriminate.
Qed.

(** ** The file packer (claims C1, C6, C10) *)

Lemma chain_links (m : image) (lo hi a : Z) (l : list Z) :
  chain m lo hi a l -> 0 < lo -> forall b, In b l -> fat m b < b.
Proof.
  intros H Hlo. induction H as [hi|hi b l Hb H IH]; intros b' Hin.
  - contradiction.
  - destruct Hin as [<-|Hin]; [|exact (IH b' Hin)].
    destruct (chain_start _ _ _ _ _ H) as [[E _]|[E _]]; lia.
Qed.

Lemma chain_last (m : image) (lo hi a : Z) (l : list Z) :
  chain m lo hi a l -> l <> [] -> fat m (last l 0) = 0.
Proof.
  intros H. induction H as [hi|hi b l Hb H IH]; intros Hne; [congruence|].
  destruct l as [|b' l'].
  - cbn [last]. inversion H. reflexivity.
  - change (last (b :: b' :: l') 0) with (last (b' :: l') 0).
    apply IH. discriminate.
Qed.

(** The claim C1 as the specification states it, on a file of 504 bytes:
    the run [mkfs disk.img 16 f504] gives the file two blocks, not one. *)
Lemma blocks_of_504_bytes :
  main demo_world argv_504
  = Ok (run_xs demo_world argv_504, run_img demo_world argv_504)
  /\ demo_world "f504"%string = Some (mkStream (sample 504) [])
  /\ chain_of (run_img demo_world argv_504) (nth 0 (run_xs demo_world argv_504) 0)
     = [14; 13]
  /\ Z.of_nat (length (chain_of (run_img demo_world argv_504)
                         (nth 0 (run_xs demo_world argv_504) 0)))
     <> spec_blocks (Z.of_nat (length (sample 504))).
Proof.
  split; [apply run_ok; vm_compute; reflexivity|]. split; [reflexivity|].
  split; [vm_compute; reflexivity|]. vm_compute. discriminate.
Qed.

(** C1, amended.  In a run that succeeds, the chain of a file of [S] bytes
    has [1 + floor ((S + 8) / 512)] blocks: one block if [S < 504], and
    [2 + floor ((S - 504) / 512)] blocks otherwise.  That is the number
    the specification gives, except for a file that ends where a block
    ends ([S = 504 + 512 * k]): it gets one more block, which stays
    empty. *)
Theorem packed_block_count (w : world) (argv : list string) (xs : list Z)
    (img : image) (k : nat) (name : string) (fd : stream) :
  main w argv = Ok (xs, img) ->
  nth_error (skipn 3 argv) k = Some name ->
  w name = Some fd ->
  let size := Z.of_nat (length (pending fd)) in
  let blocks := Z.of_nat (length (chain_of img (nth k xs 0))) in
  blocks = 1 + (size + 8) / 512
  /\ blocks = (if size <? 504 then 1 else 2 + (size - 504) / 512)
  /\ blocks = spec_blocks size
              + (if (504 <=? size) && ((size - 504) mod 512 =? 0)
                 then 1 else 0).
Proof.
  intros H Hk Hw size blocks.
  destruct (run_facts w argv xs img H)
    as (N & c & _ & HN & Hmax & Hlen & _ & _ & _ & _ & _ & _ & _ & _ & Hc & _ & Hall).
  destruct (Hall k name Hk) as (fd' & x & Hw' & Hx & _ & Hfok).
  assert (fd' = fd) by congruence. subst fd'.
  destruct (lastAvail_layout N ltac:(lia) Hmax) as (_ & _ & _ & Hlo & _).
  destruct (file_ok_chain_of img N c fd x Hfok ltac:(lia) Hlen) as (_ & Hn & _).
  assert (E : blocks = 1 + (size + 8) / 512).
  { unfold blocks, size. rewrite (nth_error_nth _ _ _ Hx). exact Hn. }
  split; [exact E|]. rewrite E. unfold spec_blocks.
  assert (0 <= size) by (unfold size; lia).
  clearbody size. clear E.
  destruct (Z.ltb_spec size 504); destruct (Z.leb_spec 504 size);
    destruct (Z.leb_spec size 504);
    destruct (Z.eqb_spec ((size - 504) mod 512) 0); cbn [andb];
    split; Z.to_euclidean_division_equations; lia.
Qed.

Lemma packed_block_count_504 :
  let size := Z.of_nat (length (pending (mkStream (sample 504) []))) in
  let blocks :=
    Z.of_nat (length (chain_of (run_img demo_world argv_504)
                        (nth 0 (run_xs demo_world argv_504) 0))) in
  blocks = 1 + (size + 8) / 512
  /\ blocks = (if size <? 504 then 1 else 2 + (size - 504) / 512)
  /\ blocks = spec_blocks size
              + (if (504 <=? size) && ((size - 504) mod 512 =? 0)
                 then 1 else 0).
Proof.
  apply (packed_block_count demo_world argv_504 (run_xs demo_world argv_504)
           (run_img demo_world argv_504) 0 "f504"%string
           (mkStream (sample 504) [])).
  - apply run_ok. vm_compute. reflexivity.
  - reflexivity.
  - reflexivity.
Defined.

(** C6.  In a run that succeeds, the head block of every file starts with
    the tag 1, and the four bytes after the tag hold the number of bytes
    read from the file up to its end.  (The tag is stored before the loop
    that copies the content, and the content goes from offset 8 on.) *)
Theorem packed_header (w : world) (argv : list string) (xs : list Z)
    (img : image) (k : nat) (name : string) (fd : stream) :
  main w argv = Ok (xs, img) ->
  nth_error (skipn 3 argv) k = Some name ->
  w name = Some fd ->
  get32 img (512 * nth k xs 0) = 1
  /\ get32 img (512 * nth k xs 0 + 4) = Z.of_nat (length (pending fd)).
Proof.
  intros H Hk Hw.
  destruct (run_facts w argv xs img H)
    as (N & c & _ & _ & _ & _ & _ & _ & _ & _ & _ & _ & _ & _ & _ & _ & Hall).
  destruct (Hall k name Hk) as (fd' & x & Hw' & Hx & _ & Hfok).
  assert (fd' = fd) by congruence. subst fd'.
  destruct Hfok as (bs & _ & _ & Htag & Hlen & _).
  rewrite (nth_error_nth _ _ _ Hx). split; [exact Htag|exact Hlen].
Qed.

Lemma packed_header_demo :
  get32 (run_img demo_world demo_argv)
        (512 * nth 1 (run_xs demo_world demo_argv) 0) = 1
  /\ get32 (run_img demo_world demo_argv)
           (512 * nth 1 (run_xs demo_world demo_argv) 0 + 4)
     = Z.of_nat (length (pending big_data)).
Proof.
  apply (packed_header demo_world demo_argv (run_xs demo_world demo_argv)
           (run_img demo_world demo_argv) 1 "big.data"%string big_data).
  - apply run_ok. vm_compute. reflexivity.
  - reflexivity.
  - reflexivity.
Defined.

(** C10.  In a run that succeeds, the chain that starts at the block a
    directory entry names goes down: every block of the chain has a [fat]
    entry smaller than its own index, so the blocks are met in strictly
    decreasing order, none twice, and the chain ends, at a block whose
    entry is 0. *)
Theorem packed_chain_decreasing (w : world) (argv : list string)
    (xs : list Z) (img : image) (k : nat) :
  main w argv = Ok (xs, img) ->
  (k < length (skipn 3 argv))%nat ->
  let x := entry_start img (root img) (Z.of_nat k) in
  let l := chain_of img x in
  hd 0 l = x
  /\ (forall b, In b l -> fat img b < b)
  /\ StronglySorted Z.gt l
  /\ NoDup l
  /\ fat img (last l 0) = 0
  /\ exists c hi, 0 < c /\ chain img c hi x l.
Proof.
  intros H Hk x l.
  destruct (run_facts w argv xs img H)
    as (N & c & _ & HN & Hmax & Hlen & _ & Hroot & _ & _ & _ & _ & _ & _ & Hc & _ & Hall).
  destruct (nth_error (skipn 3 argv) k) as [name|] eqn:Hnth.
  2:{ apply nth_error_None in Hnth. lia. }
  destruct (Hall k name Hnth) as (fd & x' & _ & _ & [_ Hstart] & Hfok).
  assert (Ex : x' = x) by (unfold x; rewrite Hroot; symmetry; exact Hstart).
  rewrite Ex in Hfok. clear Ex Hstart x'.
  destruct (lastAvail_layout N ltac:(lia) Hmax) as (_ & _ & _ & Hlo & _).
  destruct (file_ok_chain_of img N c fd x Hfok ltac:(lia) Hlen) as (Hch & _ & _).
  fold l in Hch.
  assert (Hx : c <= x < N - 1).
  { destruct Hfok as (bs & Hch0 & _). inversion Hch0; assumption. }
  destruct (chain_head _ _ _ _ _ Hch ltac:(lia)) as [Hhd Hnil].
  assert (Hne : l <> []) by (intros E; apply Hnil in E; lia).
  split; [symmetry; exact Hhd|].
  split; [apply (chain_links _ _ _ _ _ Hch); lia|].
  split; [apply (chain_sorted _ _ _ _ _ Hch)|].
  split; [apply (chain_NoDup _ _ _ _ _ Hch)|].
  split; [apply (chain_last _ _ _ _ _ Hch Hne)|].
  exists c, (N - 1). split; [lia|exact Hch].
Qed.

Lemma packed_chain_decreasing_demo :
  let img := run_img demo_world demo_argv in
  let x := entry_start img (root img) (Z.of_nat 1) in
  let l := chain_of img x in
  hd 0 l = x
  /\ (forall b, In b l -> fat img b < b)
  /\ StronglySorted Z.gt l
  /\ NoDup l
  /\ fat img (last l 0) = 0
  /\ exists c hi, 0 < c /\ chain img c hi x l.
Proof.
  apply (packed_chain_decreasing demo_world demo_argv
           (run_xs demo_world demo_argv) (run_img demo_world demo_argv) 1).
  - apply run_ok. vm_compute. reflexivity.
  - cbn. lia.
Defined.

(** ** The root directory (claims C4, C9) and a whole image (claim C5) *)

(** C4.  In a run that succeeds, the root block holds the tag 2 and the
    length [nFiles * 16], and from its byte 8 on one entry of 16 bytes per
    file argument, in the order of the arguments: 12 bytes that are the
    base name of the path, cut to 12 bytes (and filled with zeros when it
    is shorter), then the 4 bytes of the block index [oneFile] returned
    for that file. *)
Theorem root_directory (w : world) (argv : list string) (xs : list Z)
    (img : image) :
  main w argv = Ok (xs, img) ->
  let names := skipn 3 argv in
  let r := root img in
  get32 img (512 * r) = 2
  /\ get32 img (512 * r + 4) = Z.of_nat (length names) * 16
  /\ length xs = length names
  /\ forall (k : nat) (name : string),
       nth_error names k = Some name ->
       get_bytes img (512 * r + 8 + 16 * Z.of_nat k) 12
       = firstn 12 (c_bytes (basename name))
         ++ repeat 0 (12 - length (c_bytes (basename name)))
       /\ get32 img (512 * r + 8 + 16 * Z.of_nat k + 12) = nth k xs 0.
Proof.
  intros H names r.
  destruct (run_facts w argv xs img H)
    as (N & c & _ & _ & _ & _ & _ & Hroot & Htag & Hflen & _ & Hxs & _ & _ & _ & _ & Hall).
  unfold r. rewrite Hroot.
  split; [exact Htag|]. split; [unfold file_length in Hflen; fold names in Hflen; lia|].
  split; [exact Hxs|].
  intros k name Hk. destruct (Hall k name Hk) as (fd & x & _ & Hx & [Hn Hs] & _).
  rewrite (nth_error_nth _ _ _ Hx). split; [|exact Hs].
  unfold entry_name in Hn. rewrite Hn. apply strncpy_bytes_eq.
Qed.

Lemma root_directory_demo :
  let img := run_img demo_world demo_argv in
  let xs := run_xs demo_world demo_argv in
  let names := skipn 3 demo_argv in
  let r := root img in
  get32 img (512 * r) = 2
  /\ get32 img (512 * r + 4) = Z.of_nat (length names) * 16
  /\ length xs = length names
  /\ forall (k : nat) (name : string),
       nth_error names k = Some name ->
       get_bytes img (512 * r + 8 + 16 * Z.of_nat k) 12
       = firstn 12 (c_bytes (basename name))
         ++ repeat 0 (12 - length (c_bytes (basename name)))
       /\ get32 img (512 * r + 8 + 16 * Z.of_nat k + 12) = nth k xs 0.
Proof.
  apply (root_directory demo_world demo_argv (run_xs demo_world demo_argv)
           (run_img demo_world demo_argv)).
  apply run_ok. vm_compute. reflexivity.
Defined.

(** C9.  In a run that succeeds, the root directory is in the last block
    of the image: [getBlock] on the new image returns [nBlocks - 1], and
    that is what the [root] field of the super block holds at the end. *)
Theorem root_is_last_block (w : world) (argv : list string) (xs : list Z)
    (img : image) :
  main w argv = Ok (xs, img) ->
  exists N : Z,
    atoi (nth 2 argv EmptyString) = Some N
    /\ nBlocks_of img = N
    /\ (exists m1, getBlock (formatted N) = Ok (N - 1, m1))
    /\ root img = N - 1
    /\ file_tag img (root img) = 2.
Proof.
  intros H.
  destruct (run_facts w argv xs img H)
    as (N & c & Hatoi & HN & Hmax & _ & Hnb & Hroot & Htag & _).
  exists N. split; [exact Hatoi|]. split; [exact Hnb|].
  split; [|split; [exact Hroot|rewrite Hroot; exact Htag]].
  destruct (lastAvail_layout N ltac:(lia) Hmax) as (_ & _ & _ & Hlo & Hfit & Hle).
  destruct (formatted_spec N ltac:(lia) Hmax) as (_ & Hlen & _).
  pose proof (formatted_chain N HN Hmax) as Hch. specialize (Hle HN).
  replace (Z.to_nat (N - lastAvail_of N))
    with (S (Z.to_nat (N - 1 - lastAvail_of N))) in Hch by lia.
  cbn [down_from] in Hch.
  pose proof (getBlock_spec N (lastAvail_of N) ltac:(lia) Hlo Hfit Hmax
                (formatted N) N _ ltac:(lia) Hlen Hch) as G.
  cbv beta iota in G. destruct G as (m1 & G & _). exists m1. exact G.
Qed.

Lemma root_is_last_block_demo :
  exists N : Z,
    atoi (nth 2 demo_argv EmptyString) = Some N
    /\ nBlocks_of (run_img demo_world demo_argv) = N
    /\ (exists m1, getBlock (formatted N) = Ok (N - 1, m1))
    /\ root (run_img demo_world demo_argv) = N - 1
    /\ file_tag (run_img demo_world demo_argv)
         (root (run_img demo_world demo_argv)) = 2.
Proof.
  apply (root_is_last_block demo_world demo_argv (run_xs demo_world demo_argv)
           (run_img demo_world demo_argv)).
  apply run_ok. vm_compute. reflexivity.
Defined.

(** C5.  The run [mkfs disk.img 16 dir/small.txt big.data] on a file of 10
    bytes and a file of 600 bytes, whatever the bytes are and however
    [read] cuts them, as long as it does not fail: the run succeeds; the
    [root] field of the super block names a block whose tag is 2 and whose
    length is 32; its two entries carry the names [small.txt] and
    [big.data]; and reading each file back from the block its entry names,
    through the length field and the [fat] chain, gives the length and
    the bytes that were packed. *)
Theorem end_to_end_16 (w : world) (small big : stream) :
  w "dir/small.txt"%string = Some small ->
  w "big.data"%string = Some big ->
  length (pending small) = 10%nat ->
  length (pending big) = 600%nat ->
  ~ In RdFail (sched small) ->
  ~ In RdFail (sched big) ->
  exists xs img,
    main w demo_argv = Ok (xs, img)
    /\ nBlocks_of img = 16
    /\ file_tag img (root img) = 2
    /\ file_length img (root img) = 32
    /\ entry_name img (root img) 0 = c_bytes "small.txt" ++ [0; 0; 0]
    /\ file_tag img (entry_start img (root img) 0) = 1
    /\ file_length img (entry_start img (root img) 0) = 10
    /\ file_content img (entry_start img (root img) 0) = pending small
    /\ entry_name img (root img) 1 = c_bytes "big.data" ++ [0; 0; 0; 0]
    /\ file_tag img (entry_start img (root img) 1) = 1
    /\ file_length img (entry_start img (root img) 1) = 600
    /\ file_content img (entry_start img (root img) 1) = pending big.
Proof.
  intros Hs Hb Ls Lb Fs Fb.
  destruct (main_succeeds w demo_argv 16) as (xs & img & H).
  - cbn. lia.
  - reflexivity.
  - lia.
  - unfold INT_MAX. lia.
  - repeat constructor; [exists small|exists big]; auto.
  - cbn [demo_argv skipn blocks_needed]. rewrite Hs, Hb, Ls, Lb.
    vm_compute. discriminate.
  - cbn. lia.
  - exists xs, img. split; [exact H|].
    destruct (run_facts w demo_argv xs img H)
      as (N & c & Hatoi & HN & Hmax & Hlen & Hnb & Hroot & Htag & Hflen & _ & _
          & _ & _ & Hc & _ & Hall).
    assert (EN : N = 16) by (vm_compute in Hatoi; congruence).
    rewrite EN in *. clear EN Hatoi N.
    destruct (lastAvail_layout 16 ltac:(lia) Hmax) as (_ & _ & _ & Hlo & _).
    destruct (Hall 0%nat "dir/small.txt"%string eq_refl)
      as (fd0 & x0 & Hw0 & _ & [Hn0 Hs0] & Hf0).
    destruct (Hall 1%nat "big.data"%string eq_refl)
      as (fd1 & x1 & Hw1 & _ & [Hn1 Hs1] & Hf1).
    assert (fd0 = small) by congruence. assert (fd1 = big) by congruence.
    subst fd0 fd1.
    destruct (file_ok_chain_of img 16 c small x0 Hf0 ltac:(lia) Hlen) as (_ & _ & Hc0).
    destruct (file_ok_chain_of img 16 c big x1 Hf1 ltac:(lia) Hlen) as (_ & _ & Hc1).
    destruct Hf0 as (bs0 & _ & _ & Ht0 & Hl0 & _).
    destruct Hf1 as (bs1 & _ & _ & Ht1 & Hl1 & _).
    rewrite Hroot. change (16 - 1) with 15 in *.
    change (Z.of_nat 0) with 0 in *. change (Z.of_nat 1) with 1 in *.
    rewrite Hs0, Hs1.
    split; [exact Hnb|]. split; [exact Htag|].
    split; [rewrite Hflen; reflexivity|].
    split; [rewrite Hn0; reflexivity|]. split; [exact Ht0|].
    split; [rewrite Hl0, Ls; reflexivity|]. split; [exact Hc0|].
    split; [rewrite Hn1; reflexivity|]. split; [exact Ht1|].
    split; [rewrite Hl1, Lb; reflexivity|]. exact Hc1.
Qed.

Lemma end_to_end_16_demo :
  exists xs img,
    main demo_world demo_argv = Ok (xs, img)
    /\ nBlocks_of img = 16
    /\ file_tag img (root img) = 2
    /\ file_length img (root img) = 32
    /\ entry_name img (root img) 0 = c_bytes "small.txt" ++ [0; 0; 0]
    /\ file_tag img (entry_start img (root img) 0) = 1
    /\ file_length img (entry_start img (root img) 0) = 10
    /\ file_content img (entry_start img (root img) 0) = sample 10
    /\ entry_name img (root img) 1 = c_bytes "big.data" ++ [0; 0; 0; 0]
    /\ file_tag img (entry_start img (root img) 1) = 1
    /\ file_length img (entry_start img (root img) 1) = 600
    /\ file_content img (entry_start img (root img) 1) = sample 600.
Proof.
  apply (end_to_end_16 demo_world (mkStream (sample 10) []) big_data).
  - reflexivity.
  - reflexivity.
  - reflexivity.
  - reflexivity.
  - cbn. tauto.
  - cbn. intros [H|[H|[]]]; discriminate.
Defined.

(** The same run, evaluated: the image it leaves, read back. *)
Example end_to_end_16_evaluated :
  match main demo_world demo_argv with
  | Ok (_, img) =>
      let r := root img in
      nBlocks_of img = 16
      /\ file_tag img r = 2
      /\ file_length img r = 32
      /\ entry_name img r 0 = c_bytes "small.txt" ++ [0; 0; 0]
      /\ chain_of img (entry_start img r 0) = [14]
      /\ file_length img (entry_start img r 0) = 10
      /\ file_content img (entry_start img r 0) = sample 10
      /\ entry_name img r 1 = c_bytes "big.data" ++ [0; 0; 0; 0]
      /\ chain_of img (entry_start img r 1) = [13; 12]
      /\ file_length img (entry_start img r 1) = 600
      /\ file_content img (entry_start img r 1) = sample 600
  | Err _ => False
  end.
Proof.
  vm_compute. repeat split.
Qed.

(** Reading back: in every run that succeeds, the bytes found by following
    an entry of the directory are the bytes of the file. *)
Lemma packed_content (w : world) (argv : list string) (xs : list Z)
    (img : image) (k : nat) (name : string) (fd : stream) :
  main w argv = Ok (xs, img) ->
  nth_error (skipn 3 argv) k = Some name ->
  w name = Some fd ->
  file_content img (entry_start img (root img) (Z.of_nat k)) = pending fd.
Proof.
  intros H Hk Hw.
  destruct (run_facts w argv xs img H)
    as (N & c & _ & HN & Hmax & Hlen & _ & Hroot & _ & _ & _ & _ & _ & _ & Hc & _ & Hall).
  destruct (Hall k name Hk) as (fd' & x & Hw' & _ & [_ Hs] & Hfok).
  assert (fd' = fd) by congruence. subst fd'.
  destruct (lastAvail_layout N ltac:(lia) Hmax) as (_ & _ & _ & Hlo & _).
  rewrite Hroot, Hs.
  apply (file_ok_chain_of img N c fd x Hfok ltac:(lia) Hlen).
Qed.

(** ** The errors of a run *)

(** [avoids e0 c]: the errors [e0] rules out never end [c].  The errors of
    the accesses, of [getBlock] and of [read] and [open] are set aside;
    what is left is the usage error, which only the check of the arguments
    raises, and the end of the fuel, which the loop of [oneFile] never
    reaches. *)
Section Avoid.

Variable e0 : error.
Hypothesis not_Fault : e0 <> Fault.
Hypothesis not_DiskFull : e0 <> DiskFull.
Hypothesis not_ReadFailed : e0 <> ReadFailed.
Hypothesis not_OpenFailed : e0 <> OpenFailed.

Lemma avoids_ret {A : Type} (a : A) : avoids e0 (ret a).
Proof using Type. intros m. discriminate. Qed.

Lemma avoids_fail {A : Type} (e : error) : e <> e0 -> avoids e0 (@fail A e).
Proof using Type. intros He m H. inversion H. contradiction. Qed.

Lemma avoids_bind {A B : Type} (c : M A) (k : A -> M B) :
  avoids e0 c -> (forall a, avoids e0 (k a)) -> avoids e0 (bind c k).
Proof using Type.
  intros Hc Hk m. unfold bind. specialize (Hc m).
  destruct (c m) as [[a m1]|e]; [apply Hk|congruence].
Qed.

Lemma avoids_load32 (off : Z) : avoids e0 (load32 off).
Proof using not_Fault.
  intros m. unfold load32. destruct (in_map m off 4); congruence.
Qed.

Lemma avoids_store32 (off v : Z) : avoids e0 (store32 off v).
Proof using not_Fault.
  intros m. unfold store32. destruct (in_map m off 4); congruence.
Qed.

Lemma avoids_store8 (off v : Z) : avoids e0 (store8 off v).
Proof using not_Fault.
  intros m. unfold store8. destruct (in_map m off 1); congruence.
Qed.

Lemma avoids_store_bytes (off : Z) (bs : list Z) : avoids e0 (store_bytes off bs).
Proof using not_Fault.
  intros m. unfold store_bytes.
  destruct (in_map m off (Z.of_nat (length bs))); congruence.
Qed.

Lemma avoids_getBlock : avoids e0 getBlock.
Proof using not_Fault not_DiskFull.
  unfold getBlock. apply avoids_bind; [apply avoids_load32|]. intros idx.
  destruct (idx =? 0).
  - apply avoids_fail. congruence.
  - apply avoids_bind; [apply avoids_load32|]. intros nxt.
    apply avoids_bind; [apply avoids_store32|]. intros _.
    apply avoids_bind; [apply avoids_store32|]. intros _.
    apply avoids_ret.
Qed.

(** The loop of [oneFile] ends before its fuel does: a turn that goes on
    has read at least one byte. *)
Lemma avoids_pack_loop (fuel : nat) :
  forall fd fmd cur left off total,
    (length (pending fd) < fuel)%nat ->
    avoids e0 (pack_loop fuel fd fmd cur left off total).
Proof using not_Fault not_DiskFull not_ReadFailed.
  induction fuel as [|fuel IH]; intros fd fmd cur left off total Hfuel;
    [lia|]. cbn [pack_loop].
  apply avoids_bind.
  - destruct (left =? 0); [|apply avoids_ret].
    apply avoids_bind; [apply avoids_getBlock|]. intros b.
    apply avoids_bind; [apply avoids_store32|]. intros _. apply avoids_ret.
  - intros [[cur' off'] left'].
    destruct (read fd left') as [[n buf] fd'] eqn:R.
    destruct (Z.ltb_spec n 0) as [|Hn]; [apply avoids_fail; congruence|].
    destruct (Z.eqb_spec n 0) as [|Hn0]; [apply avoids_store32|].
    apply avoids_bind; [apply avoids_store_bytes|]. intros _. apply IH.
    assert (Hcount : 0 < left').
    { unfold read in R. destruct (sched fd) as [|[|k] s]; inversion R; subst; lia. }
    destruct (read_spec _ _ _ _ _ Hcount R) as [E|(_ & Hbuf & Hpend & _)]; [lia|].
    rewrite Hpend, length_app in Hfuel. lia.
Qed.

Lemma avoids_oneFile (w : world) (fileName : string) :
  avoids e0 (oneFile w fileName).
Proof using not_Fault not_DiskFull not_ReadFailed not_OpenFailed.
  unfold oneFile. destruct (w fileName) as [fd|].
  - apply avoids_bind; [apply avoids_getBlock|]. intros x.
    apply avoids_bind; [apply avoids_store32|]. intros _.
    apply avoids_bind; [apply avoids_pack_loop; lia|]. intros _.
    apply avoids_ret.
  - apply avoids_fail. congruence.
Qed.

Lemma avoids_init_fat (turns : nat) : forall i, avoids e0 (init_fat turns i).
Proof using not_Fault.
  induction turns as [|t IH]; intros i; cbn [init_fat].
  - apply avoids_ret.
  - apply avoids_bind; [apply avoids_store32|]. intros _. apply IH.
Qed.

Lemma avoids_main_format (nBlocks : Z) : avoids e0 (main_format nBlocks).
Proof using not_Fault.
  unfold main_format.
  repeat (apply avoids_bind;
          [first [apply avoids_store8|apply avoids_store32|apply avoids_load32]|];
          intros ?).
  apply avoids_init_fat.
Qed.

Lemma avoids_main_files (w : world) (rootData : Z) (names : list string) :
  forall i, avoids e0 (main_files w rootData i names).
Proof using not_Fault not_DiskFull not_ReadFailed not_OpenFailed.
  induction names as [|name rest IH]; intros i; cbn [main_files].
  - apply avoids_ret.
  - apply avoids_bind; [apply avoids_oneFile|]. intros x.
    unfold strncpy.
    apply avoids_bind.
    { apply avoids_bind; [apply avoids_store_bytes|]. intros _. apply avoids_ret. }
    intros dest.
    apply avoids_bind; [apply avoids_store32|]. intros _.
    apply avoids_bind; [apply IH|]. intros xs. apply avoids_ret.
Qed.

Lemma avoids_main_root (w : world) (nFiles : Z) (names : list string) :
  avoids e0 (main_root w nFiles names).
Proof using not_Fault not_DiskFull not_ReadFailed not_OpenFailed.
  unfold main_root.
  apply avoids_bind; [apply avoids_getBlock|]. intros r.
  repeat (apply avoids_bind;
          [first [apply avoids_store32|apply avoids_load32]|]; intros ?).
  apply avoids_main_files.
Qed.

End Avoid.

(** The loops of the embedding always have fuel enough: no run ends for
    want of it. *)
Lemma main_never_out_of_fuel (w : world) (argv : list string) :
  main w argv <> Err OutOfFuel.
Proof.
  unfold main.
  destruct (Z.of_nat (length argv) <? 4); [discriminate|].
  destruct (atoi (nth 2 argv EmptyString)) as [N|]; [|discriminate].
  destruct ((N * 512 <? INT_MIN) || (INT_MAX <? N * 512))%bool; [discriminate|].
  destruct (N * 512 <=? 0); [discriminate|].
  apply avoids_bind; [apply avoids_main_format; discriminate|].
  intros _. apply avoids_main_root; discriminate.
Qed.

(** ** The arguments of [main] (claim C7) *)

(** The claim C7 as the specification states it, on a block count of 0:
    [mkfs disk.img 0 f504] passes the check of the arguments, and fails
    when the image is mapped. *)
Lemma zero_blocks_pass_the_check :
  atoi (nth 2 argv_zero_blocks EmptyString) = Some 0
  /\ main demo_world argv_zero_blocks = Err SetupFailed
  /\ main demo_world argv_zero_blocks <> Err Usage.
Proof.
  split; [reflexivity|]. split; [reflexivity|]. discriminate.
Qed.

(** C7, amended.  [main] ends with the usage message, before it touches
    the image, exactly when it gets fewer than three arguments after the
    program name.  The block count is not looked at there: a count that
    [atoi] reads as 0 or less goes on to the creation of the image, and
    the run fails when the image is sized or mapped.  A run succeeds only
    with a positive block count and at least one file. *)
Theorem usage_error_iff_few_arguments (w : world) (argv : list string) :
  (main w argv = Err Usage <-> (length argv < 4)%nat)
  /\ (forall n, (4 <= length argv)%nat ->
                atoi (nth 2 argv EmptyString) = Some n ->
                n <= 0 -> INT_MIN <= n * 512 ->
                main w argv = Err SetupFailed)
  /\ (forall xs img, main w argv = Ok (xs, img) ->
                     (4 <= length argv)%nat
                     /\ exists n, atoi (nth 2 argv EmptyString) = Some n /\ 0 < n).
Proof.
  split; [|split].
  - unfold main. destruct (Z.ltb_spec (Z.of_nat (length argv)) 4) as [Hlt|Hge].
    + split; [lia|reflexivity].
    + split; [|lia]. intros H. exfalso.
      destruct (atoi (nth 2 argv EmptyString)) as [N|]; [|discriminate].
      destruct ((N * 512 <? INT_MIN) || (INT_MAX <? N * 512))%bool; [discriminate|].
      destruct (N * 512 <=? 0); [discriminate|].
      revert H. apply avoids_bind; [apply avoids_main_format; discriminate|].
      intros _. apply avoids_main_root; discriminate.
  - intros n Hargc Hatoi Hn Hmin. unfold main.
    destruct (Z.ltb_spec (Z.of_nat (length argv)) 4) as [Hlt|_]; [lia|].
    rewrite Hatoi.
    destruct (Z.ltb_spec (n * 512) INT_MIN) as [|_]; [lia|].
    destruct (Z.ltb_spec INT_MAX (n * 512)) as [|_]; [unfold INT_MAX in *; lia|].
    cbn [orb]. destruct (Z.leb_spec (n * 512) 0) as [_|]; [reflexivity|lia].
  - intros xs img H. destruct (run_facts w argv xs img H) as (N & c & Hatoi & HN & _).
    split.
    + unfold main in H.
      destruct (Z.ltb_spec (Z.of_nat (length argv)) 4); [discriminate|lia].
    + exists N. split; [exact Hatoi|lia].
Qed.

Lemma usage_error_iff_few_arguments_demo :
  (main demo_world argv_zero_blocks = Err Usage
   <-> (length argv_zero_blocks < 4)%nat)
  /\ (forall n, (4 <= length argv_zero_blocks)%nat ->
                atoi (nth 2 argv_zero_blocks EmptyString) = Some n ->
                n <= 0 -> INT_MIN <= n * 512 ->
                main demo_world argv_zero_blocks = Err SetupFailed)
  /\ (forall xs img, main demo_world argv_zero_blocks = Ok (xs, img) ->
                     (4 <= length argv_zero_blocks)%nat
                     /\ exists n, atoi (nth 2 argv_zero_blocks EmptyString) = Some n
                                  /\ 0 < n).
Proof.
  exact (usage_error_iff_few_arguments demo_world argv_zero_blocks).
Defined.

(** ** The field [avail] (claim C8) *)

(** C8.  [avail] is [N - 1] when [main] has set up the free list of a new
    image of [N] blocks, and from then on it only goes down.  From 3
    blocks on, the free list stays a chain that goes down from [avail];
    every [getBlock] that succeeds leaves [avail] strictly smaller; so
    does every [oneFile] that succeeds, and the loop over the files never
    leaves it greater: at the end of a run that succeeds [avail] is below
    [N - 1].  With 1 or 2 blocks the only [getBlock] that can succeed is
    the first one, which leaves [avail] at 0, and the run ends before a
    file is packed.  Nothing puts a block back. *)
Theorem avail_only_decreases (N : Z) :
  0 < N -> 512 * N <= INT_MAX ->
  let lo := lastAvail_of N in
  avail (formatted N) = N - 1
  /\ (N < 3 ->
      (forall b m', getBlock (formatted N) = Ok (b, m') ->
                    avail m' = 0 /\ avail m' < avail (formatted N))
      /\ (forall w nFiles name rest,
             exists e, main_root w nFiles (name :: rest) (formatted N) = Err e))
  /\ (3 <= N ->
      free_inv N lo (formatted N)
      /\ (forall m b m',
             free_inv N lo m -> getBlock m = Ok (b, m') ->
             avail m' < avail m /\ free_inv N lo m')
      /\ (forall m w fileName x m',
             free_inv N lo m -> oneFile w fileName m = Ok (x, m') ->
             avail m' < avail m /\ free_inv N lo m')
      /\ (forall m w r i names xs m' hi l,
             mapLength m = 512 * N -> chain m lo hi (avail m) l ->
             lo <= hi <= r -> r < N -> 0 <= i ->
             main_files w (512 * r + 8) i names m = Ok (xs, m') ->
             avail m' <= avail m /\ free_inv N lo m')
      /\ (forall w argv xs img,
             atoi (nth 2 argv EmptyString) = Some N ->
             main w argv = Ok (xs, img) ->
             avail img < N - 1 /\ free_inv N lo img)).
Proof.
  intros HN0 Hmax lo.
  destruct (lastAvail_layout N HN0 Hmax) as (_ & _ & _ & Hlo & Hfit & Hle).
  destruct (formatted_spec N HN0 Hmax) as (_ & Hlen & Hav & _).
  fold lo in Hlo, Hfit, Hle.
  split; [exact Hav|]. split.
  { intros Hsmall. split.
    - intros b m' G. assert (HN : N = 1 \/ N = 2) by lia.
      destruct HN as [->| ->]; vm_compute in G; [discriminate|].
      inversion G. subst. split; vm_compute; reflexivity.
    - intros w nFiles name rest. apply main_root_tiny. lia. }
  intros HN. specialize (Hle HN). split.
  { split; [exact Hlen|]. eexists N, _. split; [lia|].
    apply formatted_chain; assumption. }
  split; [|split; [|split]].
  - intros m b m' (Hl & hi & l & Hhi & Hch) G.
    pose proof (getBlock_spec N lo ltac:(lia) Hlo Hfit Hmax m hi l ltac:(lia) Hl Hch) as S.
    destruct l as [|b0 l1]; [congruence|].
    destruct S as (m1 & G1 & Hl1 & Hch1 & _).
    assert (E : b0 = b /\ m1 = m') by (rewrite G in G1; inversion G1; auto).
    destruct E as [-> ->].
    assert (Hb : lo <= b < hi) by (inversion Hch; assumption).
    assert (Ea : avail m = b) by (inversion Hch; reflexivity).
    split.
    + pose proof (chain_avail_lt lo m' b _ _ Hch1 ltac:(lia) ltac:(lia)). lia.
    + split; [exact Hl1|]. exists b, l1. split; [lia|exact Hch1].
  - intros m w fileName x m' (Hl & hi & l & Hhi & Hch) F.
    destruct (w fileName) as [fd|] eqn:Hw.
    2:{ rewrite (oneFile_closed w fileName m Hw) in F. discriminate. }
    pose proof (oneFile_spec N lo ltac:(lia) Hlo Hfit Hmax w fileName fd m hi l Hw
                  ltac:(lia) Hl Hch) as S.
    rewrite F in S. cbn [file_post] in S.
    destruct S as (bs & l' & c & El & Hc & Hx & Hl' & _ & Hfree & _).
    assert (Ea : avail m = x) by (subst l; inversion Hch; reflexivity).
    split.
    + pose proof (chain_avail_lt lo m' c _ _ Hfree ltac:(lia) ltac:(lia)). lia.
    + split; [exact Hl'|]. exists c, l'. split; [lia|exact Hfree].
  - intros m w r i names xs m' hi l Hl Hch Hhi Hr Hi F.
    pose proof (main_files_spec N lo ltac:(lia) Hlo Hfit Hmax r w names Hr i m hi l
                  Hi Hhi Hl Hch) as S.
    rewrite F in S. cbn [files_post] in S.
    destruct S as (Hl' & _ & _ & _ & Hav' & c & l' & Hc & Hfree & _).
    split; [exact Hav'|]. split; [exact Hl'|].
    exists c, l'. split; [lia|exact Hfree].
  - intros w argv xs img Hatoi H.
    destruct (run_facts w argv xs img H)
      as (N' & c & Hatoi' & _ & _ & Hl' & _ & _ & _ & _ & _ & _ & _ & Hav'
          & Hc & [l' Hfree] & _).
    assert (N' = N) by congruence. subst N'.
    split; [exact Hav'|]. split; [exact Hl'|].
    exists c, l'. split; [unfold lo; lia|exact Hfree].
Qed.

Lemma avail_only_decreases_8 :
  let lo := lastAvail_of 8 in
  avail (formatted 8) = 8 - 1
  /\ (8 < 3 ->
      (forall b m', getBlock (formatted 8) = Ok (b, m') ->
                    avail m' = 0 /\ avail m' < avail (formatted 8))
      /\ (forall w nFiles name rest,
             exists e, main_root w nFiles (name :: rest) (formatted 8) = Err e))
  /\ (3 <= 8 ->
      free_inv 8 lo (formatted 8)
      /\ (forall m b m',
             free_inv 8 lo m -> getBlock m = Ok (b, m') ->
             avail m' < avail m /\ free_inv 8 lo m')
      /\ (forall m w fileName x m',
             free_inv 8 lo m -> oneFile w fileName m = Ok (x, m') ->
             avail m' < avail m /\ free_inv 8 lo m')
      /\ (forall m w r i names xs m' hi l,
             mapLength m = 512 * 8 -> chain m lo hi (avail m) l ->
             lo <= hi <= r -> r < 8 -> 0 <= i ->
             main_files w (512 * r + 8) i names m = Ok (xs, m') ->
             avail m' <= avail m /\ free_inv 8 lo m')
      /\ (forall w argv xs img,
             atoi (nth 2 argv EmptyString) = Some 8 ->
             main w argv = Ok (xs, img) ->
             avail img < 8 - 1 /\ free_inv 8 lo img)).
Proof.
  apply (avail_only_decreases 8); unfold INT_MAX; lia.
Defined.

(** ** The blocks of a run *)

Lemma chain_of_eq (m : image) (N lo hi a : Z) (l : list Z) :
  chain m lo hi a l -> 0 < lo -> hi <= N -> mapLength m = 512 * N ->
  chain_of m a = l.
Proof.
  intros H Hlo Hhi Hlen. unfold chain_of.
  apply (chain_from_eq _ _ _ _ _ _ H Hlo).
  rewrite Hlen, Z.mul_comm, Z.div_mul by lia.
  destruct (chain_start _ _ _ _ _ H) as [[_ ->]|[Ha _]]; [cbn; lia|].
  pose proof (chain_length _ _ _ _ _ H ltac:(lia)). lia.
Qed.

Section Blocks.

Variables N lo : Z.
Hypothesis N_pos : 0 < N.
Hypothesis lo_min : 2 <= lo.
Hypothesis fat_fits : 512 + 4 * N <= 512 * lo.
Hypothesis N_max : 512 * N <= INT_MAX.

Ltac bounds :=
  cbv beta in *;
  unfold files_touch in *;
  unfold pack_touch, file_touch, alloc_touch, fat_at, super_avail,
    super_root, super_nBlocks, INT_MAX in *;
  lia.

(** The first turn of the loop over the files, in a run that succeeds. *)
Lemma main_files_step (r : Z) (w : world) (name : string) (rest : list string)
    (i : Z) (m : image) (hi : Z) (l : list Z) (xs : list Z) (m' : image) :
  r < N -> 0 <= i -> lo <= hi <= r ->
  mapLength m = 512 * N -> chain m lo hi (avail m) l ->
  main_files w (512 * r + 8) i (name :: rest) m = Ok (xs, m') ->
  exists (fd : stream) (x : Z) (xs' bs l' : list Z) (c : Z) (m3 : image),
    w name = Some fd /\ xs = x :: xs' /\ l = x :: bs ++ l'
    /\ lo <= c <= x /\ x < hi
    /\ mapLength m3 = 512 * N
    /\ chain m3 lo c (avail m3) l'
    /\ chain m3 c (x + 1) x (x :: bs)
    /\ Z.of_nat (length (x :: bs))
       = 1 + (Z.of_nat (length (pending fd)) + 8) / 512
    /\ only_changes
         (fun y => file_touch lo x y
                   \/ 512 * r + 8 + 16 * i <= y < 512 * r + 8 + 16 * i + 16) m m3
    /\ main_files w (512 * r + 8) (i + 1) rest m3 = Ok (xs', m').
Proof using N_pos lo_min fat_fits N_max.
  intros Hr Hi Hhi Hlen Hch. cbn [main_files].
  destruct (w name) as [fd|] eqn:Hw.
  2:{ rewrite (bind_err _ _ m OpenFailed) by (apply oneFile_closed; exact Hw).
      discriminate. }
  pose proof (oneFile_spec N lo N_pos lo_min fat_fits N_max w name fd m hi l Hw
                ltac:(lia) Hlen Hch) as F.
  unfold bind at 1.
  destruct (oneFile w name m) as [[x m1]|e]; [|discriminate].
  cbn [file_post] in F.
  destruct F as (bs & l' & c & El & Hc & Hxhi & Hlen1 & Hfile & Hfree & Hcount
                 & Htag & Hflen & Hdata & Hch1).
  unfold strncpy.
  set (dest := 512 * r + 8 + i * 16).
  set (nm := strncpy_bytes 12 (basename name)).
  assert (Lnm : length nm = 12%nat) by apply length_strncpy_bytes.
  unfold bind at 1. unfold bind at 1.
  destruct (store_bytes dest nm m1) as [[u2 m2]|e] eqn:S1; [|discriminate].
  apply store_bytes_inv in S1. destruct S1 as (E2 & Hd0 & Hd1).
  rewrite Lnm in Hd1. cbn [ret]. unfold bind at 1.
  destruct (store32 (dest + 12) x m2) as [[u3 m3]|e] eqn:S2; [|discriminate].
  apply store32_inv in S2. destruct S2 as (E3 & Hd2 & Hd3).
  assert (L2 : mapLength m2 = 512 * N) by (subst m2; exact Hlen1).
  assert (L3 : mapLength m3 = 512 * N) by (subst m3; exact L2).
  rewrite L2 in Hd3.
  assert (C2 : only_changes (fun y => dest <= y < dest + 12) m1 m2).
  { subst m2. replace 12 with (Z.of_nat (length nm)) by lia.
    apply put_bytes_changes. }
  assert (C3 : only_changes (fun y => dest + 12 <= y < dest + 12 + 4) m2 m3)
    by (subst m3; apply put32_changes).
  assert (C13 : only_changes (fun y => dest <= y < dest + 16) m1 m3).
  { eapply only_changes_trans; [exact C2|exact C3|]. cbv beta. intros y. lia. }
  unfold bind at 1.
  destruct (main_files w (512 * r + 8) (i + 1) rest m3) as [[xs' m'']|e] eqn:R;
    [|discriminate].
  intros H. inversion H; subst xs m''. clear H.
  exists fd, x, xs', bs, l', c, m3.
  split; [reflexivity|]. split; [reflexivity|]. split; [exact El|].
  split; [lia|]. split; [lia|]. split; [exact L3|].
  split; [|split; [|split; [exact Hcount|split]]].
  - replace (avail m3) with (avail m1).
    + apply chain_frame with (m := m1); [exact Hfree|].
      intros j Hj. apply (get32_unchanged _ _ _ _ C13). intros y Hy. bounds.
    + symmetry. apply (get32_unchanged _ _ _ _ C13). intros y Hy. bounds.
  - apply chain_frame with (m := m1); [exact Hfile|].
    intros j Hj. apply (get32_unchanged _ _ _ _ C13). intros y Hy. bounds.
  - eapply only_changes_trans; [exact Hch1|exact C13|].
    intros y Hy. unfold dest in *. bounds.
  - exact R.
Qed.

(** The free list a successful loop over the files starts from is made of
    the chains of the files, in the order of the files, and of the free
    list it leaves. *)
Lemma main_files_partition (r : Z) (w : world) (names : list string) :
  r < N ->
  forall (i : Z) (m : image) (hi : Z) (l : list Z) (xs : list Z) (m' : image),
    0 <= i -> lo <= hi <= r ->
    mapLength m = 512 * N -> chain m lo hi (avail m) l ->
    main_files w (512 * r + 8) i names m = Ok (xs, m') ->
    l = flat_map (chain_of m') xs ++ free_list m'.
Proof using N_pos lo_min fat_fits N_max.
  intros Hr. induction names as [|name rest IH];
    intros i m hi l xs m' Hi Hhi Hlen Hch H.
  - cbn [main_files ret] in H. inversion H; subst xs m'. cbn [flat_map app].
    symmetry. apply (chain_of_eq m N lo hi _ l Hch); [lia|lia|exact Hlen].
  - destruct (main_files_step r w name rest i m hi l xs m' Hr Hi Hhi Hlen Hch H)
      as (fd & x & xs' & bs & l' & c & m3 & Hw & -> & -> & Hc & Hx & L3 & Hfree
          & Hfile & _ & _ & R).
    pose proof (main_files_spec N lo N_pos lo_min fat_fits N_max r w rest Hr
                  (i + 1) m3 c l' ltac:(lia) ltac:(lia) L3 Hfree) as P.
    rewrite R in P. cbn [files_post] in P.
    destruct P as (Hlen' & _ & _ & Hch' & _).
    specialize (IH (i + 1) m3 c l' xs' m' ltac:(lia) ltac:(lia) L3 Hfree R).
    cbn [flat_map]. rewrite <- app_assoc, <- IH.
    assert (Hfile' : chain m' c (x + 1) x (x :: bs)).
    { apply chain_frame with (m := m3); [exact Hfile|].
      intros j Hj. apply (get32_unchanged _ _ _ _ Hch'). intros y Hy. bounds. }
    rewrite (chain_of_eq m' N c (x + 1) x (x :: bs) Hfile' ltac:(lia) ltac:(lia) Hlen').
    reflexivity.
Qed.

(** Lines 284-292 of [main], in a run that succeeds. *)
Lemma main_root_step (w : world) (nFiles : Z) (names : list string)
    (m : image) (hi : Z) (l : list Z) (xs : list Z) (m' : image) :
  hi <= N -> mapLength m = 512 * N -> chain m lo hi (avail m) l ->
  main_root w nFiles names m = Ok (xs, m') ->
  exists (r : Z) (l1 : list Z) (m4 : image),
    l = r :: l1 /\ lo <= r < hi
    /\ mapLength m4 = 512 * N
    /\ chain m4 lo r (avail m4) l1
    /\ root m4 = r
    /\ fat m4 r = 0
    /\ only_changes
         (fun y => 8 <= y < 16 \/ fat_at r <= y < fat_at r + 4
                   \/ 512 * r <= y < 512 * r + 8) m m4
    /\ main_files w (512 * r + 8) 0 names m4 = Ok (xs, m').
Proof using N_pos lo_min fat_fits N_max.
  intros Hhi Hlen Hch. unfold main_root.
  pose proof (getBlock_spec N lo N_pos lo_min fat_fits N_max m hi l Hhi Hlen Hch) as G.
  destruct l as [|r l1].
  - rewrite (bind_err _ _ m DiskFull) by exact G. discriminate.
  - destruct G as (m1 & G & Hlen1 & Hch1 & Hfat1 & Hc1).
    assert (Hr : lo <= r < hi) by (inversion Hch; assumption).
    rewrite (bind_ok _ _ m m1 r) by exact G.
    set (m2 := put32 m1 super_root r).
    assert (C2 : only_changes (fun y => super_root <= y < super_root + 4) m1 m2)
      by apply put32_changes.
    rewrite (bind_ok _ _ m1 m2 tt) by (apply store32_ok; bounds).
    assert (R2 : get32 m2 super_root = r).
    { unfold m2. rewrite get32_put32. apply u32_small. bounds. }
    rewrite (bind_ok _ _ m2 m2 r)
      by (pose proof (load32_ok m2 super_root) as L; rewrite R2 in L; apply L;
          unfold m2; cbn [put32 mapLength]; bounds).
    rewrite !(toPtr_small N lo N_pos lo_min fat_fits N_max) by lia.
    set (m3 := put32 m2 (512 * r + 0) 2).
    assert (C3 : only_changes (fun y => 512 * r + 0 <= y < 512 * r + 0 + 4) m2 m3)
      by apply put32_changes.
    rewrite (bind_ok _ _ m2 m3 tt)
      by (apply store32_ok; unfold m2; cbn [put32 mapLength]; bounds).
    set (m4 := put32 m3 (512 * r + 0 + 4) (u32 (nFiles * 16))).
    assert (C4 : only_changes
                   (fun y => 512 * r + 0 + 4 <= y < 512 * r + 0 + 4 + 4) m3 m4)
      by apply put32_changes.
    rewrite (bind_ok _ _ m3 m4 tt)
      by (apply store32_ok; unfold m3, m2; cbn [put32 mapLength]; bounds).
    assert (L4 : mapLength m4 = 512 * N) by exact Hlen1.
    assert (C14 : only_changes (fun y => 12 <= y < 16 \/ 512 * r <= y < 512 * r + 8) m1 m4).
    { eapply only_changes_trans; [exact C2| |].
      - eapply only_changes_trans; [exact C3|exact C4|]. intros y Hy. exact Hy.
      - intros y Hy. bounds. }
    assert (R4 : get32 m4 super_root = r).
    { rewrite <- R2. eapply get32_unchanged.
      - eapply only_changes_trans; [exact C3|exact C4|]. intros y Hy. exact Hy.
      - intros y Hy. bounds. }
    rewrite (bind_ok _ _ m4 m4 r)
      by (pose proof (load32_ok m4 super_root) as L; rewrite R4 in L; apply L;
          rewrite ?L4; bounds).
    rewrite (toPtr_small N lo N_pos lo_min fat_fits N_max) by lia.
    intros H. exists r, l1, m4.
    split; [reflexivity|]. split; [exact Hr|]. split; [exact L4|].
    split; [|split; [exact R4|split; [|split; [|exact H]]]].
    + replace (avail m4) with (avail m1).
      * apply chain_frame with (m := m1); [exact Hch1|].
        intros j Hj. apply (get32_unchanged _ _ _ _ C14). intros y Hy. bounds.
      * symmetry. apply (get32_unchanged _ _ _ _ C14). intros y Hy. bounds.
    + rewrite <- Hfat1. apply (get32_unchanged _ _ _ _ C14). intros y Hy. bounds.
    + eapply only_changes_trans; [exact Hc1|exact C14|]. intros y Hy. bounds.
Qed.

(** The blocks a successful loop over the files takes from the free
    list. *)
Lemma main_files_count (r : Z) (w : world) (names : list string) :
  r < N ->
  forall (i : Z) (m : image) (hi : Z) (l : list Z) (xs : list Z) (m' : image),
    0 <= i -> lo <= hi <= r ->
    mapLength m = 512 * N -> chain m lo hi (avail m) l ->
    main_files w (512 * r + 8) i names m = Ok (xs, m') ->
    Z.of_nat (length (flat_map (chain_of m') xs)) = blocks_needed w names.
Proof using N_pos lo_min fat_fits N_max.
  intros Hr. induction names as [|name rest IH];
    intros i m hi l xs m' Hi Hhi Hlen Hch H.
  - cbn [main_files ret] in H. inversion H; subst xs m'. reflexivity.
  - destruct (main_files_step r w name rest i m hi l xs m' Hr Hi Hhi Hlen Hch H)
      as (fd & x & xs' & bs & l' & c & m3 & Hw & -> & -> & Hc & Hx & L3 & Hfree
          & Hfile & Hcount & _ & R).
    pose proof (main_files_spec N lo N_pos lo_min fat_fits N_max r w rest Hr
                  (i + 1) m3 c l' ltac:(lia) ltac:(lia) L3 Hfree) as P.
    rewrite R in P. cbn [files_post] in P.
    destruct P as (Hlen' & _ & _ & Hch' & _).
    specialize (IH (i + 1) m3 c l' xs' m' ltac:(lia) ltac:(lia) L3 Hfree R).
    assert (Hfile' : chain m' c (x + 1) x (x :: bs)).
    { apply chain_frame with (m := m3); [exact Hfile|].
      intros j Hj. apply (get32_unchanged _ _ _ _ Hch'). intros y Hy. bounds. }
    cbn [flat_map blocks_needed]. rewrite Hw, length_app, Nat2Z.inj_add, IH.
    rewrite (chain_of_eq m' N c (x + 1) x (x :: bs) Hfile' ltac:(lia) ltac:(lia) Hlen').
    rewrite Hcount. reflexivity.
Qed.

End Blocks.

(** A run that returns 0 has passed the checks of [main] and run lines
    284-304 on the new image. *)
Lemma main_inv (w : world) (argv : list string) (xs : list Z) (img : image) :
  main w argv = Ok (xs, img) ->
  exists N : Z,
    atoi (nth 2 argv EmptyString) = Some N
    /\ 3 <= N /\ 512 * N <= INT_MAX
    /\ (4 <= length argv)%nat
    /\ main_root w (Z.of_nat (length argv) - 3) (skipn 3 argv) (formatted N)
       = Ok (xs, img).
Proof.
  unfold main. intros H.
  destruct (Z.ltb_spec (Z.of_nat (length argv)) 4) as [|Hargc]; [discriminate|].
  destruct (atoi (nth 2 argv EmptyString)) as [N|] eqn:Hatoi; [|discriminate].
  destruct (Z.ltb_spec (N * 512) INT_MIN) as [|H1]; [discriminate|].
  destruct (Z.ltb_spec INT_MAX (N * 512)) as [|H2]; [discriminate|].
  cbn [orb] in H.
  destruct (Z.leb_spec (N * 512) 0) as [|H3]; [discriminate|].
  assert (HN : 0 < N) by lia.
  assert (Hmax : 512 * N <= INT_MAX) by lia.
  destruct (formatted_spec N HN Hmax) as (R & Hlen & Hav & _).
  rewrite (bind_ok _ _ _ _ _ R) in H.
  destruct (Z_lt_ge_dec N 3) as [Hsmall|Hbig].
  { destruct (skipn 3 argv) as [|name rest] eqn:Hnames.
    { apply (f_equal (@length string)) in Hnames. rewrite length_skipn in Hnames.
      cbn [length] in Hnames. lia. }
    destruct (main_root_tiny w (Z.of_nat (length argv) - 3) name rest N ltac:(lia))
      as [e He].
    rewrite He in H. discriminate. }
  exists N. split; [reflexivity|]. split; [lia|]. split; [exact Hmax|].
  split; [lia|exact H].
Qed.

(** The parts of a run that returns 0: the image of [N] blocks after the
    set-up of the free list, the image [m4] with the header of the root
    block [N - 1], and the loop over the files. *)
Lemma run_parts (w : world) (argv : list string) (xs : list Z) (img : image) :
  main w argv = Ok (xs, img) ->
  exists (N : Z) (m4 : image),
    atoi (nth 2 argv EmptyString) = Some N
    /\ 3 <= N /\ 512 * N <= INT_MAX
    /\ 2 <= lastAvail_of N <= N - 1
    /\ 512 + 4 * N <= 512 * lastAvail_of N
    /\ mapLength m4 = 512 * N
    /\ chain m4 (lastAvail_of N) (N - 1) (avail m4)
         (down_from (N - 2) (Z.to_nat (N - 1 - lastAvail_of N)))
    /\ only_changes
         (fun y => 8 <= y < 16 \/ fat_at (N - 1) <= y < fat_at (N - 1) + 4
                   \/ 512 * (N - 1) <= y < 512 * (N - 1) + 8) (formatted N) m4
    /\ main_files w (512 * (N - 1) + 8) 0 (skipn 3 argv) m4 = Ok (xs, img).
Proof.
  intros H.
  destruct (main_inv w argv xs img H) as (N & Hatoi & HN & Hmax & Hargc & R).
  destruct (lastAvail_layout N ltac:(lia) Hmax) as (_ & _ & _ & Hlo & Hfit & Hle).
  specialize (Hle HN).
  destruct (formatted_spec N ltac:(lia) Hmax) as (_ & Hlen & _).
  destruct (main_root_step N (lastAvail_of N) ltac:(lia) Hlo Hfit Hmax w _ _ _ N _
              xs img ltac:(lia) Hlen (formatted_chain N HN Hmax) R)
    as (r & l1 & m4 & El & Hr & L4 & Hfree & _ & _ & C & F).
  replace (Z.to_nat (N - lastAvail_of N))
    with (S (Z.to_nat (N - 1 - lastAvail_of N))) in El by lia.
  cbn [down_from] in El. inversion El. subst r l1.
  replace (N - 1 - 1) with (N - 2) in * by lia.
  exists N, m4. repeat (split; [first [assumption|lia]|]). exact F.
Qed.

Lemma sorted_down_from (hi : Z) (n : nat) : StronglySorted Z.gt (down_from hi n).
Proof.
  revert hi. induction n as [|n IH]; intros hi; cbn [down_from]; constructor.
  - apply IH.
  - apply Forall_forall. intros j Hj. apply In_down_from in Hj. lia.
Qed.

Lemma sorted_app_gt (A B : list Z) :
  StronglySorted Z.gt (A ++ B) ->
  forall a b, In a A -> In b B -> b < a.
Proof.
  induction A as [|a0 A IH]; intros H a b Ha Hb; [contradiction|].
  cbn [app] in H. apply StronglySorted_inv in H. destruct H as [H1 H2].
  destruct Ha as [<-|Ha].
  - rewrite Forall_forall in H2.
    specialize (H2 b ltac:(apply in_or_app; right; exact Hb)). lia.
  - apply (IH H1 a b Ha Hb).
Qed.

Lemma sorted_app_r (A B : list Z) :
  StronglySorted Z.gt (A ++ B) -> StronglySorted Z.gt B.
Proof.
  induction A as [|a0 A IH]; intros H; [exact H|].
  cbn [app] in H. apply StronglySorted_inv in H. tauto.
Qed.

(** What a run that returns 0 has done with the blocks: the free list of
    the new image is the root block, then the chains of the files in the
    order of the arguments, then the free list that is left. *)
Lemma run_layout (w : world) (argv : list string) (xs : list Z) (img : image) :
  main w argv = Ok (xs, img) ->
  exists N : Z,
    atoi (nth 2 argv EmptyString) = Some N
    /\ 3 <= N /\ 512 * N <= INT_MAX
    /\ 2 <= lastAvail_of N <= N - 1
    /\ mapLength img = 512 * N
    /\ nBlocks_of img = N
    /\ root img = N - 1
    /\ down_from (N - 1) (Z.to_nat (N - lastAvail_of N))
       = (N - 1) :: flat_map (chain_of img) xs ++ free_list img
    /\ Z.of_nat (length (flat_map (chain_of img) xs))
       = blocks_needed w (skipn 3 argv).
Proof.
  intros H.
  destruct (run_parts w argv xs img H)
    as (N & m4 & Hatoi & HN & Hmax & Hlo & Hfit & L4 & Hfree & _ & F).
  destruct (run_facts w argv xs img H)
    as (N' & c & Hatoi' & _ & _ & Hlen & Hnb & Hroot & _).
  assert (E : N' = N) by congruence. rewrite E in *. clear E Hatoi'.
  exists N. split; [exact Hatoi|]. split; [exact HN|]. split; [exact Hmax|].
  split; [exact Hlo|]. split; [exact Hlen|]. split; [exact Hnb|].
  split; [exact Hroot|]. split.
  - replace (Z.to_nat (N - lastAvail_of N))
      with (S (Z.to_nat (N - 1 - lastAvail_of N))) by lia.
    cbn [down_from]. f_equal. replace (N - 1 - 1) with (N - 2) by lia.
    apply (main_files_partition N (lastAvail_of N) ltac:(lia) ltac:(lia) Hfit Hmax
             (N - 1) w (skipn 3 argv) ltac:(lia) 0 m4 (N - 1) _ xs img
             ltac:(lia) ltac:(lia) L4 Hfree F).
  - apply (main_files_count N (lastAvail_of N) ltac:(lia) ltac:(lia) Hfit Hmax
             (N - 1) w (skipn 3 argv) ltac:(lia) 0 m4 (N - 1) _ xs img
             ltac:(lia) ltac:(lia) L4 Hfree F).
Qed.

Lemma ok_parts {A : Type} (d : A) (r : result (A * image)) :
  succeeds r = true -> r = Ok (value_of d r, image_of r).
Proof.
  destruct r as [[a m]|e]; cbn; [reflexivity|discriminate].
Qed.

Lemma down_from_prefix (l : list Z) :
  forall (hi : Z) (n : nat) (rest : list Z),
    down_from hi n = l ++ rest ->
    l = down_from hi (length l)
    /\ rest = down_from (hi - Z.of_nat (length l)) (n - length l).
Proof.
  induction l as [|a l IH]; intros hi n rest H.
  - cbn [length app down_from] in *. rewrite Z.sub_0_r, Nat.sub_0_r.
    split; [reflexivity|]. symmetry. exact H.
  - destruct n as [|n]; [discriminate|].
    cbn [down_from app] in H. injection H as Ha Hl.
    destruct (IH (hi - 1) n rest Hl) as [E1 E2].
    cbn [length down_from]. split.
    + f_equal; [symmetry; exact Ha|exact E1].
    + rewrite E2. f_equal; lia.
Qed.

Lemma down_from_parts (ls : list (list Z)) :
  forall (hi : Z) (n : nat) (rest : list Z),
    down_from hi n = concat ls ++ rest ->
    (forall (k : nat) (l : list Z),
        nth_error ls k = Some l ->
        l = down_from (hi - Z.of_nat (length (concat (firstn k ls)))) (length l))
    /\ rest = down_from (hi - Z.of_nat (length (concat ls)))
                (n - length (concat ls)).
Proof.
  induction ls as [|l0 ls IH]; intros hi n rest H.
  - split; [intros [|k] l Hk; discriminate|].
    cbn [concat length app] in *. rewrite Z.sub_0_r, Nat.sub_0_r.
    symmetry. exact H.
  - cbn [concat] in H. rewrite <- app_assoc in H.
    destruct (down_from_prefix l0 hi n _ H) as [E0 Er].
    destruct (IH _ _ rest (eq_sym Er)) as [Hk Hrest].
    split.
    + intros [|k] l Hl; cbn [nth_error firstn concat] in *.
      * inversion Hl; subst l. cbn [length]. rewrite Z.sub_0_r. exact E0.
      * rewrite (Hk k l Hl). rewrite length_down_from, length_app.
        f_equal. lia.
    + rewrite Hrest. cbn [concat]. rewrite length_app. f_equal; lia.
Qed.

Lemma blocks_of_prefix (w : world) (f : Z -> list Z) (names : list string) :
  forall (xs : list Z),
    length xs = length names ->
    (forall (j : nat) (name : string),
        nth_error names j = Some name ->
        exists (fd : stream) (x : Z),
          w name = Some fd /\ nth_error xs j = Some x
          /\ Z.of_nat (length (f x))
             = 1 + (Z.of_nat (length (pending fd)) + 8) / 512) ->
    forall k : nat,
      Z.of_nat (length (concat (firstn k (map f xs))))
      = blocks_needed w (firstn k names).
Proof.
  induction names as [|name names IH]; intros xs Hlen Hall k.
  - destruct xs; [|discriminate]. destruct k; reflexivity.
  - destruct xs as [|x xs]; [discriminate|].
    destruct k as [|k]; [reflexivity|].
    cbn [map firstn concat blocks_needed]. rewrite length_app, Nat2Z.inj_add.
    destruct (Hall 0%nat name eq_refl) as (fd & x' & Hw & Hx & Hn).
    cbn [nth_error] in Hx. inversion Hx; subst x'. rewrite Hw, Hn.
    rewrite (IH xs ltac:(cbn in Hlen; lia)); [reflexivity|].
    intros j name' Hj. apply (Hall (S j) name' Hj).
Qed.

Lemma blocks_needed_app (w : world) (a b : list string) :
  blocks_needed w (a ++ b) = blocks_needed w a + blocks_needed w b.
Proof.
  induction a as [|name a IH]; cbn [app blocks_needed]; [lia|].
  rewrite IH. lia.
Qed.

Lemma blocks_needed_firstn (w : world) (names : list string) (a b : nat) :
  (a <= b)%nat ->
  0 <= blocks_needed w (firstn a names) <= blocks_needed w (firstn b names)
  /\ blocks_needed w (firstn b names) <= blocks_needed w names.
Proof.
  intros Hab.
  pose proof (blocks_needed_nonneg w (firstn a names)) as H0.
  pose proof (blocks_needed_nonneg w (skipn a (firstn b names))) as H1.
  pose proof (blocks_needed_nonneg w (skipn b names)) as H2.
  pose proof (blocks_needed_app w (firstn a (firstn b names))
                (skipn a (firstn b names))) as E1.
  rewrite firstn_skipn in E1. rewrite firstn_firstn in E1.
  replace (Nat.min a b) with a in E1 by lia.
  pose proof (blocks_needed_app w (firstn b names) (skipn b names)) as E2.
  rewrite firstn_skipn in E2. lia.
Qed.

Lemma blocks_needed_firstn_S (w : world) (names : list string) :
  forall (k : nat) (name : string) (fd : stream),
    nth_error names k = Some name -> w name = Some fd ->
    blocks_needed w (firstn (S k) names)
    = blocks_needed w (firstn k names)
      + (1 + (Z.of_nat (length (pending fd)) + 8) / 512).
Proof.
  induction names as [|n0 names IH]; intros k name fd Hk Hw.
  - destruct k; discriminate.
  - destruct k as [|k].
    + cbn in Hk. inversion Hk; subst n0.
      cbn [firstn blocks_needed]. rewrite Hw. lia.
    + cbn [nth_error] in Hk.
      change (firstn (S (S k)) (n0 :: names)) with (n0 :: firstn (S k) names).
      change (firstn (S k) (n0 :: names)) with (n0 :: firstn k names).
      cbn [blocks_needed]. rewrite (IH k name fd Hk Hw). lia.
Qed.

(** Where a run that returns 0 has put the files: the chain of file [k]
    starts below the blocks of the files before it. *)
Lemma run_chains (w : world) (argv : list string) (xs : list Z) (img : image) :
  main w argv = Ok (xs, img) ->
  exists N : Z,
    nBlocks_of img = N /\ root img = N - 1
    /\ 3 <= N /\ 2 <= lastAvail_of N /\ 512 + 4 * N <= 512 * lastAvail_of N
    /\ blocks_needed w (skipn 3 argv) <= N - lastAvail_of N - 1
    /\ free_list img
       = down_from (N - 2 - blocks_needed w (skipn 3 argv))
           (Z.to_nat (N - lastAvail_of N - 1 - blocks_needed w (skipn 3 argv)))
    /\ forall (k : nat) (name : string) (fd : stream),
         nth_error (skipn 3 argv) k = Some name -> w name = Some fd ->
         entry_start img (N - 1) (Z.of_nat k)
         = N - 2 - blocks_needed w (firstn k (skipn 3 argv))
         /\ chain_of img (entry_start img (N - 1) (Z.of_nat k))
            = down_from (N - 2 - blocks_needed w (firstn k (skipn 3 argv)))
                (Z.to_nat (1 + (Z.of_nat (length (pending fd)) + 8) / 512)).
Proof.
  intros H.
  destruct (run_layout w argv xs img H)
    as (N & Hatoi & HN & Hmax & Hlo & Hlen & Hnb & Hroot & Hpart & Hcount).
  destruct (run_facts w argv xs img H)
    as (N2 & c & Hatoi2 & _ & _ & _ & _ & _ & _ & _ & _ & Hxs & _ & _ & Hc
        & _ & Hall).
  assert (E : N2 = N) by congruence. rewrite E in *. clear E Hatoi2.
  destruct (lastAvail_layout N ltac:(lia) Hmax) as (_ & _ & _ & _ & Hfit & _).
  pose proof Hpart as Hsize. apply (f_equal (@length Z)) in Hsize.
  rewrite length_down_from in Hsize. cbn [length] in Hsize.
  rewrite length_app in Hsize.
  replace (Z.to_nat (N - lastAvail_of N))
    with (S (Z.to_nat (N - 1 - lastAvail_of N))) in Hpart by lia.
  cbn [down_from] in Hpart. injection Hpart as Hpart.
  replace (N - 1 - 1) with (N - 2) in Hpart by lia.
  rewrite flat_map_concat_map in Hpart, Hcount, Hsize.
  destruct (down_from_parts _ _ _ _ Hpart) as [Hk Hrest].
  assert (Hper : forall (j : nat) (name : string),
             nth_error (skipn 3 argv) j = Some name ->
             exists (fd : stream) (x : Z),
               w name = Some fd /\ nth_error xs j = Some x
               /\ Z.of_nat (length (chain_of img x))
                  = 1 + (Z.of_nat (length (pending fd)) + 8) / 512).
  { intros j name Hj. destruct (Hall j name Hj) as (fd & x & Hw & Hx & _ & Hfok).
    exists fd, x. split; [exact Hw|]. split; [exact Hx|].
    apply (file_ok_chain_of img N c fd x Hfok ltac:(lia) Hlen). }
  exists N. split; [exact Hnb|]. split; [exact Hroot|]. split; [exact HN|].
  split; [lia|]. split; [exact Hfit|]. split; [lia|]. split.
  { rewrite Hrest, Hcount. f_equal. lia. }
  intros k name fd Hname Hw.
  destruct (Hall k name Hname) as (fd' & x & Hw' & Hx & [_ Hs] & Hfok).
  assert (E : fd' = fd) by congruence. rewrite E in *. clear E Hw'.
  rewrite Hs.
  destruct (file_ok_chain_of img N c fd x Hfok ltac:(lia) Hlen) as (Hch & Hn & _).
  pose proof (Hk k (chain_of img x) (map_nth_error _ _ _ Hx)) as Ek.
  rewrite (blocks_of_prefix w (chain_of img) (skipn 3 argv) xs Hxs Hper k) in Ek.
  replace (length (chain_of img x))
    with (Z.to_nat (1 + (Z.of_nat (length (pending fd)) + 8) / 512)) in Ek by lia.
  split; [|exact Ek].
  assert (Hpos : 0 <= (Z.of_nat (length (pending fd)) + 8) / 512)
    by (Z.to_euclidean_division_equations; lia).
  replace (Z.to_nat (1 + (Z.of_nat (length (pending fd)) + 8) / 512))
    with (S (Z.to_nat ((Z.of_nat (length (pending fd)) + 8) / 512))) in Ek by lia.
  cbn [down_from] in Ek.
  destruct (chain_start _ _ _ _ _ Hch) as [[_ E0]|[_ (l0 & E0)]];
    rewrite E0 in Ek; [discriminate|].
  injection Ek as Ek _. exact Ek.
Qed.

(** X1.  The blocks of an image.  In a run that succeeds the start blocks
    that [oneFile] returned are those the directory entries name, and the
    blocks [N - 1], [N - 2], ..., [lastAvail] are, in this order: the root
    block, then the chain of each file, in the order of the arguments, then
    the free list that is left.  Every block from [lastAvail] on is thus
    the root block, a block of exactly one file, or free. *)
Theorem run_blocks_partition (w : world) (argv : list string) (xs : list Z)
    (img : image) :
  main w argv = Ok (xs, img) ->
  let N := nBlocks_of img in
  xs = dir_starts img (length (skipn 3 argv))
  /\ down_from (N - 1) (Z.to_nat (N - lastAvail_of N))
     = root img :: flat_map (chain_of img) xs ++ free_list img.
Proof.
  intros H N.
  destruct (run_layout w argv xs img H)
    as (N' & _ & _ & _ & _ & _ & Hnb & Hroot & Hpart & _).
  unfold N. rewrite Hnb, Hroot. split; [|exact Hpart].
  destruct (run_facts w argv xs img H)
    as (N2 & c & _ & _ & _ & _ & Hnb2 & Hroot2 & _ & _ & _ & Hxs & _ & _ & _ & _ & Hall).
  unfold dir_starts.
  apply nth_ext with (d := 0) (d' := 0).
  - rewrite length_map, length_seq. exact Hxs.
  - intros k Hk.
    destruct (nth_error (skipn 3 argv) k) as [name|] eqn:Hname.
    2:{ apply nth_error_None in Hname. lia. }
    destruct (Hall k name Hname) as (fd & x & _ & Hx & [_ Hs] & _).
    rewrite (nth_error_nth _ _ 0 Hx).
    rewrite nth_indep with (d' := (fun k => entry_start img (root img) (Z.of_nat k)) 0%nat)
      by (rewrite length_map, length_seq; lia).
    rewrite map_nth with (f := fun k => entry_start img (root img) (Z.of_nat k)).
    rewrite seq_nth by lia. cbn [plus]. rewrite Hroot2. symmetry. exact Hs.
Qed.

Lemma run_blocks_partition_demo :
  let img := run_img demo_world demo_argv in
  let xs := run_xs demo_world demo_argv in
  let N := nBlocks_of img in
  xs = dir_starts img (length (skipn 3 demo_argv))
  /\ down_from (N - 1) (Z.to_nat (N - lastAvail_of N))
     = root img :: flat_map (chain_of img) xs ++ free_list img.
Proof.
  apply (run_blocks_partition demo_world demo_argv).
  apply run_ok. vm_compute. reflexivity.
Defined.

(** X2.  Where everything is.  In a run that succeeds the files lie one
    below the other from block [N - 2] down, without gaps: the chain of
    file [k] is the [1 + (size + 8) / 512] blocks that follow, downwards,
    the blocks of the files before it; the free list is the blocks below
    the last file, down to [lastAvail]; [avail] is the first of them, or 0
    when none is left. *)
Theorem run_exact_layout (w : world) (argv : list string) (xs : list Z)
    (img : image) :
  main w argv = Ok (xs, img) ->
  let N := nBlocks_of img in
  let names := skipn 3 argv in
  (forall (k : nat) (name : string) (fd : stream),
      nth_error names k = Some name -> w name = Some fd ->
      chain_of img (entry_start img (root img) (Z.of_nat k))
      = down_from (N - 2 - blocks_needed w (firstn k names))
          (Z.to_nat (1 + (Z.of_nat (length (pending fd)) + 8) / 512)))
  /\ free_list img
     = down_from (N - 2 - blocks_needed w names)
         (Z.to_nat (N - lastAvail_of N - 1 - blocks_needed w names))
  /\ avail img
     = (if blocks_needed w names <? N - lastAvail_of N - 1
        then N - 2 - blocks_needed w names else 0).
Proof.
  intros H N names.
  destruct (run_chains w argv xs img H)
    as (N' & Hnb & Hroot & HN & Hlo & Hfit & Hfits & Hfl & Hpos).
  unfold N. rewrite Hnb, Hroot. clear N. fold names in Hfits, Hfl, Hpos.
  split; [|split; [exact Hfl|]].
  - intros k name fd Hk Hw. apply (Hpos k name fd Hk Hw).
  - destruct (run_facts w argv xs img H)
      as (N2 & c & _ & _ & _ & Hlen & Hnb2 & _ & _ & _ & _ & _ & _ & _ & Hc
          & (l' & Hfree) & _).
    assert (E : N2 = N') by congruence. rewrite E in *. clear E Hnb2.
    pose proof (chain_of_eq img N' (lastAvail_of N') c _ l' Hfree ltac:(lia)
                  ltac:(lia) Hlen) as El.
    fold (free_list img) in El.
    destruct (chain_head _ _ _ _ _ Hfree ltac:(lia)) as [Hhd _].
    rewrite Hhd, <- El, Hfl.
    destruct (Z.ltb_spec (blocks_needed w names)
                (N' - lastAvail_of N' - 1)) as [Hlt|Hge].
    + replace (Z.to_nat (N' - lastAvail_of N' - 1 - blocks_needed w names))
        with (S (Z.to_nat (N' - lastAvail_of N' - 2 - blocks_needed w names)))
        by lia.
      reflexivity.
    + replace (Z.to_nat (N' - lastAvail_of N' - 1 - blocks_needed w names))
        with 0%nat by lia.
      reflexivity.
Qed.

Lemma run_exact_layout_demo :
  let img := run_img demo_world demo_argv in
  let N := nBlocks_of img in
  let names := skipn 3 demo_argv in
  (forall (k : nat) (name : string) (fd : stream),
      nth_error names k = Some name -> demo_world name = Some fd ->
      chain_of img (entry_start img (root img) (Z.of_nat k))
      = down_from (N - 2 - blocks_needed demo_world (firstn k names))
          (Z.to_nat (1 + (Z.of_nat (length (pending fd)) + 8) / 512)))
  /\ free_list img
     = down_from (N - 2 - blocks_needed demo_world names)
         (Z.to_nat (N - lastAvail_of N - 1 - blocks_needed demo_world names))
  /\ avail img
     = (if blocks_needed demo_world names <? N - lastAvail_of N - 1
        then N - 2 - blocks_needed demo_world names else 0).
Proof.
  apply (run_exact_layout demo_world demo_argv (run_xs demo_world demo_argv)).
  apply run_ok. vm_compute. reflexivity.
Defined.

(** X3.  In a run that succeeds every block of a file lies between
    [lastAvail] and the root block and above every free block, and the
    blocks of a file packed later lie below those of a file packed
    earlier: no two files share a block. *)
Theorem run_blocks_ordered (w : world) (argv : list string) (xs : list Z)
    (img : image) :
  main w argv = Ok (xs, img) ->
  (forall (k : nat) (x b : Z),
      nth_error xs k = Some x -> In b (chain_of img x) ->
      lastAvail_of (nBlocks_of img) <= b < root img
      /\ forall f, In f (free_list img) -> f < b)
  /\ (forall (k1 k2 : nat) (x1 x2 b1 b2 : Z),
         (k1 < k2)%nat ->
         nth_error xs k1 = Some x1 -> nth_error xs k2 = Some x2 ->
         In b1 (chain_of img x1) -> In b2 (chain_of img x2) ->
         b2 < b1).
Proof.
  intros H.
  destruct (run_layout w argv xs img H)
    as (N & _ & HN & _ & Hlo & _ & Hnb & Hroot & Hpart & _).
  rewrite Hnb, Hroot.
  pose proof (sorted_down_from (N - 1) (Z.to_nat (N - lastAvail_of N))) as HS.
  rewrite Hpart in HS. apply StronglySorted_inv in HS. destruct HS as [HS Hhead].
  rewrite Forall_forall in Hhead.
  split.
  - intros k x b Hx Hb.
    assert (Hin : In b (flat_map (chain_of img) xs)).
    { apply in_flat_map. exists x. split; [|exact Hb].
      apply (nth_error_In _ _ Hx). }
    assert (Hall : In b (down_from (N - 1) (Z.to_nat (N - lastAvail_of N)))).
    { rewrite Hpart. right. apply in_or_app. left. exact Hin. }
    apply In_down_from in Hall.
    specialize (Hhead b ltac:(apply in_or_app; left; exact Hin)).
    split; [lia|]. intros f Hf. apply (sorted_app_gt _ _ HS b f Hin Hf).
  - intros k1 k2 x1 x2 b1 b2 Hk Hx1 Hx2 Hb1 Hb2.
    destruct (nth_error_split _ _ Hx1) as (l1 & l2 & -> & Hl1).
    rewrite nth_error_app2 in Hx2 by lia.
    replace (k2 - length l1)%nat with (S (k2 - length l1 - 1))%nat in Hx2 by lia.
    cbn [nth_error] in Hx2.
    rewrite flat_map_app in HS. cbn [flat_map] in HS.
    rewrite <- app_assoc in HS. apply sorted_app_r in HS.
    rewrite <- app_assoc in HS.
    apply (sorted_app_gt _ _ HS b1 b2 Hb1).
    apply in_or_app. left. apply in_flat_map. exists x2.
    split; [apply (nth_error_In _ _ Hx2)|exact Hb2].
Qed.

Lemma run_blocks_ordered_demo :
  let img := run_img demo_world demo_argv in
  let xs := run_xs demo_world demo_argv in
  (forall (k : nat) (x b : Z),
      nth_error xs k = Some x -> In b (chain_of img x) ->
      lastAvail_of (nBlocks_of img) <= b < root img
      /\ forall f, In f (free_list img) -> f < b)
  /\ (forall (k1 k2 : nat) (x1 x2 b1 b2 : Z),
         (k1 < k2)%nat ->
         nth_error xs k1 = Some x1 -> nth_error xs k2 = Some x2 ->
         In b1 (chain_of img x1) -> In b2 (chain_of img x2) ->
         b2 < b1).
Proof.
  apply (run_blocks_ordered demo_world demo_argv).
  apply run_ok. vm_compute. reflexivity.
Defined.

(** X4.  Reading back, for any run that succeeds: the root block has the
    tag 2 and the length [16 * nFiles]; entry [k] holds the base name of
    file argument [k] as [strncpy] leaves it, and the block it names starts
    a file of tag 1 whose length field, and whose bytes read along the
    chain, are those of the file. *)
Theorem read_back_any_run (w : world) (argv : list string) (xs : list Z)
    (img : image) (k : nat) (name : string) (fd : stream) :
  main w argv = Ok (xs, img) ->
  nth_error (skipn 3 argv) k = Some name ->
  w name = Some fd ->
  let r := root img in
  let x := entry_start img r (Z.of_nat k) in
  file_tag img r = 2
  /\ file_length img r = 16 * Z.of_nat (length (skipn 3 argv))
  /\ entry_name img r (Z.of_nat k) = strncpy_bytes 12 (basename name)
  /\ file_tag img x = 1
  /\ file_length img x = Z.of_nat (length (pending fd))
  /\ file_content img x = pending fd.
Proof.
  intros H Hk Hw r x.
  destruct (run_facts w argv xs img H)
    as (N & c & _ & HN & Hmax & Hlen & _ & Hroot & Htag & Hflen & _ & _ & _ & _
        & Hc & _ & Hall).
  destruct (Hall k name Hk) as (fd' & x' & Hw' & _ & [Hn Hs] & Hfok).
  assert (E : fd' = fd) by congruence. rewrite E in *. clear E Hw'.
  destruct (lastAvail_layout N ltac:(lia) Hmax) as (_ & _ & _ & Hlo & _).
  unfold x, r. rewrite Hroot, Hs.
  split; [exact Htag|]. split; [exact Hflen|]. split; [exact Hn|].
  pose proof Hfok as (bs & _ & _ & Ht & Hl & _).
  split; [exact Ht|]. split; [exact Hl|].
  apply (file_ok_chain_of img N c fd x' Hfok ltac:(lia) Hlen).
Qed.

Lemma read_back_any_run_demo :
  let img := run_img demo_world demo_argv in
  let r := root img in
  let x := entry_start img r (Z.of_nat 1) in
  file_tag img r = 2
  /\ file_length img r = 16 * Z.of_nat (length (skipn 3 demo_argv))
  /\ entry_name img r (Z.of_nat 1) = strncpy_bytes 12 (basename "big.data")
  /\ file_tag img x = 1
  /\ file_length img x = Z.of_nat (length (pending big_data))
  /\ file_content img x = pending big_data.
Proof.
  apply (read_back_any_run demo_world demo_argv (run_xs demo_world demo_argv)
           (run_img demo_world demo_argv) 1 "big.data"%string big_data).
  - apply run_ok. vm_compute. reflexivity.
  - reflexivity.
  - reflexivity.
Defined.

(** What the set-up of lines 252-281 writes in the new image: the first
    12 bytes of the super block, which start with the magic number, and
    entries of the FAT. *)
Lemma main_format_frame (N : Z) :
  0 < N -> 512 * N <= INT_MAX ->
  only_changes (fun x => 0 <= x < 12 \/ 512 <= x < 512 + 4 * N)
    (fresh (512 * N)) (formatted N)
  /\ get_bytes (formatted N) 0 4 = [70; 52; 51; 57].
Proof.
  intros HN Hmax.
  destruct (lastAvail_layout N HN Hmax) as (_ & _ & _ & Hlo & Hfit & _).
  unfold INT_MAX in Hmax. unfold formatted, main_format.
  replace (N * 512) with (512 * N) by lia.
  fold (lastAvail_of N). set (lo := lastAvail_of N) in *.
  set (m0 := fresh (512 * N)).
  set (m1 := put8 m0 (super_magic + 0) 70).
  set (m2 := put8 m1 (super_magic + 1) 52).
  set (m3 := put8 m2 (super_magic + 2) 51).
  set (m4 := put8 m3 (super_magic + 3) 57).
  set (m5 := put32 m4 super_nBlocks (u32 N)).
  set (m6 := put32 m5 super_avail (u32 (N - 1))).
  assert (L6 : mapLength m6 = 512 * N) by reflexivity.
  rewrite (bind_ok _ _ m0 m1 tt)
    by (apply store8_ok; unfold super_magic, super_nBlocks, super_avail;
        [lia|change (mapLength m0) with (512 * N); lia]).
  rewrite (bind_ok _ _ m1 m2 tt)
    by (apply store8_ok; unfold super_magic, super_nBlocks, super_avail;
        [lia|change (mapLength m1) with (512 * N); lia]).
  rewrite (bind_ok _ _ m2 m3 tt)
    by (apply store8_ok; unfold super_magic, super_nBlocks, super_avail;
        [lia|change (mapLength m2) with (512 * N); lia]).
  rewrite (bind_ok _ _ m3 m4 tt)
    by (apply store8_ok; unfold super_magic, super_nBlocks, super_avail;
        [lia|change (mapLength m3) with (512 * N); lia]).
  rewrite (bind_ok _ _ m4 m5 tt)
    by (apply store32_ok; unfold super_magic, super_nBlocks, super_avail;
        [lia|change (mapLength m4) with (512 * N); lia]).
  rewrite (bind_ok _ _ m5 m6 tt)
    by (apply store32_ok; unfold super_magic, super_nBlocks, super_avail;
        [lia|change (mapLength m5) with (512 * N); lia]).
  rewrite (bind_ok _ _ m6 m6 (get32 m6 super_avail))
    by (apply load32_ok; unfold super_avail; [lia|rewrite L6; lia]).
  assert (A6 : get32 m6 super_avail = N - 1).
  { unfold m6. rewrite get32_put32. rewrite !u32_small; try lia.
    rewrite u32_small; lia. }
  assert (C46 : only_changes (fun x => 4 <= x < 12) m4 m6).
  { eapply only_changes_trans; [apply put32_changes|apply put32_changes|].
    unfold super_nBlocks, super_avail. cbv beta. intros x. lia. }
  assert (C6 : only_changes (fun x => 0 <= x < 12) m0 m6).
  { eapply only_changes_trans; [|exact C46|].
    - eapply only_changes_trans; [|apply put8_changes|].
      + eapply only_changes_trans; [|apply put8_changes|].
        * eapply only_changes_trans; [apply put8_changes|apply put8_changes|].
          intros x Hx. exact Hx.
        * intros x Hx. exact Hx.
      + intros x Hx. exact Hx.
    - unfold super_magic. cbv beta. intros x. lia. }
  assert (M4 : get_bytes m4 0 4 = [70; 52; 51; 57]) by reflexivity.
  assert (M6 : get_bytes m6 0 4 = [70; 52; 51; 57]).
  { rewrite <- M4. apply (get_bytes_unchanged _ _ _ _ _ C46).
    cbv beta. intros x Hx. lia. }
  rewrite A6.
  destruct (Z_le_gt_dec (N - 1) lo) as [Hle|Hgt].
  - replace (Z.to_nat (N - 1 - lo)) with 0%nat by lia. cbn [init_fat ret].
    split; [|exact M6].
    apply (only_changes_weaken _ _ _ _ C6). cbv beta. intros x. lia.
  - destruct (init_fat_spec (Z.to_nat (N - 1 - lo)) (N - 1) m6) as (m' & R & Hc & _);
      [lia|lia|rewrite L6; unfold fat_at; lia|].
    rewrite R. split.
    + eapply only_changes_trans; [exact C6|exact Hc|].
      unfold fat_at. cbv beta. intros x. lia.
    + rewrite <- M6. apply (get_bytes_unchanged _ _ _ _ _ Hc).
      unfold fat_at. cbv beta. intros x Hx. lia.
Qed.

(** X5.  In a run that succeeds the image starts with the magic number
    ['F' '4' '3' '9'], the bytes 16..511 of the super block are 0, and the
    FAT entries of the super block and of the blocks of the FAT are 0: no
    chain enters them. *)
Theorem run_super_block (w : world) (argv : list string) (xs : list Z)
    (img : image) :
  main w argv = Ok (xs, img) ->
  get_bytes img 0 4 = [70; 52; 51; 57]
  /\ (forall x, 16 <= x < 512 -> cell img x = 0)
  /\ (forall j, 0 <= j < lastAvail_of (nBlocks_of img) -> fat img j = 0).
Proof.
  intros H.
  destruct (run_parts w argv xs img H)
    as (N & m4 & Hatoi & HN & Hmax & Hlo & Hfit & L4 & Hfree & C4 & F).
  destruct (run_facts w argv xs img H)
    as (N' & c & Hatoi' & _ & _ & _ & Hnb & _).
  assert (E : N' = N) by congruence. rewrite E in *. clear E Hatoi'.
  rewrite Hnb.
  destruct (main_format_frame N ltac:(lia) Hmax) as (C0 & Hmagic).
  pose proof (main_files_spec N (lastAvail_of N) ltac:(lia) ltac:(lia) Hfit Hmax
                (N - 1) w (skipn 3 argv) ltac:(lia) 0 m4 (N - 1) _
                ltac:(lia) ltac:(lia) L4 Hfree) as P.
  rewrite F in P. cbn [files_post] in P. destruct P as (_ & _ & _ & C & _).
  assert (Call : only_changes
                   (fun y => 8 <= y < 16 \/ 512 + 4 * lastAvail_of N <= y)
                   (formatted N) img).
  { eapply only_changes_trans; [exact C4|exact C|].
    unfold files_touch, file_touch, fat_at. cbv beta. intros y. lia. }
  split; [|split].
  - rewrite <- Hmagic. apply (get_bytes_unchanged _ _ _ _ _ Call).
    cbv beta. intros y Hy. lia.
  - intros x Hx. destruct Call as [_ Call]. rewrite Call by (cbv beta; lia).
    destruct C0 as [_ C0]. rewrite C0 by (cbv beta; lia). reflexivity.
  - intros j Hj. unfold fat.
    rewrite (get32_unchanged _ _ _ _ Call)
      by (unfold fat_at; cbv beta; intros y Hy; lia).
    destruct (formatted_spec N ltac:(lia) Hmax) as (_ & _ & _ & _ & _ & H0).
    apply H0. lia.
Qed.

Lemma run_super_block_demo :
  let img := run_img demo_world demo_argv in
  get_bytes img 0 4 = [70; 52; 51; 57]
  /\ (forall x, 16 <= x < 512 -> cell img x = 0)
  /\ (forall j, 0 <= j < lastAvail_of (nBlocks_of img) -> fat img j = 0).
Proof.
  apply (run_super_block demo_world demo_argv (run_xs demo_world demo_argv)).
  apply run_ok. vm_compute. reflexivity.
Defined.

(** ** The outcome of a run *)







(** ** [getBlock] and [oneFile] on any image *)

Lemma free_inv_formatted (N : Z) :
  3 <= N -> 512 * N <= INT_MAX -> free_inv N (lastAvail_of N) (formatted N).
Proof.
  intros HN Hmax.
  destruct (lastAvail_layout N ltac:(lia) Hmax) as (_ & _ & _ & Hlo & _ & Hle).
  destruct (formatted_spec N ltac:(lia) Hmax) as (_ & Hlen & _).
  split; [exact Hlen|].
  exists N, (down_from (N - 1) (Z.to_nat (N - lastAvail_of N))).
  split; [lia|]. apply formatted_chain; assumption.
Qed.

(** X8.  [getBlock] takes the head of the free list.  On an image whose
    free list is a chain it fails exactly when the list is empty; otherwise
    it returns the first block [b], which is [avail], leaves the rest as
    the free list, sets [fat[b]] to 0 and writes nothing but [avail] and
    [fat[b]]. *)
Theorem getBlock_pops_head (N : Z) (m : image) :
  0 < N -> 512 * N <= INT_MAX -> free_inv N (lastAvail_of N) m ->
  match free_list m with
  | [] => getBlock m = Err DiskFull
  | b :: rest =>
      b = avail m
      /\ exists m',
           getBlock m = Ok (b, m')
           /\ free_list m' = rest
           /\ fat m' b = 0
           /\ only_changes (alloc_touch b) m m'
           /\ free_inv N (lastAvail_of N) m'
  end.
Proof.
  intros HN Hmax (Hlen & hi & l & Hhi & Hch).
  destruct (lastAvail_layout N HN Hmax) as (_ & _ & _ & Hlo & Hfit & _).
  unfold free_list.
  rewrite (chain_of_eq m N (lastAvail_of N) hi _ l Hch ltac:(lia) ltac:(lia) Hlen).
  pose proof (getBlock_spec N (lastAvail_of N) HN Hlo Hfit Hmax m hi l
                ltac:(lia) Hlen Hch) as G.
  destruct l as [|b rest]; [exact G|].
  destruct G as (m' & G & Hlen' & Hch' & Hfat & Hc).
  assert (Hb : lastAvail_of N <= b < hi) by (inversion Hch; assumption).
  split; [inversion Hch; reflexivity|].
  exists m'. split; [exact G|]. split.
  { apply (chain_of_eq m' N (lastAvail_of N) b _ rest Hch'); [lia|lia|exact Hlen']. }
  split; [exact Hfat|]. split; [exact Hc|].
  split; [exact Hlen'|]. exists b, rest. split; [lia|exact Hch'].
Qed.

Lemma getBlock_pops_head_8 :
  match free_list (formatted 8) with
  | [] => getBlock (formatted 8) = Err DiskFull
  | b :: rest =>
      b = avail (formatted 8)
      /\ exists m',
           getBlock (formatted 8) = Ok (b, m')
           /\ free_list m' = rest
           /\ fat m' b = 0
           /\ only_changes (alloc_touch b) (formatted 8) m'
           /\ free_inv 8 (lastAvail_of 8) m'
  end.
Proof.
  apply (getBlock_pops_head 8 (formatted 8)).
  - lia.
  - unfold INT_MAX. lia.
  - apply free_inv_formatted; unfold INT_MAX; lia.
Defined.

(** X9.  [oneFile] on any image whose free list is a chain, for a file
    that opens and whose reads do not fail.  With fewer free blocks than
    [1 + (size + 8) / 512] it ends with "disk is full"; otherwise it
    returns the head of the free list, the chain of the file followed by
    the free list it leaves is the free list it found, and the tag, the
    length and the bytes read back are those of the file. *)
Theorem oneFile_outcome (N : Z) (w : world) (name : string) (fd : stream)
    (m : image) :
  0 < N -> 512 * N <= INT_MAX -> free_inv N (lastAvail_of N) m ->
  w name = Some fd -> ~ In RdFail (sched fd) ->
  let need := 1 + (Z.of_nat (length (pending fd)) + 8) / 512 in
  let free := Z.of_nat (length (free_list m)) in
  (free < need -> oneFile w name m = Err DiskFull)
  /\ (need <= free ->
      exists m',
        oneFile w name m = Ok (avail m, m')
        /\ free_list m = chain_of m' (avail m) ++ free_list m'
        /\ Z.of_nat (length (chain_of m' (avail m))) = need
        /\ file_tag m' (avail m) = 1
        /\ file_length m' (avail m) = Z.of_nat (length (pending fd))
        /\ file_content m' (avail m) = pending fd
        /\ free_inv N (lastAvail_of N) m').
Proof.
  intros HN Hmax (Hlen & hi & l & Hhi & Hch) Hw Hrd need free.
  destruct (lastAvail_layout N HN Hmax) as (_ & _ & _ & Hlo & Hfit & _).
  assert (El : free_list m = l).
  { apply (chain_of_eq m N (lastAvail_of N) hi _ l Hch); [lia|lia|exact Hlen]. }
  unfold free. rewrite El.
  pose proof (oneFile_spec N (lastAvail_of N) HN Hlo Hfit Hmax w name fd m hi l
                Hw ltac:(lia) Hlen Hch) as F.
  destruct (oneFile w name m) as [[x m']|e]; cbn [file_post] in F.
  - destruct F as (bs & l' & c & E & Hc & Hxhi & Hlen' & Hfile & Hfree & Hcount
                   & Htag & Hflen & Hdata & _).
    assert (Hx : x = avail m) by (rewrite E in Hch; inversion Hch; reflexivity).
    rewrite <- Hx.
    assert (Ef : chain_of m' x = x :: bs).
    { apply (chain_of_eq m' N c (x + 1) x (x :: bs) Hfile); [lia|lia|exact Hlen']. }
    assert (El' : free_list m' = l').
    { apply (chain_of_eq m' N (lastAvail_of N) c _ l' Hfree); [lia|lia|exact Hlen']. }
    split.
    + intros Hfull. exfalso. rewrite E in Hfull. unfold need in Hfull.
      rewrite <- Hcount in Hfull. cbn [length] in Hfull.
      rewrite length_app in Hfull. lia.
    + intros _. exists m'. split; [reflexivity|].
      rewrite Ef, El'. split; [exact E|]. split; [exact Hcount|].
      split; [exact Htag|]. split; [exact Hflen|]. split.
      * unfold file_content. rewrite Ef, Hflen, Nat2Z.id. exact Hdata.
      * split; [exact Hlen'|]. exists c, l'. split; [lia|exact Hfree].
  - destruct F as [[-> F]|[_ F]]; [|contradiction].
    split; [reflexivity|]. intros Hfit'. unfold need in Hfit'. lia.
Qed.

Lemma oneFile_outcome_8 :
  let need := 1 + (Z.of_nat (length (pending big_data)) + 8) / 512 in
  let free := Z.of_nat (length (free_list (formatted 8))) in
  (free < need -> oneFile demo_world "big.data" (formatted 8) = Err DiskFull)
  /\ (need <= free ->
      exists m',
        oneFile demo_world "big.data" (formatted 8)
        = Ok (avail (formatted 8), m')
        /\ free_list (formatted 8)
           = chain_of m' (avail (formatted 8)) ++ free_list m'
        /\ Z.of_nat (length (chain_of m' (avail (formatted 8)))) = need
        /\ file_tag m' (avail (formatted 8)) = 1
        /\ file_length m' (avail (formatted 8))
           = Z.of_nat (length (pending big_data))
        /\ file_content m' (avail (formatted 8)) = pending big_data
        /\ free_inv 8 (lastAvail_of 8) m').
Proof.
  apply (oneFile_outcome 8 demo_world "big.data" big_data (formatted 8)).
  - lia.
  - unfold INT_MAX. lia.
  - apply free_inv_formatted; unfold INT_MAX; lia.
  - reflexivity.
  - cbn. intros [H|[H|[]]]; discriminate.
Defined.

(** X10.  What [oneFile] leaves alone.  It writes [avail], and FAT entries
    and blocks from [lastAvail] up to the block it returns, and nothing
    else: the magic number, [nBlocks], [root], and the FAT entry and the
    512 bytes of every block above the one it returns are as before.  The
    files packed earlier and the root block are not touched. *)
Theorem oneFile_writes_below (N : Z) (w : world) (name : string)
    (m m' : image) (x : Z) :
  0 < N -> 512 * N <= INT_MAX -> free_inv N (lastAvail_of N) m ->
  oneFile w name m = Ok (x, m') ->
  x = avail m
  /\ only_changes (file_touch (lastAvail_of N) x) m m'
  /\ get_bytes m' 0 8 = get_bytes m 0 8
  /\ root m' = root m
  /\ (forall b, x < b < N ->
        fat m' b = fat m b
        /\ get_bytes m' (512 * b) 512 = get_bytes m (512 * b) 512).
Proof.
  intros HN Hmax (Hlen & hi & l & Hhi & Hch) H.
  destruct (lastAvail_layout N HN Hmax) as (_ & _ & _ & Hlo & Hfit & _).
  destruct (w name) as [fd|] eqn:Hw.
  2:{ rewrite (oneFile_closed w name m Hw) in H. discriminate. }
  pose proof (oneFile_spec N (lastAvail_of N) HN Hlo Hfit Hmax w name fd m hi l
                Hw ltac:(lia) Hlen Hch) as F.
  rewrite H in F. cbn [file_post] in F.
  destruct F as (bs & l' & c & E & Hc & Hxhi & _ & _ & _ & _ & _ & _ & _ & C).
  split; [rewrite E in Hch; inversion Hch; reflexivity|]. split; [exact C|].
  split; [|split].
  - apply (get_bytes_unchanged _ _ _ _ _ C). unfold file_touch, fat_at.
    intros y Hy. lia.
  - apply (get32_unchanged _ _ _ _ C). unfold file_touch, fat_at, super_root.
    intros y Hy. lia.
  - intros b Hb. split.
    + apply (get32_unchanged _ _ _ _ C). unfold file_touch, fat_at.
      intros y Hy. lia.
    + apply (get_bytes_unchanged _ _ _ _ _ C). unfold file_touch, fat_at.
      intros y Hy. lia.
Qed.

Lemma oneFile_writes_below_8 :
  let r := oneFile demo_world "big.data" (formatted 8) in
  let x := value_of 0 r in
  let m' := image_of r in
  x = avail (formatted 8)
  /\ only_changes (file_touch (lastAvail_of 8) x) (formatted 8) m'
  /\ get_bytes m' 0 8 = get_bytes (formatted 8) 0 8
  /\ root m' = root (formatted 8)
  /\ (forall b, x < b < 8 ->
        fat m' b = fat (formatted 8) b
        /\ get_bytes m' (512 * b) 512 = get_bytes (formatted 8) (512 * b) 512).
Proof.
  apply (oneFile_writes_below 8 demo_world "big.data" (formatted 8)).
  - lia.
  - unfold INT_MAX. lia.
  - apply free_inv_formatted; unfold INT_MAX; lia.
  - apply ok_parts. vm_compute. reflexivity.
Defined.

(** X11.  The order of the checks of [oneFile]: a file that does not open
    ends the run whatever the free list; with an empty free list the run
    ends with "disk is full" before the file is read; with a free block
    and a first [read] that fails it ends with the read error. *)
Theorem oneFile_error_order (N : Z) (w : world) (name : string) (m : image) :
  0 < N -> 512 * N <= INT_MAX -> free_inv N (lastAvail_of N) m ->
  (w name = None -> oneFile w name m = Err OpenFailed)
  /\ (forall fd, w name = Some fd -> free_list m = [] ->
        oneFile w name m = Err DiskFull)
  /\ (forall fd s, w name = Some fd -> free_list m <> [] ->
        sched fd = RdFail :: s ->
        oneFile w name m = Err ReadFailed).
Proof.
  intros HN Hmax (Hlen & hi & l & Hhi & Hch).
  destruct (lastAvail_layout N HN Hmax) as (_ & _ & _ & Hlo & Hfit & _).
  assert (El : free_list m = l).
  { apply (chain_of_eq m N (lastAvail_of N) hi _ l Hch); [lia|lia|exact Hlen]. }
  rewrite El.
  pose proof (getBlock_spec N (lastAvail_of N) HN Hlo Hfit Hmax m hi l
                ltac:(lia) Hlen Hch) as G.
  split; [apply oneFile_closed|]. split.
  - intros fd Hw ->. unfold oneFile. rewrite Hw.
    apply bind_err. exact G.
  - intros fd s Hw Hne Hs. unfold oneFile. rewrite Hw.
    destruct l as [|h l1]; [contradiction|].
    destruct G as (m1 & G & Hlen1 & _).
    assert (Hh : lastAvail_of N <= h < hi) by (inversion Hch; assumption).
    rewrite (bind_ok _ _ m m1 h) by exact G.
    rewrite (toPtr_small N (lastAvail_of N) HN Hlo Hfit Hmax) by lia.
    rewrite (bind_ok _ _ m1 (put32 m1 (u32 (512 * h + 0)) 1) tt).
    2:{ rewrite u32_small by (unfold INT_MAX in *; lia).
        apply store32_ok; lia. }
    apply bind_err. cbn [pack_loop]. change (512 - 8 =? 0) with false.
    unfold bind at 1. cbn [ret]. unfold read. rewrite Hs. reflexivity.
Qed.

Lemma oneFile_error_order_8 :
  (demo_world "absent"%string = None ->
   oneFile demo_world "absent" (formatted 8) = Err OpenFailed)
  /\ (forall fd, demo_world "absent"%string = Some fd -> free_list (formatted 8) = [] ->
        oneFile demo_world "absent" (formatted 8) = Err DiskFull)
  /\ (forall fd s, demo_world "absent"%string = Some fd -> free_list (formatted 8) <> [] ->
        sched fd = RdFail :: s ->
        oneFile demo_world "absent" (formatted 8) = Err ReadFailed).
Proof.
  apply (oneFile_error_order 8 demo_world "absent" (formatted 8)).
  - lia.
  - unfold INT_MAX. lia.
  - apply free_inv_formatted; unfold INT_MAX; lia.
Defined.

(** ** What a run writes *)

Lemma file_addr_in_block (h i j : Z) :
  512 * j <= i < 512 * j + 512 -> file_addr h i = 512 * (h - j) + (i - 512 * j).
Proof.
  intros H. unfold file_addr.
  assert (i / 512 = j) by (Z.to_euclidean_division_equations; lia).
  assert (i mod 512 = i - 512 * j) by (Z.to_euclidean_division_equations; lia).
  lia.
Qed.

Lemma file_addr_block (h j : Z) :
  0 <= j -> file_addr h j / 512 = h - j / 512.
Proof.
  intros Hj. unfold file_addr. Z.to_euclidean_division_equations. lia.
Qed.

Lemma file_addr_inj (h j j' : Z) :
  file_addr h j = file_addr h j' -> j = j'.
Proof.
  unfold file_addr. intros H. Z.to_euclidean_division_equations. lia.
Qed.

Section Exact.

Variables N lo : Z.
Hypothesis N_pos : 0 < N.
Hypothesis lo_min : 2 <= lo.
Hypothesis fat_fits : 512 + 4 * N <= 512 * lo.
Hypothesis N_max : 512 * N <= INT_MAX.

Ltac bounds :=
  cbv beta in *;
  unfold alloc_touch, fat_at, super_avail, super_root, INT_MAX in *;
  lia.

Lemma free_below_frame (P : Z -> Prop) (m m' : image) (c : Z) :
  free_below lo m c -> c <= N ->
  only_changes P m m' ->
  (forall x, 8 <= x < 12 -> ~ P x) ->
  (forall x, fat_at lo <= x < fat_at c -> ~ P x) ->
  free_below lo m' c.
Proof using Type.
  unfold free_below. intros H Hc C H8 Hf.
  replace (avail m') with (avail m).
  - apply chain_frame with (m := m); [exact H|].
    intros j Hj. apply (get32_unchanged _ _ _ _ C). intros x Hx. apply Hf.
    unfold fat_at in *. lia.
  - symmetry. apply (get32_unchanged _ _ _ _ C). intros x Hx. apply H8.
    unfold super_avail in *. lia.
Qed.

(** [getBlock] on a free list without gaps. *)
Lemma getBlock_below (m : image) (c : Z) (b : Z) (m' : image) :
  c <= N -> mapLength m = 512 * N -> free_below lo m c ->
  getBlock m = Ok (b, m') ->
  b = c - 1 /\ lo <= b
  /\ mapLength m' = 512 * N
  /\ free_below lo m' b
  /\ only_changes (alloc_touch b) m m'.
Proof using N_pos lo_min fat_fits N_max.
  intros Hc Hlen Hfree G.
  pose proof (getBlock_spec N lo N_pos lo_min fat_fits N_max m c _ Hc Hlen Hfree) as GS.
  destruct (Z_le_gt_dec c lo) as [Hle|Hgt].
  - replace (Z.to_nat (c - lo)) with 0%nat in GS by lia. cbn [down_from] in GS.
    congruence.
  - replace (Z.to_nat (c - lo)) with (S (Z.to_nat (c - 1 - lo))) in GS by lia.
    cbn [down_from] in GS. destruct GS as (m1 & G1 & Hlen1 & Hch1 & _ & C1).
    rewrite G1 in G. inversion G; subst b m1. clear G.
    split; [reflexivity|]. split; [lia|]. split; [exact Hlen1|].
    split; [|exact C1]. unfold free_below.
    exact Hch1.
Qed.

(** One turn of the loop of [oneFile], from the [read] on. *)
Lemma pack_turn_exact (fuel' : nat) (fd : stream) (h cur left off total : Z)
    (m m' : image) (u : unit) :
  (forall fd cur left off total m m' u,
      (length (pending fd) < fuel')%nat ->
      pack_at N lo h cur left off total m ->
      pack_loop fuel' fd (512 * h) cur left off total m = Ok (u, m') ->
      pack_done N lo fd h cur total m m') ->
  (length (pending fd) < S fuel')%nat ->
  pack_at N lo h cur left off total m ->
  0 < left ->
  (let '(n, buf, fd') := read fd left in
   if n <? 0 then fail ReadFailed
   else if n =? 0 then store32 (512 * h + 4) total
   else
     store_bytes (toPtr cur off) buf ;;;
     pack_loop fuel' fd' (512 * h) cur
       (u32 (left - n)) (u32 (off + n)) (u32 (total + n))) m = Ok (u, m') ->
  pack_done N lo fd h cur total m m'.
Proof using N_pos lo_min fat_fits N_max.
  intros IH Hfuel Hpre Hleft.
  pose proof Hpre as (Hlen & Hfree & Hcur & HhN & Hl & Hsum & Ht & Hpos).
  destruct (read fd left) as [[n buf] fd'] eqn:R.
  destruct (read_spec _ _ _ _ _ Hleft R)
    as [[E Hfail] | (Hn & Hbuf & Hpend & Hnil & Hsched)].
  { subst n. cbn. discriminate. }
  destruct (Z.ltb_spec n 0) as [|_]; [lia|].
  assert (Hplen : Z.of_nat (length (pending fd))
                  = n + Z.of_nat (length (pending fd'))).
  { rewrite Hpend, length_app. lia. }
  destruct (Z.eqb_spec n 0) as [En|Hn0].
  - (* end of input *)
    intros H. apply store32_inv in H. destruct H as (-> & _ & _).
    unfold pack_done. rewrite (Hnil En). cbn [length].
    replace ((8 + total + Z.of_nat 0) / 512) with (h - cur)
      by (Z.to_euclidean_division_equations; lia).
    replace (h - (h - cur)) with cur by lia.
    assert (C : only_changes (fun x => 512 * h + 4 <= x < 512 * h + 4 + 4) m
                  (put32 m (512 * h + 4) total)) by apply put32_changes.
    split; [exact Hlen|]. split; [|split; [lia|]].
    + apply (free_below_frame _ m _ cur Hfree ltac:(lia) C);
        intros x Hx; bounds.
    + apply (only_changes_weaken _ _ _ _ C). intros x Hx.
      unfold pack_writes. right. right. right. lia.
  - (* n bytes read *)
    rewrite (toPtr_small N lo N_pos lo_min fat_fits N_max) by lia.
    unfold bind at 1.
    destruct (store_bytes (512 * cur + off) buf m) as [[u1 m1]|e] eqn:S1;
      [|discriminate].
    apply store_bytes_inv in S1. destruct S1 as (E1 & _ & _).
    assert (C1 : only_changes
              (fun x => 512 * cur + off <= x < 512 * cur + off + n) m m1).
    { subst m1. rewrite <- Hbuf. apply put_bytes_changes. }
    rewrite (u32_small (left - n)), (u32_small (off + n)),
      (u32_small (total + n)) by bounds.
    intros H.
    assert (Hpre1 : pack_at N lo h cur (left - n) (off + n) (total + n) m1).
    { unfold pack_at. split; [subst m1; exact Hlen|]. split.
      { apply (free_below_frame _ m m1 cur Hfree ltac:(lia) C1);
          intros x Hx; bounds. }
      lia. }
    specialize (IH fd' cur (left - n) (off + n) (total + n) m1 m' u
                  ltac:(lia) Hpre1 H).
    unfold pack_done in *. cbv zeta in *.
    replace (8 + (total + n) + Z.of_nat (length (pending fd')))
      with (8 + total + Z.of_nat (length (pending fd))) in IH by lia.
    destruct IH as (Hlen' & Hfree' & Hc' & C2).
    split; [exact Hlen'|]. split; [exact Hfree'|]. split; [exact Hc'|].
    eapply only_changes_trans; [exact C1|exact C2|].
    intros x [Hx|Hx].
    + right. right. left. exists (x - 512 * cur - off + 8 + total).
      split; [lia|].
      rewrite (file_addr_in_block h _ (h - cur)) by lia. lia.
    + unfold pack_writes in *.
      destruct Hx as [Hx|[Hx|[(i & Hi & Hx)|Hx]]]; auto.
      right. right. left. exists i. split; [lia|exact Hx].
Qed.

Lemma pack_loop_exact (h : Z) (fuel : nat) :
  forall (fd : stream) (cur left off total : Z) (m m' : image) (u : unit),
    (length (pending fd) < fuel)%nat ->
    pack_at N lo h cur left off total m ->
    pack_loop fuel fd (512 * h) cur left off total m = Ok (u, m') ->
    pack_done N lo fd h cur total m m'.
Proof using N_pos lo_min fat_fits N_max.
  induction fuel as [|fuel' IH]; intros fd cur left off total m m' u Hfuel Hpre.
  - lia.
  - cbn [pack_loop].
    pose proof Hpre as (Hlen & Hfree & Hcur & HhN & Hl & Hsum & Ht & Hpos).
    destruct (Z.eqb_spec left 0) as [E0|Hne].
    + (* the block is full: take another one *)
      subst left. unfold bind at 1. unfold bind at 1.
      destruct (getBlock m) as [[b m1]|e] eqn:G; [|discriminate].
      destruct (getBlock_below m cur b m1 ltac:(lia) Hlen Hfree G)
        as (Eb & Hb & Hlen1 & Hfree1 & C1).
      unfold bind at 1.
      destruct (store32 (fat_at cur) b m1) as [[u2 m2]|e] eqn:S2; [|discriminate].
      apply store32_inv in S2. destruct S2 as (E2 & _ & _).
      assert (C2 : only_changes (fun x => fat_at cur <= x < fat_at cur + 4) m1 m2)
        by (subst m2; apply put32_changes).
      cbn [ret]. cbv beta iota.
      assert (Hpre2 : pack_at N lo h b 512 0 total m2).
      { unfold pack_at. split; [subst m2; exact Hlen1|]. split.
        { apply (free_below_frame _ m1 m2 b Hfree1 ltac:(lia) C2);
            intros x Hx; bounds. }
        lia. }
      intros H.
      pose proof (pack_turn_exact fuel' fd h b 512 0 total m2 m' u IH Hfuel Hpre2
                    ltac:(lia) H) as T.
      unfold pack_done in *. cbv zeta in *.
      destruct T as (Hlen' & Hfree' & Hc' & C3).
      split; [exact Hlen'|]. split; [exact Hfree'|]. split; [lia|].
      eapply only_changes_trans; [exact C1| |].
      * eapply only_changes_trans; [exact C2|exact C3|]. intros x Hx. exact Hx.
      * unfold pack_writes, alloc_touch. intros x [Hx|[Hx|Hx]].
        -- destruct Hx as [Hx|Hx]; [left; exact Hx|].
           right. left. unfold fat_at in *. lia.
        -- right. left. unfold fat_at in *. lia.
        -- destruct Hx as [Hx|[Hx|[Hx|Hx]]]; auto.
           right. left. unfold fat_at in *. lia.
    + (* room is left in the block *)
      rewrite (bind_ok _ _ m m (cur, off, left)) by reflexivity.
      apply (pack_turn_exact fuel' fd h cur left off total m m' u IH Hfuel Hpre).
      lia.
Qed.

(** [oneFile] on a free list without gaps. *)
Lemma oneFile_exact (w : world) (fileName : string) (fd : stream)
    (m : image) (hi : Z) (x : Z) (m' : image) :
  w fileName = Some fd ->
  hi <= N -> mapLength m = 512 * N -> free_below lo m hi ->
  oneFile w fileName m = Ok (x, m') ->
  let size := Z.of_nat (length (pending fd)) in
  x = hi - 1
  /\ mapLength m' = 512 * N
  /\ free_below lo m' (x - (8 + size) / 512)
  /\ lo <= x - (8 + size) / 512
  /\ only_changes (file_writes x size) m m'.
Proof using N_pos lo_min fat_fits N_max.
  intros Hw Hhi Hlen Hfree. unfold oneFile. rewrite Hw.
  unfold bind at 1.
  destruct (getBlock m) as [[b m1]|e] eqn:G; [|discriminate].
  destruct (getBlock_below m hi b m1 Hhi Hlen Hfree G)
    as (Eb & Hb & Hlen1 & Hfree1 & C1).
  rewrite (toPtr_small N lo N_pos lo_min fat_fits N_max) by lia.
  replace (u32 (512 * b + 0)) with (512 * b) by (rewrite u32_small; bounds).
  unfold bind at 1.
  destruct (store32 (512 * b) 1 m1) as [[u2 m2]|e] eqn:S2; [|discriminate].
  apply store32_inv in S2. destruct S2 as (E2 & _ & _).
  assert (C2 : only_changes (fun y => 512 * b <= y < 512 * b + 4) m1 m2)
    by (subst m2; apply put32_changes).
  change (512 - 8) with 504.
  assert (Hpre : pack_at N lo b b 504 8 0 m2).
  { unfold pack_at. split; [subst m2; exact Hlen1|]. split.
    { apply (free_below_frame _ m1 m2 b Hfree1 ltac:(lia) C2);
        intros y Hy; bounds. }
    lia. }
  unfold bind at 1.
  destruct (pack_loop (S (length (pending fd))) fd (512 * b) b 504 8 0 m2)
    as [[u3 m3]|e] eqn:P; [|discriminate].
  pose proof (pack_loop_exact b (S (length (pending fd))) fd b 504 8 0 m2 m3 u3
                ltac:(lia) Hpre P) as D.
  unfold pack_done in D. cbv zeta in D.
  replace (8 + 0 + Z.of_nat (length (pending fd)))
    with (8 + Z.of_nat (length (pending fd))) in D by lia.
  destruct D as (Hlen3 & Hfree3 & Hc3 & C3).
  cbn [ret]. intros H. inversion H; subst x m'. clear H. cbv zeta.
  split; [exact Eb|]. split; [exact Hlen3|]. split; [exact Hfree3|].
  split; [lia|].
  eapply only_changes_trans; [exact C1| |].
  - eapply only_changes_trans; [exact C2|exact C3|]. intros y Hy. exact Hy.
  - unfold file_writes, pack_writes, alloc_touch. intros y [Hy|[Hy|Hy]].
    + destruct Hy as [Hy|Hy]; [left; exact Hy|].
      right. left. unfold fat_at in *.
      assert (0 <= (8 + Z.of_nat (length (pending fd))) / 512)
        by (Z.to_euclidean_division_equations; lia).
      lia.
    + right. right. exists (y - 512 * b). split; [lia|].
      rewrite (file_addr_in_block b _ 0) by lia. lia.
    + destruct Hy as [Hy|[Hy|[(i & Hi & Hy)|Hy]]].
      * left. exact Hy.
      * right. left. exact Hy.
      * right. right. exists i. split; [lia|exact Hy].
      * right. right. exists (y - 512 * b). split; [lia|].
        rewrite (file_addr_in_block b _ 0) by lia. lia.
Qed.

(** The loop over the files on a free list without gaps. *)
Lemma main_files_exact (r : Z) (w : world) (names : list string) :
  r < N ->
  forall (i : Z) (m : image) (hi : Z) (xs : list Z) (m' : image),
    0 <= i -> lo <= hi <= r ->
    mapLength m = 512 * N -> free_below lo m hi ->
    main_files w (512 * r + 8) i names m = Ok (xs, m') ->
    mapLength m' = 512 * N
    /\ free_below lo m' (hi - blocks_needed w names)
    /\ lo <= hi - blocks_needed w names
    /\ only_changes (files_writes w names hi r i) m m'.
Proof using N_pos lo_min fat_fits N_max.
  intros Hr. induction names as [|name rest IH];
    intros i m hi xs m' Hi Hhi Hlen Hfree H.
  - cbn [main_files ret] in H. inversion H; subst xs m'.
    cbn [blocks_needed]. rewrite Z.sub_0_r.
    split; [exact Hlen|]. split; [exact Hfree|]. split; [lia|].
    apply only_changes_refl.
  - cbn [main_files] in H.
    destruct (w name) as [fd|] eqn:Hw.
    2:{ rewrite (bind_err _ _ m OpenFailed) in H
          by (apply oneFile_closed; exact Hw).
        discriminate. }
    unfold bind at 1 in H.
    destruct (oneFile w name m) as [[x m1]|e] eqn:F; [|discriminate].
    destruct (oneFile_exact w name fd m hi x m1 Hw ltac:(lia) Hlen Hfree F)
      as (Ex & Hlen1 & Hfree1 & Hc1 & C1).
    set (size := Z.of_nat (length (pending fd))) in *.
    set (blocks := 1 + (size + 8) / 512).
    assert (Hblocks : x - (8 + size) / 512 = hi - blocks).
    { unfold blocks. replace (size + 8) with (8 + size) by lia. lia. }
    rewrite Hblocks in *.
    assert (Hb1 : 1 <= blocks)
      by (unfold blocks, size; Z.to_euclidean_division_equations; lia).
    unfold strncpy in H.
    set (dest := 512 * r + 8 + i * 16) in *.
    set (nm := strncpy_bytes 12 (basename name)) in *.
    assert (Lnm : length nm = 12%nat) by apply length_strncpy_bytes.
    unfold bind at 1 in H. unfold bind at 1 in H.
    destruct (store_bytes dest nm m1) as [[u2 m2]|e] eqn:S1; [|discriminate].
    apply store_bytes_inv in S1. destruct S1 as (E2 & Hd0 & Hd1).
    rewrite Lnm in Hd1. cbn [ret] in H. unfold bind at 1 in H.
    destruct (store32 (dest + 12) x m2) as [[u3 m3]|e] eqn:S2; [|discriminate].
    apply store32_inv in S2. destruct S2 as (E3 & Hd2 & Hd3).
    assert (L2 : mapLength m2 = 512 * N) by (subst m2; exact Hlen1).
    assert (L3 : mapLength m3 = 512 * N) by (subst m3; exact L2).
    rewrite L2 in Hd3.
    assert (C2 : only_changes (fun y => dest <= y < dest + 12) m1 m2).
    { subst m2. replace 12 with (Z.of_nat (length nm)) by lia.
      apply put_bytes_changes. }
    assert (C3 : only_changes (fun y => dest + 12 <= y < dest + 12 + 4) m2 m3)
      by (subst m3; apply put32_changes).
    assert (C13 : only_changes (fun y => dest <= y < dest + 16) m1 m3).
    { eapply only_changes_trans; [exact C2|exact C3|]. cbv beta. intros y. lia. }
    assert (Hfree3 : free_below lo m3 (hi - blocks)).
    { apply (free_below_frame _ m1 m3 _ Hfree1 ltac:(lia) C13);
        intros y Hy; unfold dest; bounds. }
    unfold bind at 1 in H.
    destruct (main_files w (512 * r + 8) (i + 1) rest m3) as [[xs' m4]|e] eqn:R;
      [|discriminate].
    cbn [ret] in H. inversion H; subst xs m4. clear H.
    pose proof (blocks_needed_nonneg w rest) as Hnn.
    destruct (IH (i + 1) m3 (hi - blocks) xs' m' ltac:(lia) ltac:(lia) L3 Hfree3 R)
      as (Hlen' & Hfree' & Hc' & C4).
    cbn [blocks_needed]. rewrite Hw. fold size. fold blocks.
    replace (hi - (blocks + blocks_needed w rest))
      with (hi - blocks - blocks_needed w rest) by lia.
    split; [exact Hlen'|]. split; [exact Hfree'|]. split; [exact Hc'|].
    eapply only_changes_trans; [exact C1| |].
    + eapply only_changes_trans; [exact C13|exact C4|]. intros y Hy. exact Hy.
    + unfold files_writes, file_writes.
      replace (blocks_needed w (name :: rest))
        with (blocks + blocks_needed w rest)
        by (cbn [blocks_needed]; rewrite Hw; reflexivity).
      intros y [Hy|[Hy|Hy]].
      * destruct Hy as [Hy|[Hy|(j & Hj & Hy)]].
        -- left. exact Hy.
        -- right. left. unfold fat_at in *. lia.
        -- right. right. left. exists 0%nat, name, fd, j.
           split; [reflexivity|]. split; [exact Hw|]. split; [exact Hj|].
           cbn [firstn blocks_needed]. rewrite Z.sub_0_r, <- Ex. exact Hy.
      * right. right. right. cbn [length]. unfold dest in Hy. lia.
      * destruct Hy as [Hy|[Hy|[(k & name' & fd' & j & Hk & Hw' & Hj & Hy)|Hy]]].
        -- left. exact Hy.
        -- right. left. unfold fat_at in *. lia.
        -- right. right. left. exists (S k), name', fd', j.
           split; [exact Hk|]. split; [exact Hw'|]. split; [exact Hj|].
           cbn [firstn blocks_needed]. rewrite Hw. fold size. fold blocks.
           rewrite Hy. f_equal. lia.
        -- right. right. right. cbn [length]. lia.
Qed.

End Exact.

(** What a run writes: the image differs from the zero-filled one only in
    the fields of the super block, in the FAT, in the header and the
    entries of the root block, and in the header and the bytes of each
    file. *)
Lemma run_frame (w : world) (argv : list string) (xs : list Z) (img : image) :
  main w argv = Ok (xs, img) ->
  only_changes (run_writes w (skipn 3 argv) (nBlocks_of img))
    (fresh (512 * nBlocks_of img)) img.
Proof.
  intros H.
  destruct (run_parts w argv xs img H)
    as (N' & m4 & Hatoi & HN & Hmax & Hlo & Hfit & L4 & Hfree & C4 & F).
  destruct (run_facts w argv xs img H)
    as (N2 & c & Hatoi2 & _ & _ & _ & Hnb & _).
  assert (E : N2 = N') by congruence. rewrite E in *. clear E Hatoi2.
  rewrite Hnb.
  destruct (main_format_frame N' ltac:(lia) Hmax) as (C0 & _).
  assert (Hfree4 : free_below (lastAvail_of N') m4 (N' - 1)).
  { unfold free_below. replace (N' - 1 - 1) with (N' - 2) by lia. exact Hfree. }
  destruct (main_files_exact N' (lastAvail_of N') ltac:(lia) ltac:(lia) Hfit Hmax
              (N' - 1) w (skipn 3 argv) ltac:(lia) 0 m4 (N' - 1) xs img
              ltac:(lia) ltac:(lia) L4 Hfree4 F) as (_ & _ & Hc & C).
  eapply only_changes_trans; [exact C0| |].
  - eapply only_changes_trans; [exact C4|exact C|]. intros y Hy. exact Hy.
  - unfold run_writes, files_writes, fat_at. intros y [Hy|[Hy|Hy]].
    + lia.
    + lia.
    + destruct Hy as [Hy|[Hy|[(k & name & fd & j & Hk & Hw & Hj & Hy)|Hy]]].
      * lia.
      * lia.
      * right. right. right. exists k, name, fd, j.
        split; [exact Hk|]. split; [exact Hw|]. split; [exact Hj|].
        rewrite Hy. f_equal. lia.
      * lia.
Qed.

(** X12.  What a run never writes.  In a run that succeeds every byte of
    the image is 0 except the 16 bytes of the fields of the super block,
    the [N] entries of the FAT, the header and the entries of the root
    block, and, for each file, the [8 + size] bytes of its header and
    content, byte [j] of which is at offset [j mod 512] of block
    [head - j / 512]. *)
Theorem run_writes_nothing_else (w : world) (argv : list string)
    (xs : list Z) (img : image) :
  main w argv = Ok (xs, img) ->
  let N := nBlocks_of img in
  mapLength img = 512 * N
  /\ forall x, ~ run_writes w (skipn 3 argv) N x -> cell img x = 0.
Proof.
  intros H N. destruct (run_frame w argv xs img H) as [L C].
  split; [exact L|]. intros x Hx. rewrite (C x Hx). reflexivity.
Qed.

Lemma run_writes_nothing_else_demo :
  let img := run_img demo_world demo_argv in
  let N := nBlocks_of img in
  mapLength img = 512 * N
  /\ forall x, ~ run_writes demo_world (skipn 3 demo_argv) N x -> cell img x = 0.
Proof.
  apply (run_writes_nothing_else demo_world demo_argv
           (run_xs demo_world demo_argv)).
  apply run_ok. vm_compute. reflexivity.
Defined.

(** X13.  The bytes a run leaves unused are 0: every block of the free
    list, the root block after its last entry, and, for each file, the
    bytes that follow the content up to the end of its last block. *)
Theorem unused_bytes_are_zero (w : world) (argv : list string) (xs : list Z)
    (img : image) :
  main w argv = Ok (xs, img) ->
  let names := skipn 3 argv in
  (forall f o, In f (free_list img) -> 0 <= o < 512 ->
               cell img (512 * f + o) = 0)
  /\ (forall o, 8 + 16 * Z.of_nat (length names) <= o < 512 ->
                cell img (512 * root img + o) = 0)
  /\ (forall (k : nat) (name : string) (fd : stream) (j : Z),
         nth_error names k = Some name -> w name = Some fd ->
         8 + Z.of_nat (length (pending fd)) <= j
           < 512 * (1 + (Z.of_nat (length (pending fd)) + 8) / 512) ->
         cell img (file_addr (entry_start img (root img) (Z.of_nat k)) j) = 0).
Proof.
  intros H names.
  destruct (run_frame w argv xs img H) as [_ Hzero].
  destruct (run_chains w argv xs img H)
    as (N & Hnb & Hroot & HN & Hlo & Hfit & Hfits & Hfl & Hpos).
  rewrite Hnb in Hzero. rewrite Hroot. fold names in Hzero, Hfits, Hfl, Hpos.
  (* a byte of a file lies in a block of that file *)
  assert (Hblock : forall (k : nat) (name : string) (fd : stream) (j : Z),
             nth_error names k = Some name -> w name = Some fd ->
             0 <= j < 512 * (1 + (Z.of_nat (length (pending fd)) + 8) / 512) ->
             N - 2 - blocks_needed w (firstn (S k) names)
             < file_addr (N - 2 - blocks_needed w (firstn k names)) j / 512
             <= N - 2 - blocks_needed w (firstn k names)).
  { intros k name fd j Hk Hw Hj.
    rewrite file_addr_block by lia.
    rewrite (blocks_needed_firstn_S w names k name fd Hk Hw).
    Z.to_euclidean_division_equations; lia. }
  assert (Hout : forall x, x / 512 < N - 1 -> lastAvail_of N <= x / 512 ->
             (forall (k : nat) (name : string) (fd : stream) (j : Z),
                 nth_error names k = Some name -> w name = Some fd ->
                 0 <= j < 8 + Z.of_nat (length (pending fd)) ->
                 x <> file_addr (N - 2 - blocks_needed w (firstn k names)) j) ->
             cell img x = 0).
  { intros x Hx1 Hx2 Hne. apply Hzero. unfold run_writes.
    intros [Hx|[Hx|[Hx|(k & name & fd & j & Hk & Hw & Hj & Hx)]]].
    - Z.to_euclidean_division_equations; lia.
    - Z.to_euclidean_division_equations; lia.
    - Z.to_euclidean_division_equations; lia.
    - apply (Hne k name fd j Hk Hw Hj Hx). }
  split; [|split].
  - intros f o Hf Ho. rewrite Hfl in Hf. apply In_down_from in Hf.
    assert (Ef : (512 * f + o) / 512 = f)
      by (Z.to_euclidean_division_equations; lia).
    pose proof (blocks_needed_nonneg w names) as Hnn.
    apply Hout; [rewrite Ef; lia|rewrite Ef; lia|].
    intros k name fd j Hk Hw Hj Hx.
    pose proof (Hblock k name fd j Hk Hw
                  ltac:(Z.to_euclidean_division_equations; lia)) as Hb.
    rewrite <- Hx, Ef in Hb.
    destruct (blocks_needed_firstn w names (S k) (S k) ltac:(lia)) as [_ Hle].
    lia.
  - intros o Ho. apply Hzero. unfold run_writes.
    intros [Hx|[Hx|[Hx|(k & name & fd & j & Hk & Hw & Hj & Hx)]]]; try lia.
    pose proof (Hblock k name fd j Hk Hw
                  ltac:(Z.to_euclidean_division_equations; lia)) as Hb.
    rewrite <- Hx in Hb.
    destruct (blocks_needed_firstn w names k k ltac:(lia)) as [[Hnn _] _].
    assert ((512 * (N - 1) + o) / 512 = N - 1)
      by (Z.to_euclidean_division_equations; lia).
    lia.
  - intros k name fd j Hk Hw Hj.
    destruct (Hpos k name fd Hk Hw) as [Ex _]. rewrite Ex.
    pose proof (Hblock k name fd j Hk Hw ltac:(lia)) as Hb.
    destruct (blocks_needed_firstn w names k (S k) ltac:(lia)) as [[Hnn _] Hle].
    apply Hout; [lia|lia|].
    intros k' name' fd' j' Hk' Hw' Hj' Hx.
    pose proof (Hblock k' name' fd' j' Hk' Hw'
                  ltac:(Z.to_euclidean_division_equations; lia)) as Hb'.
    rewrite <- Hx in Hb'.
    destruct (Nat.lt_trichotomy k' k) as [Hlt|[Heq|Hgt]].
    + destruct (blocks_needed_firstn w names (S k') k ltac:(lia)) as [[_ Hm] _].
      lia.
    + subst k'. assert (name' = name) by congruence. subst name'.
      assert (fd' = fd) by congruence. subst fd'.
      apply file_addr_inj in Hx. lia.
    + destruct (blocks_needed_firstn w names (S k) k' ltac:(lia)) as [[_ Hm] _].
      lia.
Qed.

Lemma unused_bytes_are_zero_demo :
  let img := run_img demo_world demo_argv in
  let names := skipn 3 demo_argv in
  (forall f o, In f (free_list img) -> 0 <= o < 512 ->
               cell img (512 * f + o) = 0)
  /\ (forall o, 8 + 16 * Z.of_nat (length names) <= o < 512 ->
                cell img (512 * root img + o) = 0)
  /\ (forall (k : nat) (name : string) (fd : stream) (j : Z),
         nth_error names k = Some name -> demo_world name = Some fd ->
         8 + Z.of_nat (length (pending fd)) <= j
           < 512 * (1 + (Z.of_nat (length (pending fd)) + 8) / 512) ->
         cell img (file_addr (entry_start img (root img) (Z.of_nat k)) j) = 0).
Proof.
  apply (unused_bytes_are_zero demo_world demo_argv
           (run_xs demo_world demo_argv)).
  apply run_ok. vm_compute. reflexivity.
Defined.

(** ** The generator of [big.data] *)

Lemma writeFully_loop_all (s : list BigData.wr_event) :
  forall (fuel : nat) (out buf : list Z) (p togo : Z),
    Forall BigData.progress s ->
    (length s < fuel)%nat ->
    0 <= p -> 0 <= togo < 4294967296 ->
    p + togo = Z.of_nat (length buf) ->
    exists used s',
      s = used ++ s'
      /\ BigData.writeFully_loop fuel (BigData.mkOut out s) buf p togo
         = BigData.Done (BigData.mkOut (out ++ skipn (Z.to_nat p) buf) s').
Proof.
  induction s as [|e s IH]; intros fuel out buf p togo Hs Hfuel Hp Htogo Hsum.
  - destruct fuel as [|fuel]; [cbn in Hfuel; lia|].
    exists [], []. split; [reflexivity|]. cbn [BigData.writeFully_loop].
    destruct (Z.eqb_spec togo 0) as [E|E].
    + rewrite skipn_all2 by lia. rewrite app_nil_r. reflexivity.
    + unfold BigData.write. cbn [BigData.wsched BigData.written].
      rewrite u32_small by lia.
      destruct (Z.leb_spec togo 0); [lia|].
      destruct (Z.ltb_spec (Z.of_nat (length buf)) (p + togo)); [lia|].
      rewrite firstn_all2 by (rewrite length_skipn; lia).
      replace (u32 (togo - togo)) with 0 by (rewrite Z.sub_diag; reflexivity).
      destruct fuel; reflexivity.
  - destruct fuel as [|fuel]; [cbn in Hfuel; lia|].
    cbn [BigData.writeFully_loop].
    destruct (Z.eqb_spec togo 0) as [E|E].
    + exists [], (e :: s). split; [reflexivity|].
      rewrite skipn_all2 by lia. rewrite app_nil_r. reflexivity.
    + inversion Hs as [|e' s' He Hs']; subst e' s'.
      destruct e as [|k]; [contradiction|]. cbn [BigData.progress] in He.
      unfold BigData.write. cbn [BigData.wsched BigData.written].
      set (n := Z.min togo (Z.of_N k)).
      assert (Hn : 0 < n <= togo) by lia.
      rewrite (u32_small n) by lia.
      destruct (Z.leb_spec n 0); [lia|].
      destruct (Z.ltb_spec (Z.of_nat (length buf)) (p + n)); [lia|].
      rewrite (u32_small (togo - n)) by lia.
      destruct (IH fuel (out ++ firstn (Z.to_nat n) (skipn (Z.to_nat p) buf)) buf
                  (p + n) (togo - n) Hs' ltac:(cbn in Hfuel; lia) ltac:(lia)
                  ltac:(lia) ltac:(lia)) as (used & s1 & Es & R).
      exists (BigData.WrAtMost k :: used), s1. split; [cbn; congruence|].
      rewrite R. f_equal. f_equal. rewrite <- app_assoc. f_equal.
      replace (Z.to_nat (p + n)) with (Z.to_nat n + Z.to_nat p)%nat by lia.
      rewrite <- skipn_skipn. apply firstn_skipn.
Qed.



(** X14.  [writeFully] writes the whole buffer however [write] cuts it, as
    long as every [write] makes progress: the file then holds the bytes it
    had, followed by the bytes of the buffer in order. *)
Theorem writeFully_writes_all (fd : BigData.out_file) (buf : list Z) :
  Forall BigData.progress (BigData.wsched fd) ->
  Z.of_nat (length buf) < 4294967296 ->
  exists used s',
    BigData.wsched fd = used ++ s'
    /\ BigData.writeFully fd buf (Z.of_nat (length buf))
       = BigData.Done (BigData.mkOut (BigData.written fd ++ buf) s').
Proof.
  intros Hs Hlen. unfold BigData.writeFully. destruct fd as [out s].
  cbn [BigData.wsched BigData.written] in *.
  destruct (writeFully_loop_all s (S (length s)) out buf 0 (Z.of_nat (length buf))
              Hs ltac:(lia) ltac:(lia) ltac:(lia) ltac:(lia))
    as (used & s' & Es & R).
  exists used, s'. split; [exact Es|exact R].
Qed.

Lemma writeFully_writes_all_258 :
  let fd := BigData.mkOut [7] [BigData.WrAtMost 1; BigData.WrAtMost 2] in
  let buf := BigData.int_bytes 258 in
  exists used s',
    BigData.wsched fd = used ++ s'
    /\ BigData.writeFully fd buf (Z.of_nat (length buf))
       = BigData.Done (BigData.mkOut (BigData.written fd ++ buf) s').
Proof.
  apply (writeFully_writes_all
           (BigData.mkOut [7] [BigData.WrAtMost 1; BigData.WrAtMost 2])
           (BigData.int_bytes 258)).
  - repeat constructor; discriminate.
  - cbn. lia.
Defined.



Lemma Forall_app_r {A : Type} (P : A -> Prop) (l1 l2 : list A) :
  Forall P (l1 ++ l2) -> Forall P l2.
Proof.
  intros H. apply Forall_app in H. tauto.
Qed.

Lemma main_loop_all (turns : nat) :
  forall (i : Z) (out : list Z) (s : list BigData.wr_event),
    Forall BigData.progress s ->
    exists s',
      BigData.main_loop turns i (BigData.mkOut out s)
      = BigData.Done
          (BigData.mkOut
             (out ++ flat_map BigData.int_bytes
                       (map (fun k => i + Z.of_nat k) (seq 0 turns))) s').
Proof.
  induction turns as [|turns IH]; intros i out s Hs.
  - exists s. cbn. rewrite app_nil_r. reflexivity.
  - cbn [BigData.main_loop]. unfold BigData.writeFully. cbn [BigData.wsched].
    destruct (writeFully_loop_all s (S (length s)) out (BigData.int_bytes i) 0 4
                Hs ltac:(lia) ltac:(lia) ltac:(lia) ltac:(reflexivity))
      as (used & s1 & Es & R).
    rewrite R. cbn [skipn Z.to_nat].
    destruct (IH (i + 1) (out ++ BigData.int_bytes i) s1) as (s' & R').
    { rewrite Es in Hs. apply (Forall_app_r _ _ _ Hs). }
    exists s'. rewrite R'. f_equal. f_equal.
    rewrite <- app_assoc. f_equal.
    cbn [seq map flat_map]. rewrite Z.add_0_r. f_equal.
    rewrite <- seq_shift, map_map. f_equal. apply map_ext.
    intros k. lia.
Qed.

(** X16.  The file the generator writes: when [creat] succeeds and every
    [write] makes progress, [big.data] holds the integers 0, 1, ..., 2999,
    4 bytes each, least significant byte first: 12000 bytes. *)
Theorem generator_output (s : list BigData.wr_event) :
  Forall BigData.progress s ->
  BigData.main (Some s) = BigData.Done big_data_bytes
  /\ Z.of_nat (length big_data_bytes) = 12000.
Proof.
  intros Hs. split.
  - unfold BigData.main.
    destruct (main_loop_all (Z.to_nat (3000 - 0)) 0 [] s Hs) as (s' & R).
    rewrite R. cbn [BigData.written app]. reflexivity.
  - vm_compute. reflexivity.
Qed.

Lemma generator_output_short_writes :
  BigData.main (Some [BigData.WrAtMost 3; BigData.WrAtMost 1])
  = BigData.Done big_data_bytes
  /\ Z.of_nat (length big_data_bytes) = 12000.
Proof.
  apply (generator_output [BigData.WrAtMost 3; BigData.WrAtMost 1]).
  repeat constructor; discriminate.
Defined.

(** ** Pointers of more than 32 bits *)

Lemma bind_inv {A B : Type} (c : M A) (k : A -> M B) (m m' : image) (b : B) :
  bind c k m = Ok (b, m') ->
  exists a m1, c m = Ok (a, m1) /\ k a m1 = Ok (b, m').
Proof.
  unfold bind. destruct (c m) as [[a m1]|e]; [|discriminate].
  intros H. exists a, m1. split; [reflexivity|exact H].
Qed.



















Lemma oneFile_at_high (mapStart : Z) (w : world) (fileName : string)
    (m : image) (x : Z) (m' : image) :
  4294967296 <= mapStart ->
  oneFile_at mapStart w fileName m <> Ok (x, m').
Proof.
  intros Hhigh H. unfold oneFile_at in H.
  destruct (w fileName) as [fd|]; [|discriminate].
  destruct (bind_inv _ _ _ _ _ H) as (idx & m1 & _ & H1).
  destruct (bind_inv _ _ _ _ _ H1) as (u & m2 & S1 & _).
  apply store32_inv in S1. destruct S1 as (_ & Hoff & _).
  assert (u32 (mapStart + toPtr idx 0) < 4294967296)
    by (unfold u32; apply Z.mod_pos_bound; lia).
  lia.
Qed.

(** X18.  When [mmap] returns an address of 2^32 or more, the cast of line
    154 cuts the address of the head block, and the store of the tag goes
    through an address below the mapping: no run of [main] returns 0, and
    [oneFile] ends at that store whenever it has opened the file and got a
    block. *)
Theorem wide_pointers_never_succeed (mapStart : Z) (w : world)
    (argv : list string) :
  4294967296 <= mapStart ->
  (forall xs img, main_at mapStart w argv <> Ok (xs, img))
  /\ (forall fileName fd m,
         w fileName = Some fd -> avail m <> 0 ->
         12 <= mapLength m -> fat_at (avail m) + 4 <= mapLength m ->
         0 <= avail m ->
         oneFile_at mapStart w fileName m = Err Fault).
Proof.
  intros Hhigh. split.
  - intros xs img H. unfold main_at in H.
    destruct (Z.ltb_spec (Z.of_nat (length argv)) 4) as [|Hargc]; [discriminate|].
    destruct (atoi (nth 2 argv EmptyString)) as [N|]; [|discriminate].
    destruct ((N * 512 <? INT_MIN) || (INT_MAX <? N * 512))%bool; [discriminate|].
    destruct (N * 512 <=? 0); [discriminate|].
    destruct (bind_inv _ _ _ _ _ H) as (u0 & m0 & _ & H0). clear H.
    unfold main_root_at in H0.
    destruct (bind_inv _ _ _ _ _ H0) as (r & m1 & _ & H1). clear H0.
    destruct (bind_inv _ _ _ _ _ H1) as (u2 & m2 & _ & H2). clear H1.
    destruct (bind_inv _ _ _ _ _ H2) as (r0 & m3 & _ & H3). clear H2.
    destruct (bind_inv _ _ _ _ _ H3) as (u4 & m4 & _ & H4). clear H3.
    destruct (bind_inv _ _ _ _ _ H4) as (u5 & m5 & _ & H5). clear H4.
    destruct (bind_inv _ _ _ _ _ H5) as (r1 & m6 & _ & H6). clear H5.
    destruct (skipn 3 argv) as [|name rest] eqn:Hnames.
    { apply (f_equal (@length string)) in Hnames. rewrite length_skipn in Hnames.
      cbn [length] in Hnames. lia. }
    cbn [main_files_at] in H6.
    destruct (bind_inv _ _ _ _ _ H6) as (x & m7 & H7 & _).
    apply (oneFile_at_high mapStart w name m6 x m7 Hhigh H7).
  - intros fileName fd m Hw Hav Hlen Hfat Hpos. unfold oneFile_at. rewrite Hw.
    assert (G : exists m1, getBlock m = Ok (avail m, m1)).
    { unfold getBlock.
      rewrite (bind_ok _ _ m m (avail m))
        by (apply load32_ok; unfold super_avail; lia).
      destruct (Z.eqb_spec (avail m) 0) as [|_]; [contradiction|].
      rewrite (bind_ok _ _ m m (fat m (avail m)))
        by (apply load32_ok; unfold fat_at in *; lia).
      rewrite (bind_ok _ _ m (put32 m super_avail (fat m (avail m))) tt)
        by (apply store32_ok; unfold super_avail; lia).
      rewrite (bind_ok _ _ _ (put32 (put32 m super_avail (fat m (avail m)))
                                (fat_at (avail m)) 0) tt)
        by (apply store32_ok; cbn [put32 mapLength]; unfold fat_at in *; lia).
      eexists. reflexivity. }
    destruct G as (m1 & G). rewrite (bind_ok _ _ m m1 (avail m) G).
    apply bind_err. unfold store32.
    replace (in_map m1 _ 4) with false; [reflexivity|].
    symmetry. apply not_true_is_false. intros T. apply in_map_true in T.
    assert (u32 (mapStart + toPtr (avail m) 0) < 4294967296)
      by (unfold u32; apply Z.mod_pos_bound; lia).
    lia.
Qed.

Lemma wide_pointers_never_succeed_demo :
  (forall xs img,
      main_at 139637976727552 demo_world demo_argv <> Ok (xs, img))
  /\ (forall fileName fd m,
         demo_world fileName = Some fd -> avail m <> 0 ->
         12 <= mapLength m -> fat_at (avail m) + 4 <= mapLength m ->
         0 <= avail m ->
         oneFile_at 139637976727552 demo_world fileName m = Err Fault).
Proof.
  apply (wide_pointers_never_succeed 139637976727552 demo_world demo_argv).
  lia.
Defined.

(** ** The image as a function of the files *)

Lemma byte_mod (v : Z) : is_byte (v mod 256).
Proof. unfold is_byte. apply Z.mod_pos_bound. lia. Qed.

Lemma byte_valued_put32 (m : image) (off v : Z) :
  byte_valued m -> byte_valued (put32 m off v).
Proof.
  intros H x. unfold put32; cbn [cell].
  repeat match goal with
         | |- context [Z.eqb ?a ?b] => destruct (Z.eqb a b); [apply byte_mod|]
         end.
  apply H.
Qed.

Lemma byte_valued_put8 (m : image) (off v : Z) :
  is_byte v -> byte_valued m -> byte_valued (put8 m off v).
Proof.
  intros Hv H x. unfold put8; cbn [cell].
  destruct (x =? off); [exact Hv|apply H].
Qed.

Lemma byte_valued_put_bytes (m : image) (off : Z) (bs : list Z) :
  Forall is_byte bs -> byte_valued m -> byte_valued (put_bytes m off bs).
Proof.
  intros Hbs H x. unfold put_bytes; cbn [cell].
  destruct ((off <=? x) && (x <? off + Z.of_nat (length bs)))%bool eqn:E;
    [|apply H].
  apply andb_true_iff in E. destruct E as [E1 E2].
  apply Z.leb_le in E1. apply Z.ltb_lt in E2.
  rewrite Forall_forall in Hbs. apply Hbs. apply nth_In. lia.
Qed.

Lemma keeps_bytes_ret {A : Type} (a : A) : keeps_bytes (ret a).
Proof.
  intros m a' m' Hm H. inversion H; subst. exact Hm.
Qed.

Lemma keeps_bytes_fail {A : Type} (e : error) : keeps_bytes (@fail A e).
Proof.
  intros m a m' _ H. discriminate.
Qed.

Lemma keeps_bytes_bind {A B : Type} (c : M A) (k : A -> M B) :
  keeps_bytes c -> (forall a, keeps_bytes (k a)) -> keeps_bytes (bind c k).
Proof.
  intros Hc Hk m b m' Hm H.
  destruct (bind_inv _ _ _ _ _ H) as (a & m1 & H1 & H2).
  apply (Hk a m1 b m'); [|exact H2]. apply (Hc m a m1 Hm H1).
Qed.

Lemma keeps_bytes_load32 (off : Z) : keeps_bytes (load32 off).
Proof.
  intros m a m' Hm. unfold load32. destruct (in_map m off 4); [|discriminate].
  intros H. inversion H; subst. exact Hm.
Qed.

Lemma keeps_bytes_store32 (off v : Z) : keeps_bytes (store32 off v).
Proof.
  intros m a m' Hm H. apply store32_inv in H. destruct H as (-> & _).
  apply byte_valued_put32. exact Hm.
Qed.

Lemma keeps_bytes_store8 (off v : Z) : is_byte v -> keeps_bytes (store8 off v).
Proof.
  intros Hv m a m' Hm. unfold store8. destruct (in_map m off 1); [|discriminate].
  intros H. inversion H; subst. apply byte_valued_put8; assumption.
Qed.

Lemma keeps_bytes_store_bytes (off : Z) (bs : list Z) :
  Forall is_byte bs -> keeps_bytes (store_bytes off bs).
Proof.
  intros Hbs m a m' Hm H. apply store_bytes_inv in H. destruct H as (-> & _).
  apply byte_valued_put_bytes; assumption.
Qed.

Lemma keeps_bytes_getBlock : keeps_bytes getBlock.
Proof.
  unfold getBlock. apply keeps_bytes_bind; [apply keeps_bytes_load32|].
  intros idx. destruct (idx =? 0); [apply keeps_bytes_fail|].
  apply keeps_bytes_bind; [apply keeps_bytes_load32|]. intros nxt.
  apply keeps_bytes_bind; [apply keeps_bytes_store32|]. intros _.
  apply keeps_bytes_bind; [apply keeps_bytes_store32|]. intros _.
  apply keeps_bytes_ret.
Qed.

Lemma keeps_bytes_pack_loop (fuel : nat) :
  forall fd fmd cur left off total,
    Forall is_byte (pending fd) ->
    keeps_bytes (pack_loop fuel fd fmd cur left off total).
Proof.
  induction fuel as [|fuel IH]; intros fd fmd cur left off total Hfd;
    cbn [pack_loop]; [apply keeps_bytes_fail|].
  apply keeps_bytes_bind.
  - destruct (left =? 0); [|apply keeps_bytes_ret].
    apply keeps_bytes_bind; [apply keeps_bytes_getBlock|]. intros b.
    apply keeps_bytes_bind; [apply keeps_bytes_store32|]. intros _.
    apply keeps_bytes_ret.
  - intros [[cur' off'] left'].
    assert (R : forall n buf fd',
               read fd left' = (n, buf, fd') ->
               Forall is_byte buf /\ Forall is_byte (pending fd')).
    { assert (Hcut : forall k, Forall is_byte (firstn k (pending fd))
                               /\ Forall is_byte (skipn k (pending fd))).
      { intros k. apply Forall_app. rewrite firstn_skipn. exact Hfd. }
      intros n buf fd'. unfold read.
      destruct (sched fd) as [|[|k] s]; intros H; inversion H; subst;
        cbn [pending]; first [apply Hcut | split; [constructor|exact Hfd]]. }
    destruct (read fd left') as [[n buf] fd'].
    destruct (R n buf fd' eq_refl) as [Hbuf Hfd'].
    destruct (n <? 0); [apply keeps_bytes_fail|].
    destruct (n =? 0); [apply keeps_bytes_store32|].
    apply keeps_bytes_bind; [apply keeps_bytes_store_bytes; exact Hbuf|].
    intros _. apply IH. exact Hfd'.
Qed.

Lemma Forall_byte_strncpy (n : nat) (src : string) :
  Forall is_byte (strncpy_bytes n src).
Proof.
  assert (Hz : forall k, Forall is_byte (repeat 0 k)).
  { intros k. apply Forall_forall. intros b Hb. apply repeat_spec in Hb.
    subst b. unfold is_byte. lia. }
  revert src. induction n as [|n IH]; intros src; cbn [strncpy_bytes];
    [constructor|].
  destruct src as [|c r]; [apply Hz|].
  destruct (Ascii.eqb c zero); [apply Hz|].
  constructor; [|apply IH].
  unfold is_byte. pose proof (N_ascii_bounded c). lia.
Qed.

Lemma keeps_bytes_oneFile (w : world) (fileName : string) :
  (forall fd, w fileName = Some fd -> Forall is_byte (pending fd)) ->
  keeps_bytes (oneFile w fileName).
Proof.
  intros Hw. unfold oneFile. destruct (w fileName) as [fd|];
    [|apply keeps_bytes_fail].
  apply keeps_bytes_bind; [apply keeps_bytes_getBlock|]. intros b.
  apply keeps_bytes_bind; [apply keeps_bytes_store32|]. intros _.
  apply keeps_bytes_bind; [apply keeps_bytes_pack_loop; apply Hw; reflexivity|].
  intros _. apply keeps_bytes_ret.
Qed.

Lemma keeps_bytes_init_fat (turns : nat) :
  forall i, keeps_bytes (init_fat turns i).
Proof.
  induction turns as [|t IH]; intros i; cbn [init_fat];
    [apply keeps_bytes_ret|].
  apply keeps_bytes_bind; [apply keeps_bytes_store32|]. intros _. apply IH.
Qed.

Lemma keeps_bytes_main_format (nBlocks : Z) : keeps_bytes (main_format nBlocks).
Proof.
  unfold main_format.
  repeat (apply keeps_bytes_bind;
          [first [apply keeps_bytes_store8; unfold is_byte; lia
                 |apply keeps_bytes_store32|apply keeps_bytes_load32]
          |intros ?]).
  apply keeps_bytes_init_fat.
Qed.

Lemma keeps_bytes_main_files (w : world) (rootData : Z) (names : list string) :
  byte_files w names ->
  forall i, keeps_bytes (main_files w rootData i names).
Proof.
  induction names as [|name rest IH]; intros Hw i; cbn [main_files];
    [apply keeps_bytes_ret|].
  apply keeps_bytes_bind.
  { apply keeps_bytes_oneFile. intros fd Hfd.
    apply (Hw name fd (or_introl eq_refl) Hfd). }
  intros x. apply keeps_bytes_bind.
  { unfold strncpy. apply keeps_bytes_bind;
      [apply keeps_bytes_store_bytes; apply Forall_byte_strncpy|].
    intros _. apply keeps_bytes_ret. }
  intros dest. apply keeps_bytes_bind; [apply keeps_bytes_store32|]. intros _.
  apply keeps_bytes_bind; [|intros xs; apply keeps_bytes_ret].
  apply IH. intros name' fd Hin Hfd. apply (Hw name' fd (or_intror Hin) Hfd).
Qed.

Lemma keeps_bytes_main_root (w : world) (nFiles : Z) (names : list string) :
  byte_files w names -> keeps_bytes (main_root w nFiles names).
Proof.
  intros Hw. unfold main_root.
  repeat (apply keeps_bytes_bind;
          [first [apply keeps_bytes_getBlock|apply keeps_bytes_store32
                 |apply keeps_bytes_load32]
          |intros ?]).
  apply keeps_bytes_main_files. exact Hw.
Qed.

(** The image of a run on files of bytes holds bytes. *)
Lemma run_byte_valued (w : world) (argv : list string) (xs : list Z)
    (img : image) :
  byte_files w (skipn 3 argv) ->
  main w argv = Ok (xs, img) -> byte_valued img.
Proof.
  intros Hw H. unfold main in H.
  destruct (Z.of_nat (length argv) <? 4); [discriminate|].
  destruct (atoi (nth 2 argv EmptyString)) as [N|]; [|discriminate].
  destruct ((N * 512 <? INT_MIN) || (INT_MAX <? N * 512))%bool; [discriminate|].
  destruct (N * 512 <=? 0); [discriminate|].
  revert H. apply keeps_bytes_bind.
  - apply keeps_bytes_main_format.
  - intros _. apply keeps_bytes_main_root. exact Hw.
  - intros x. cbn. unfold is_byte. lia.
Qed.

(** Two words of bytes that are equal have the same bytes. *)
Lemma get32_cells (m1 m2 : image) (off x : Z) :
  byte_valued m1 -> byte_valued m2 ->
  get32 m1 off = get32 m2 off ->
  off <= x < off + 4 -> cell m1 x = cell m2 x.
Proof.
  intros H1 H2 E Hx. unfold get32 in E.
  pose proof (H1 off) as A0. pose proof (H1 (off + 1)) as A1.
  pose proof (H1 (off + 2)) as A2. pose proof (H1 (off + 3)) as A3.
  pose proof (H2 off) as B0. pose proof (H2 (off + 1)) as B1.
  pose proof (H2 (off + 2)) as B2. pose proof (H2 (off + 3)) as B3.
  unfold is_byte in *.
  assert (x = off \/ x = off + 1 \/ x = off + 2 \/ x = off + 3) as [->|[->|[->| ->]]]
    by lia; lia.
Qed.

Lemma get_bytes_cells (m1 m2 : image) (o : Z) (n : nat) (x : Z) :
  get_bytes m1 o n = get_bytes m2 o n ->
  o <= x < o + Z.of_nat n -> cell m1 x = cell m2 x.
Proof.
  intros E Hx.
  pose proof (nth_get_bytes m1 o n (Z.to_nat (x - o)) 0 ltac:(lia)) as E1.
  pose proof (nth_get_bytes m2 o n (Z.to_nat (x - o)) 0 ltac:(lia)) as E2.
  rewrite E in E1. rewrite E1 in E2.
  replace (o + Z.of_nat (Z.to_nat (x - o))) with x in E2 by lia. exact E2.
Qed.

(** In a chain every block holds the next one, and the last one 0. *)
Lemma chain_next (m : image) (lo hi a : Z) (l : list Z) :
  chain m lo hi a l -> 0 < lo ->
  forall (i : nat) (b : Z), nth_error l i = Some b -> fat m b = nth (S i) l 0.
Proof.
  intros H Hlo. induction H as [hi|hi b0 l Hb H IH]; intros i b Hi.
  - destruct i; discriminate.
  - destruct i as [|i]; cbn [nth_error] in Hi.
    + inversion Hi; subst b.
      destruct (chain_head _ _ _ _ _ H Hlo) as [E _]. rewrite E.
      destruct l; reflexivity.
    + rewrite (IH i b Hi). reflexivity.
Qed.

Lemma chain_same_fat (m1 m2 : image) (lo1 hi1 a1 lo2 hi2 a2 : Z)
    (l : list Z) (b : Z) :
  chain m1 lo1 hi1 a1 l -> chain m2 lo2 hi2 a2 l -> 0 < lo1 -> 0 < lo2 ->
  In b l -> fat m1 b = fat m2 b.
Proof.
  intros H1 H2 L1 L2 Hb. destruct (In_nth_error _ _ Hb) as (i & Hi).
  rewrite (chain_next _ _ _ _ _ H1 L1 i b Hi).
  rewrite (chain_next _ _ _ _ _ H2 L2 i b Hi). reflexivity.
Qed.

(** The bytes of consecutive blocks, read downwards. *)
Lemma nth_blocks_down (m : image) (n : nat) :
  forall (a : Z) (i : nat),
    (i < 512 * n)%nat ->
    nth i (blocks_bytes m (down_from a n)) 0
    = cell m (512 * (a - Z.of_nat i / 512) + Z.of_nat i mod 512).
Proof.
  induction n as [|n IH]; intros a i Hi; [lia|].
  cbn [down_from blocks_bytes flat_map].
  destruct (Nat.lt_ge_cases i 512) as [Hlt|Hge].
  - rewrite app_nth1 by (rewrite length_get_bytes; exact Hlt).
    rewrite nth_get_bytes by exact Hlt. f_equal.
    Z.to_euclidean_division_equations; lia.
  - rewrite app_nth2 by (rewrite length_get_bytes; exact Hge).
    rewrite length_get_bytes.
    change (flat_map (fun b => get_bytes m (512 * b) 512) (down_from (a - 1) n))
      with (blocks_bytes m (down_from (a - 1) n)).
    rewrite IH by lia. f_equal.
    rewrite Nat2Z.inj_sub by exact Hge.
    Z.to_euclidean_division_equations; lia.
Qed.

(** Byte [i] of the content of a file that lies in [n] consecutive blocks
    from [h] down. *)
Lemma nth_payload_down (m : image) (h : Z) (n i : nat) :
  (i + 8 < 512 * n)%nat ->
  nth i (chain_payload m (down_from h n)) 0
  = cell m (file_addr h (8 + Z.of_nat i)).
Proof.
  intros Hi. destruct n as [|n]; [lia|]. cbn [down_from chain_payload].
  destruct (Nat.lt_ge_cases i 504) as [Hlt|Hge].
  - rewrite app_nth1 by (rewrite length_get_bytes; exact Hlt).
    rewrite nth_get_bytes by exact Hlt.
    rewrite (file_addr_in_block h _ 0) by lia. f_equal. lia.
  - rewrite app_nth2 by (rewrite length_get_bytes; exact Hge).
    rewrite length_get_bytes.
    change (flat_map (fun b => get_bytes m (512 * b) 512) (down_from (h - 1) n))
      with (blocks_bytes m (down_from (h - 1) n)).
    rewrite nth_blocks_down by lia. unfold file_addr. f_equal.
    rewrite Nat2Z.inj_sub by exact Hge.
    Z.to_euclidean_division_equations; lia.
Qed.

(** The facts about a run that returns 0 that fix every byte of its
    image. *)
Lemma run_summary (w : world) (argv : list string) (xs : list Z) (img : image) :
  main w argv = Ok (xs, img) ->
  exists N c : Z,
    atoi (nth 2 argv EmptyString) = Some N
    /\ 3 <= N /\ 2 <= lastAvail_of N <= N - 1
    /\ 512 + 4 * N <= 512 * lastAvail_of N
    /\ 16 * Z.of_nat (length (skipn 3 argv)) <= 504
    /\ length xs = length (skipn 3 argv)
    /\ blocks_needed w (skipn 3 argv) <= N - lastAvail_of N - 1
    /\ lastAvail_of N <= c <= N - 1
    /\ mapLength img = 512 * N
    /\ only_changes (fun y => 8 <= y < 16 \/ 512 + 4 * lastAvail_of N <= y)
         (formatted N) img
    /\ only_changes (run_writes w (skipn 3 argv) N) (fresh (512 * N)) img
    /\ root img = N - 1
    /\ fat img (N - 1) = 0
    /\ chain img (lastAvail_of N) c (avail img)
         (down_from (N - 2 - blocks_needed w (skipn 3 argv))
            (Z.to_nat (N - lastAvail_of N - 1 - blocks_needed w (skipn 3 argv))))
    /\ file_tag img (N - 1) = 2
    /\ file_length img (N - 1) = 16 * Z.of_nat (length (skipn 3 argv))
    /\ forall (k : nat) (name : string),
         nth_error (skipn 3 argv) k = Some name ->
         exists (fd : stream) (x : Z),
           w name = Some fd
           /\ nth_error xs k = Some x
           /\ x = N - 2 - blocks_needed w (firstn k (skipn 3 argv))
           /\ entry_name img (N - 1) (Z.of_nat k)
              = strncpy_bytes 12 (basename name)
           /\ entry_start img (N - 1) (Z.of_nat k) = x
           /\ chain img c (N - 1) x
                (down_from x
                   (Z.to_nat (1 + (Z.of_nat (length (pending fd)) + 8) / 512)))
           /\ file_tag img x = 1
           /\ file_length img x = Z.of_nat (length (pending fd))
           /\ firstn (length (pending fd))
                (chain_payload img
                   (down_from x
                      (Z.to_nat (1 + (Z.of_nat (length (pending fd)) + 8) / 512))))
              = pending fd.
Proof.
  intros H.
  destruct (run_facts w argv xs img H)
    as (N & c & Hatoi & HN & Hmax & Hlen & Hnb & Hroot & Htag & Hflen & Hn16
        & Hxs & _ & _ & Hc & (l' & Hfree) & Hall).
  destruct (run_chains w argv xs img H)
    as (N2 & Hnb2 & _ & _ & Hlo & Hfit & Hfits & Hfl & Hpos).
  assert (E : N2 = N) by congruence. rewrite E in *. clear E Hnb2.
  destruct (lastAvail_layout N ltac:(lia) Hmax) as (_ & _ & _ & _ & _ & Hle).
  specialize (Hle HN).
  pose proof (run_frame w argv xs img H) as Hframe. rewrite Hnb in Hframe.
  destruct (main_inv w argv xs img H) as (N3 & Hatoi3 & _ & _ & _ & R).
  assert (E : N3 = N) by congruence. rewrite E in *. clear E Hatoi3.
  destruct (formatted_spec N ltac:(lia) Hmax) as (_ & Hlen0 & _).
  destruct (main_root_step N (lastAvail_of N) ltac:(lia) Hlo Hfit Hmax w _ _ _ N _
              xs img ltac:(lia) Hlen0 (formatted_chain N HN Hmax) R)
    as (r & l1 & m4 & El & Hr & L4 & Hfree4 & _ & Hfat4 & C4 & F).
  replace (Z.to_nat (N - lastAvail_of N))
    with (S (Z.to_nat (N - 1 - lastAvail_of N))) in El by lia.
  cbn [down_from] in El. inversion El. subst r l1. clear El.
  pose proof (main_files_spec N (lastAvail_of N) ltac:(lia) ltac:(lia) Hfit Hmax
                (N - 1) w (skipn 3 argv) ltac:(lia) 0 m4 (N - 1) _
                ltac:(lia) ltac:(lia) L4 Hfree4) as P.
  rewrite F in P. cbn [files_post] in P. destruct P as (_ & _ & _ & C & _).
  exists N, c.
  split; [exact Hatoi|]. split; [exact HN|]. split; [lia|]. split; [exact Hfit|].
  split; [exact Hn16|]. split; [exact Hxs|]. split; [exact Hfits|].
  split; [exact Hc|]. split; [exact Hlen|]. split.
  { eapply only_changes_trans; [exact C4|exact C|].
    unfold files_touch, file_touch, fat_at. cbv beta. intros y. lia. }
  split; [exact Hframe|]. split; [exact Hroot|]. split.
  { rewrite <- Hfat4. unfold fat. apply (get32_unchanged _ _ _ _ C).
    unfold files_touch, file_touch, fat_at. cbv beta. intros y Hy. lia. }
  split.
  { rewrite <- Hfl. unfold free_list.
    rewrite (chain_of_eq img N (lastAvail_of N) c _ l' Hfree ltac:(lia)
               ltac:(lia) Hlen).
    exact Hfree. }
  split; [exact Htag|]. split; [exact Hflen|].
  intros k name Hk.
  destruct (Hall k name Hk) as (fd & x & Hw & Hx & [Hn Hs] & Hfok).
  destruct (Hpos k name fd Hk Hw) as [Ex Ech].
  rewrite Hs in Ex, Ech.
  destruct (file_ok_chain_of img N c fd x Hfok ltac:(lia) Hlen)
    as (Hch & _ & Hcontent).
  pose proof Hfok as (bs & _ & _ & Ht & Hl & _).
  exists fd, x. split; [exact Hw|]. split; [exact Hx|]. split; [exact Ex|].
  split; [exact Hn|]. split; [exact Hs|].
  rewrite <- Ex in Ech.
  split; [rewrite <- Ech; exact Hch|]. split; [exact Ht|]. split; [exact Hl|].
  unfold file_content in Hcontent. rewrite Hl, Nat2Z.id, Ech in Hcontent.
  exact Hcontent.
Qed.

Lemma same_files_firstn (w1 w2 : world) (names : list string) (k : nat) :
  same_files w1 w2 names -> same_files w1 w2 (firstn k names).
Proof.
  intros H name Hin. apply H. rewrite <- (firstn_skipn k names).
  apply in_or_app. left. exact Hin.
Qed.

Lemma blocks_needed_same (w1 w2 : world) (names : list string) :
  same_files w1 w2 names -> blocks_needed w2 names = blocks_needed w1 names.
Proof.
  induction names as [|name rest IH]; intros H; cbn [blocks_needed];
    [reflexivity|].
  destruct (H name (or_introl eq_refl)) as (fd1 & fd2 & E1 & E2 & Ep & _).
  rewrite E1, E2, Ep, IH; [reflexivity|].
  intros name' Hin. apply H. right. exact Hin.
Qed.

(** Block [t] of the blocks of the files belongs to one of them. *)
Lemma block_owner (w : world) (names : list string) :
  (forall name, In name names -> exists fd, w name = Some fd) ->
  forall t, 0 <= t < blocks_needed w names ->
    exists (k : nat) (name : string) (fd : stream),
      nth_error names k = Some name /\ w name = Some fd
      /\ blocks_needed w (firstn k names) <= t
         < blocks_needed w (firstn (S k) names).
Proof.
  induction names as [|name rest IH]; intros Hopen t Ht.
  - cbn [blocks_needed] in Ht. lia.
  - destruct (Hopen name (or_introl eq_refl)) as [fd Hw].
    cbn [blocks_needed] in Ht. rewrite Hw in Ht.
    assert (Hnb : 1 <= 1 + (Z.of_nat (length (pending fd)) + 8) / 512)
      by (Z.to_euclidean_division_equations; lia).
    destruct (Z_lt_ge_dec t (1 + (Z.of_nat (length (pending fd)) + 8) / 512))
      as [Hlt|Hge].
    + exists 0%nat, name, fd. split; [reflexivity|]. split; [exact Hw|].
      cbn [firstn blocks_needed]. rewrite Hw. lia.
    + destruct (IH (fun n Hn => Hopen n (or_intror Hn))
                  (t - (1 + (Z.of_nat (length (pending fd)) + 8) / 512))
                  ltac:(lia))
        as (k & name' & fd' & Hk & Hw' & Hb).
      exists (S k), name', fd'. split; [exact Hk|]. split; [exact Hw'|].
      change (firstn (S (S k)) (name :: rest)) with (name :: firstn (S k) rest).
      change (firstn (S k) (name :: rest)) with (name :: firstn k rest).
      cbn [blocks_needed]. rewrite Hw. lia.
Qed.

(** Byte [j] of file [k] lies in a block of file [k]. *)
Lemma file_byte_block (w : world) (names : list string) (N : Z) (k : nat)
    (name : string) (fd : stream) (j : Z) :
  nth_error names k = Some name -> w name = Some fd ->
  0 <= j < 512 * (1 + (Z.of_nat (length (pending fd)) + 8) / 512) ->
  N - 2 - blocks_needed w (firstn (S k) names)
  < file_addr (N - 2 - blocks_needed w (firstn k names)) j / 512
  <= N - 2 - blocks_needed w (firstn k names).
Proof.
  intros Hk Hw Hj. rewrite file_addr_block by lia.
  rewrite (blocks_needed_firstn_S w names k name fd Hk Hw).
  Z.to_euclidean_division_equations; lia.
Qed.

(** The bytes that a run on [N] blocks leaves alone: the end of the last
    block of the FAT, the blocks below the files, the root block after its
    last entry and what follows it, and the end of the last block of a
    file. *)
Lemma unwritten (w : world) (names : list string) (N lo x : Z) :
  2 <= lo <= N - 1 -> 512 + 4 * N <= 512 * lo ->
  blocks_needed w names <= N - lo - 1 ->
  512 + 4 * N <= x < 512 * lo
  \/ lo <= x / 512 <= N - 2 - blocks_needed w names
  \/ 512 * (N - 1) + 8 + 16 * Z.of_nat (length names) <= x
  \/ (exists (k : nat) (name : string) (fd : stream) (j : Z),
        nth_error names k = Some name /\ w name = Some fd
        /\ 8 + Z.of_nat (length (pending fd)) <= j
           < 512 * (1 + (Z.of_nat (length (pending fd)) + 8) / 512)
        /\ x = file_addr (N - 2 - blocks_needed w (firstn k names)) j) ->
  ~ run_writes w names N x.
Proof.
  intros Hlo Hfit Hfits Hx. unfold run_writes.
  pose proof (blocks_needed_nonneg w names) as Hnn.
  intros [Hw|[Hw|[Hw|(k' & name' & fd' & j' & Hk' & Hw' & Hj' & Hx')]]].
  - destruct Hx as [Hx|[Hx|[Hx|(k & name & fd & j & Hk & Hw0 & Hj & Hx)]]].
    + lia.
    + Z.to_euclidean_division_equations; lia.
    + lia.
    + pose proof (file_byte_block w names N k name fd j Hk Hw0 ltac:(lia)) as Hb.
      rewrite <- Hx in Hb.
      destruct (blocks_needed_firstn w names (S k) (S k) ltac:(lia)) as [_ Hle].
      Z.to_euclidean_division_equations; lia.
  - destruct Hx as [Hx|[Hx|[Hx|(k & name & fd & j & Hk & Hw0 & Hj & Hx)]]].
    + lia.
    + Z.to_euclidean_division_equations; lia.
    + lia.
    + pose proof (file_byte_block w names N k name fd j Hk Hw0 ltac:(lia)) as Hb.
      rewrite <- Hx in Hb.
      destruct (blocks_needed_firstn w names (S k) (S k) ltac:(lia)) as [_ Hle].
      Z.to_euclidean_division_equations; lia.
  - destruct Hx as [Hx|[Hx|[Hx|(k & name & fd & j & Hk & Hw0 & Hj & Hx)]]].
    + lia.
    + Z.to_euclidean_division_equations; lia.
    + lia.
    + pose proof (file_byte_block w names N k name fd j Hk Hw0 ltac:(lia)) as Hb.
      rewrite <- Hx in Hb.
      destruct (blocks_needed_firstn w names k k ltac:(lia)) as [[Hk0 _] _].
      Z.to_euclidean_division_equations; lia.
  - pose proof (file_byte_block w names N k' name' fd' j' Hk' Hw'
                  ltac:(Z.to_euclidean_division_equations; lia)) as Hb'.
    rewrite <- Hx' in Hb'.
    destruct (blocks_needed_firstn w names k' (S k') ltac:(lia))
      as [[Hk0' _] Hle'].
    destruct Hx as [Hx|[Hx|[Hx|(k & name & fd & j & Hk & Hw0 & Hj & Hx)]]].
    + Z.to_euclidean_division_equations; lia.
    + lia.
    + Z.to_euclidean_division_equations; lia.
    + pose proof (file_byte_block w names N k name fd j Hk Hw0 ltac:(lia)) as Hb.
      rewrite <- Hx in Hb.
      destruct (Nat.lt_trichotomy k' k) as [Hlt|[Heq|Hgt]].
      * destruct (blocks_needed_firstn w names (S k') k ltac:(lia))
          as [[_ Hm] _].
        lia.
      * subst k'. assert (name' = name) by congruence. subst name'.
        assert (fd' = fd) by congruence. subst fd'.
        rewrite Hx in Hx'. apply file_addr_inj in Hx'. lia.
      * destruct (blocks_needed_firstn w names (S k) k' ltac:(lia))
          as [[_ Hm] _].
        lia.
Qed.

Lemma bytes_check (l : list Z) :
  forallb (fun b => (0 <=? b) && (b <? 256)) l = true -> Forall is_byte l.
Proof.
  intros H. apply Forall_forall. intros b Hb.
  rewrite forallb_forall in H. specialize (H b Hb).
  apply andb_true_iff in H. destruct H as [H1 H2].
  apply Z.leb_le in H1. apply Z.ltb_lt in H2. unfold is_byte. lia.
Qed.

(** X19.  The image depends only on the arguments and on the bytes of the
    files.  Two runs with the same arguments that both succeed, on files
    of the same bytes, give the same start blocks and, byte for byte, the
    same image, however [read] splits the files in each run. *)
Theorem image_independent_of_reads (w1 w2 : world) (argv : list string)
    (xs1 xs2 : list Z) (img1 img2 : image) :
  same_files w1 w2 (skipn 3 argv) ->
  main w1 argv = Ok (xs1, img1) ->
  main w2 argv = Ok (xs2, img2) ->
  xs1 = xs2
  /\ mapLength img1 = mapLength img2
  /\ forall x, cell img1 x = cell img2 x.
Proof.
  intros Hs H1 H2.
  assert (B1 : byte_valued img1).
  { apply (run_byte_valued w1 argv xs1 img1); [|exact H1].
    intros name fd Hin Hw.
    destruct (Hs name Hin) as (fd1 & fd2 & E1 & _ & _ & Hb).
    assert (fd1 = fd) by congruence. subst fd1. exact Hb. }
  assert (B2 : byte_valued img2).
  { apply (run_byte_valued w2 argv xs2 img2); [|exact H2].
    intros name fd Hin Hw.
    destruct (Hs name Hin) as (fd1 & fd2 & _ & E2 & Ep & Hb).
    assert (fd2 = fd) by congruence. subst fd2. rewrite <- Ep. exact Hb. }
  destruct (run_summary w1 argv xs1 img1 H1)
    as (N & c1 & Hatoi & HN & Hlo & Hfit & Hn16 & Hxs1 & Hfits & Hc1 & L1
        & Low1 & Fr1 & Hroot1 & Hfat1 & Hfree1 & Htag1 & Hlen1 & Hall1).
  destruct (run_summary w2 argv xs2 img2 H2)
    as (N' & c2 & Hatoi' & _ & _ & _ & _ & Hxs2 & _ & Hc2 & L2
        & Low2 & Fr2 & Hroot2 & Hfat2 & Hfree2 & Htag2 & Hlen2 & Hall2).
  assert (E : N' = N) by congruence. rewrite E in *. clear E Hatoi'.
  set (names := skipn 3 argv) in *. set (lo := lastAvail_of N) in *.
  assert (Hbn : forall k, blocks_needed w2 (firstn k names)
                          = blocks_needed w1 (firstn k names)).
  { intros k. apply blocks_needed_same. apply same_files_firstn. exact Hs. }
  rewrite (blocks_needed_same w1 w2 names Hs) in *.
  pose proof (blocks_needed_nonneg w1 names) as Hnn.
  (* the two runs, file by file *)
  assert (Hboth : forall (k : nat) (name : string),
             nth_error names k = Some name ->
             exists (fd : stream) (x : Z),
               w1 name = Some fd
               /\ nth_error xs1 k = Some x /\ nth_error xs2 k = Some x
               /\ x = N - 2 - blocks_needed w1 (firstn k names)
               /\ entry_name img1 (N - 1) (Z.of_nat k)
                  = entry_name img2 (N - 1) (Z.of_nat k)
               /\ entry_start img1 (N - 1) (Z.of_nat k)
                  = entry_start img2 (N - 1) (Z.of_nat k)
               /\ (exists l,
                      chain img1 c1 (N - 1) x l
                      /\ chain img2 c2 (N - 1) x l
                      /\ l = down_from x
                               (Z.to_nat
                                  (1 + (Z.of_nat (length (pending fd)) + 8)
                                       / 512)))
               /\ file_tag img1 x = file_tag img2 x
               /\ file_length img1 x = file_length img2 x
               /\ forall i, (i < length (pending fd))%nat ->
                    cell img1 (file_addr x (8 + Z.of_nat i))
                    = cell img2 (file_addr x (8 + Z.of_nat i))).
  { intros k name Hk.
    destruct (Hall1 k name Hk)
      as (fd1 & x1 & W1 & X1 & Ex1 & En1 & Es1 & Ch1 & T1 & Ln1 & Ct1).
    destruct (Hall2 k name Hk)
      as (fd2 & x2 & W2 & X2 & Ex2 & En2 & Es2 & Ch2 & T2 & Ln2 & Ct2).
    destruct (Hs name (nth_error_In _ _ Hk)) as (g1 & g2 & G1 & G2 & Ep & _).
    assert (g1 = fd1) by congruence. assert (g2 = fd2) by congruence.
    subst g1 g2. rewrite Hbn in Ex2.
    assert (Ex : x2 = x1) by congruence. rewrite Ex in *. clear Ex.
    rewrite <- Ep in *.
    exists fd1, x1. split; [exact W1|]. split; [exact X1|]. split; [exact X2|].
    split; [exact Ex1|]. split; [congruence|]. split; [congruence|].
    split; [eexists; split; [exact Ch1|split; [exact Ch2|reflexivity]]|].
    split; [congruence|]. split; [congruence|].
    intros i Hi.
    assert (Hin : (i + 8
                   < 512 * Z.to_nat
                             (1 + (Z.of_nat (length (pending fd1)) + 8) / 512))%nat)
      by (Z.to_euclidean_division_equations; lia).
    rewrite <- !(nth_payload_down _ _ _ _ Hin).
    assert (Ei : forall l, nth i l 0
                           = nth i (firstn (length (pending fd1)) l) 0).
    { intros l. rewrite nth_firstn.
      destruct (Nat.ltb_spec i (length (pending fd1))); [reflexivity|lia]. }
    rewrite (Ei (chain_payload img1 _)), (Ei (chain_payload img2 _)).
    rewrite Ct1, Ct2. reflexivity. }
  assert (Hopen : forall name, In name names -> exists fd, w1 name = Some fd).
  { intros name Hin. destruct (Hs name Hin) as (fd1 & _ & E1 & _).
    exists fd1. exact E1. }
  assert (Hname : forall k, (k < length names)%nat ->
                            exists name, nth_error names k = Some name).
  { intros k Hk. destruct (nth_error names k) as [name|] eqn:E.
    - exists name. reflexivity.
    - apply nth_error_None in E. lia. }
  (* a byte that neither run wrote *)
  assert (Hzero : forall x, ~ run_writes w1 names N x ->
                            ~ run_writes w2 names N x ->
                            cell img1 x = cell img2 x).
  { intros x Z1 Z2. destruct Fr1 as [_ Fr1]. destruct Fr2 as [_ Fr2].
    rewrite (Fr1 x Z1), (Fr2 x Z2). reflexivity. }
  assert (Hs' : same_files w2 w1 names).
  { intros name Hin. destruct (Hs name Hin) as (fd1 & fd2 & E1 & E2 & Ep & Hb).
    exists fd2, fd1. split; [exact E2|]. split; [exact E1|].
    split; [symmetry; exact Ep|]. rewrite <- Ep. exact Hb. }
  assert (Hun : forall x,
             512 + 4 * N <= x < 512 * lo
             \/ lo <= x / 512 <= N - 2 - blocks_needed w1 names
             \/ 512 * (N - 1) + 8 + 16 * Z.of_nat (length names) <= x
             \/ (exists (k : nat) (name : string) (fd : stream) (j : Z),
                    nth_error names k = Some name /\ w1 name = Some fd
                    /\ 8 + Z.of_nat (length (pending fd)) <= j
                       < 512 * (1 + (Z.of_nat (length (pending fd)) + 8) / 512)
                    /\ x = file_addr (N - 2 - blocks_needed w1 (firstn k names)) j) ->
             cell img1 x = cell img2 x).
  { intros x Hx. apply Hzero.
    - apply (unwritten w1 names N lo x Hlo Hfit Hfits Hx).
    - apply (unwritten w2 names N lo x Hlo Hfit).
      + rewrite (blocks_needed_same w1 w2 names Hs). exact Hfits.
      + rewrite (blocks_needed_same w1 w2 names Hs).
        destruct Hx as [Hx|[Hx|[Hx|(k & name & fd & j & Hk & Hw & Hj & Hx)]]].
        * left. exact Hx.
        * right. left. exact Hx.
        * right. right. left. exact Hx.
        * right. right. right.
          destruct (Hs name (nth_error_In _ _ Hk)) as (g1 & g2 & G1 & G2 & Ep & _).
          assert (g1 = fd) by congruence. subst g1.
          exists k, name, g2, j. rewrite Hbn, <- Ep.
          split; [exact Hk|]. split; [exact G2|]. split; [exact Hj|exact Hx]. }
  (* the FAT *)
  assert (Hfat : forall j, lo <= j < N -> fat img1 j = fat img2 j).
  { intros j Hj.
    destruct (Z.eq_dec j (N - 1)) as [->|Hne]; [congruence|].
    destruct (Z_le_gt_dec j (N - 2 - blocks_needed w1 names)) as [Hfree|Hfile].
    - apply (chain_same_fat _ _ _ _ _ _ _ _ _ j Hfree1 Hfree2); try lia.
      apply In_down_from. lia.
    - destruct (block_owner w1 names Hopen (N - 2 - j) ltac:(lia))
        as (k & name & fd & Hk & Hw & Hb).
      destruct (Hboth k name Hk)
        as (fd' & x & Hw' & _ & _ & Ex & _ & _ & (l & Ch1 & Ch2 & El) & _).
      assert (fd' = fd) by congruence. subst fd'.
      rewrite (blocks_needed_firstn_S w1 names k name fd Hk Hw) in Hb.
      apply (chain_same_fat _ _ _ _ _ _ _ _ _ j Ch1 Ch2); try lia.
      rewrite El. apply In_down_from.
      assert (0 <= (Z.of_nat (length (pending fd)) + 8) / 512)
        by (Z.to_euclidean_division_equations; lia).
      lia. }
  split.
  { apply nth_error_ext. intros k.
    destruct (Nat.lt_ge_cases k (length names)) as [Hk|Hk].
    - destruct (Hname k Hk) as [name Hn].
      destruct (Hboth k name Hn) as (fd & x & _ & X1 & X2 & _).
      congruence.
    - transitivity (@None Z); [|symmetry]; apply nth_error_None; lia. }
  split; [congruence|].
  intros x.
  destruct (Z_lt_ge_dec x 8) as [C1|C1].
  { destruct Low1 as [_ Low1]. destruct Low2 as [_ Low2].
    rewrite Low1, Low2 by (cbv beta; lia). reflexivity. }
  destruct (Z_lt_ge_dec x 12) as [C2|C2].
  { apply (get32_cells img1 img2 super_avail x B1 B2); [|unfold super_avail; lia].
    destruct (chain_head _ _ _ _ _ Hfree1 ltac:(lia)) as [E1 _].
    destruct (chain_head _ _ _ _ _ Hfree2 ltac:(lia)) as [E2 _].
    unfold avail in E1, E2. congruence. }
  destruct (Z_lt_ge_dec x 16) as [C3|C3].
  { apply (get32_cells img1 img2 super_root x B1 B2); [|unfold super_root; lia].
    unfold root in Hroot1, Hroot2. congruence. }
  destruct (Z_lt_ge_dec x (512 + 4 * lo)) as [C4|C4].
  { destruct Low1 as [_ Low1]. destruct Low2 as [_ Low2].
    rewrite Low1, Low2 by (cbv beta; lia). reflexivity. }
  destruct (Z_lt_ge_dec x (512 + 4 * N)) as [C5|C5].
  { apply (get32_cells img1 img2 (fat_at ((x - 512) / 4)) x B1 B2).
    - apply Hfat. Z.to_euclidean_division_equations; lia.
    - unfold fat_at. Z.to_euclidean_division_equations; lia. }
  destruct (Z_lt_ge_dec x (512 * lo)) as [C6|C6].
  { apply Hun. left. lia. }
  destruct (Z_lt_ge_dec x (512 * (N - 1))) as [C7|C7].
  { (* a block of a file, or a free block *)
    assert (Hb : lo <= x / 512 <= N - 2)
      by (Z.to_euclidean_division_equations; lia).
    destruct (Z_le_gt_dec (x / 512) (N - 2 - blocks_needed w1 names))
      as [Hfree|Hfile].
    { apply Hun. right. left. lia. }
    destruct (block_owner w1 names Hopen (N - 2 - x / 512) ltac:(lia))
      as (k & name & fd & Hk & Hw & Hown).
    destruct (Hboth k name Hk)
      as (fd' & h & Hw' & _ & _ & Ex & _ & _ & _ & Ht & Hl & Hct).
    assert (fd' = fd) by congruence. subst fd'.
    rewrite (blocks_needed_firstn_S w1 names k name fd Hk Hw) in Hown.
    set (j := 512 * (h - x / 512) + x mod 512).
    assert (Hj : 0 <= j < 512 * (1 + (Z.of_nat (length (pending fd)) + 8) / 512))
      by (unfold j; Z.to_euclidean_division_equations; lia).
    assert (Ex' : x = file_addr h j).
    { rewrite (file_addr_in_block h j (h - x / 512))
        by (unfold j; Z.to_euclidean_division_equations; lia).
      unfold j. Z.to_euclidean_division_equations; lia. }
    destruct (Z_lt_ge_dec j 4) as [J1|J1].
    { apply (get32_cells img1 img2 (512 * h) x B1 B2); [exact Ht|].
      rewrite Ex', (file_addr_in_block h j 0) by lia. lia. }
    destruct (Z_lt_ge_dec j 8) as [J2|J2].
    { apply (get32_cells img1 img2 (512 * h + 4) x B1 B2); [exact Hl|].
      rewrite Ex', (file_addr_in_block h j 0) by lia. lia. }
    destruct (Z_lt_ge_dec j (8 + Z.of_nat (length (pending fd)))) as [J3|J3].
    { rewrite Ex'. replace j with (8 + Z.of_nat (Z.to_nat (j - 8))) by lia.
      apply Hct. lia. }
    apply Hun. right. right. right. exists k, name, fd, j.
    split; [exact Hk|]. split; [exact Hw|]. split; [lia|].
    rewrite <- Ex. exact Ex'. }
  (* the root block, and what follows *)
  destruct (Z_lt_ge_dec x (512 * (N - 1) + 4)) as [R1|R1].
  { apply (get32_cells img1 img2 (512 * (N - 1)) x B1 B2); [|lia].
    unfold file_tag in Htag1, Htag2. congruence. }
  destruct (Z_lt_ge_dec x (512 * (N - 1) + 8)) as [R2|R2].
  { apply (get32_cells img1 img2 (512 * (N - 1) + 4) x B1 B2); [|lia].
    unfold file_length in Hlen1, Hlen2. congruence. }
  destruct (Z_lt_ge_dec x (512 * (N - 1) + 8 + 16 * Z.of_nat (length names)))
    as [R3|R3].
  2:{ apply Hun. right. right. left. lia. }
  set (k := Z.to_nat ((x - (512 * (N - 1) + 8)) / 16)).
  assert (Hk : (k < length names)%nat)
    by (unfold k; Z.to_euclidean_division_equations; lia).
  assert (Ek : Z.of_nat k = (x - (512 * (N - 1) + 8)) / 16)
    by (unfold k; Z.to_euclidean_division_equations; lia).
  destruct (Hname k Hk) as [name Hn].
  destruct (Hboth k name Hn) as (fd & h & _ & _ & _ & _ & En & Es & _).
  destruct (Z_lt_ge_dec x (512 * (N - 1) + 8 + 16 * Z.of_nat k + 12)) as [E1|E1].
  - apply (get_bytes_cells img1 img2 (512 * (N - 1) + 8 + 16 * Z.of_nat k) 12 x).
    + exact En.
    + rewrite Ek. Z.to_euclidean_division_equations; lia.
  - apply (get32_cells img1 img2 (512 * (N - 1) + 8 + 16 * Z.of_nat k + 12) x
             B1 B2).
    + exact Es.
    + rewrite Ek. Z.to_euclidean_division_equations; lia.
Qed.

Lemma image_independent_of_reads_demo :
  let w2 := whole_reads demo_world in
  run_xs demo_world demo_argv = run_xs w2 demo_argv
  /\ mapLength (run_img demo_world demo_argv) = mapLength (run_img w2 demo_argv)
  /\ forall x, cell (run_img demo_world demo_argv) x
               = cell (run_img w2 demo_argv) x.
Proof.
  apply (image_independent_of_reads demo_world (whole_reads demo_world)
           demo_argv).
  - intros name [<-|[<-|[]]];
      (eexists; eexists; split; [reflexivity|]; split; [reflexivity|];
       split; [reflexivity|]; apply bytes_check; vm_compute; reflexivity).
  - apply run_ok. vm_compute. reflexivity.
  - apply run_ok. vm_compute. reflexivity.
Defined.
